(** * DirSynchronizer: a one-way directory mirror

    A shallow embedding of [main.cpp] and [Logger.h] and the properties of
    the poll loop [DirWatcher::run_internal], of the reconciler
    [DirWatcherCallback::report_action] and of [main].

    Conventions of the embedding.
    - [std::string] is [string]; [size_t] and [int] values are [Z] with the
      conversions between them written out ([to_int], [to_size_t]).
    - C++ exceptions are the [Raise] outcome of the monad [M]; nothing in
      the program catches an exception, so a [Raise] that leaves
      [run_internal] is the end of the worker thread ([std::terminate]).
    - The file system is a tree of nodes reached from one root; it stands
      for what [std::filesystem] sees. Paths are resolved component by
      component; there are no symbolic links, [.] or [..].
    - The standard library is taken as libstdc++ has it. A
      [fs::directory_entry] carries the path together with the file type
      the directory iterator observed when it produced the entry;
      [last_write_time()] is not stored but read from the file system at
      every call. [std::set<fs::directory_entry>] is ordered by path only.
      [std::atoi] is [strtol] converted to [int].
    - The logger writes each record to the console and to its file
      stream. The stream is identified with the path it was opened on and
      writes at the end of the file that path denotes. Local time is UTC,
      and [__FILE__] is [main.cpp].
    - Time is a count of seconds since the epoch. While the worker sleeps
      and while it is busy with a poll cycle, its surroundings change the
      tree and may raise the stop flag. The actions of a poll cycle are
      taken at the instant the cycle starts; what the surroundings do
      during the seconds the cycle takes ([busy]) comes after them.
    - The watcher carries one ghost field, [reported], the list of the
      calls it has made to [report_action]. *)

From Stdlib Require Import ZArith List Bool Ascii String Lia DecimalString.
Import ListNotations.

Local Open Scope string_scope.
Local Open Scope Z_scope.

Set Warnings "-register-all".

(* ================================================================== *)
(** * Strings and paths *)

Module Str.

(** [std::string::npos], the largest [size_t]. *)
Definition npos : Z := 2 ^ 64 - 1.

(** Conversion of a [size_t] to [int] (two's complement, 32 bits). *)
Definition to_int (z : Z) : Z := (z + 2 ^ 31) mod 2 ^ 32 - 2 ^ 31.

(** Conversion of an [int] to [size_t] (64 bits). *)
Definition to_size_t (z : Z) : Z := z mod 2 ^ 64.

Definition size (s : string) : Z := Z.of_nat (String.length s).

(** Index of the last occurrence of [c], if any. *)
Fixpoint last_index (c : ascii) (s : string) : option nat :=
  match s with
  | EmptyString => None
  | String a s' =>
      match last_index c s' with
      | Some i => Some (S i)
      | None => if Ascii.eqb a c then Some O else None
      end
  end.

(** [str.rfind(c)]. *)
Definition rfind (c : ascii) (s : string) : Z :=
  match last_index c s with
  | Some i => Z.of_nat i
  | None => npos
  end.

(** [str.substr(pos, n)]: [None] stands for [std::out_of_range]. *)
Definition substr (s : string) (pos n : Z) : option string :=
  if size s <? pos then None
  else Some (String.substring (Z.to_nat pos)
                              (Z.to_nat (Z.min n (size s - pos))) s).

(** The pieces of [s] between occurrences of [c]; never empty. *)
Fixpoint split_on (c : ascii) (s : string) : list string :=
  match s with
  | EmptyString => [EmptyString]
  | String a s' =>
      if Ascii.eqb a c then EmptyString :: split_on c s'
      else match split_on c s' with
           | [] => [String a EmptyString]
           | x :: xs => String a x :: xs
           end
  end.

Definition is_empty (s : string) : bool :=
  match s with EmptyString => true | _ => false end.

Fixpoint ends_with_sep (s : string) : bool :=
  match s with
  | EmptyString => false
  | String a EmptyString => Ascii.eqb a "/"%char
  | String _ s' => ends_with_sep s'
  end.

End Str.

Module Path.

(** The names a path goes through, from the root. *)
Definition components (p : string) : list string :=
  filter (fun c => negb (Str.is_empty c)) (Str.split_on "/"%char p).

(** The text after the last separator: the final component as the
    specification understands it. *)
Definition final_component (p : string) : string :=
  last (Str.split_on "/"%char p) EmptyString.

(** [p / name] of [fs::path] for a relative [name]. *)
Definition append (p name : string) : string :=
  if Str.is_empty p || Str.ends_with_sep p then p ++ name
  else p ++ "/" ++ name.

Fixpoint compare_components (a b : list string) : comparison :=
  match a, b with
  | [], [] => Eq
  | [], _ :: _ => Lt
  | _ :: _, [] => Gt
  | x :: a', y :: b' =>
      match String.compare x y with
      | Eq => compare_components a' b'
      | c => c
      end
  end.

(** [fs::path::compare]: element-wise, lexicographic. *)
Definition compare (p q : string) : comparison :=
  compare_components (components p) (components q).

Definition same (a b : list string) : bool :=
  match compare_components a b with Eq => true | _ => false end.

Definition equiv (p q : string) : bool := same (components p) (components q).

End Path.

(* ================================================================== *)
(** * The file system seen through [std::filesystem] *)

Module FS.

(** [fs::file_type], as far as the program tells the kinds apart. *)
Inductive file_type := regular | directory | other.

Inductive node :=
| File (content : string) (mtime : Z)
| Dir (children : list (string * node)) (mtime : Z)
| Other (mtime : Z).

Definition mtime_of (n : node) : Z :=
  match n with File _ m | Dir _ m | Other m => m end.

Definition type_of (n : node) : file_type :=
  match n with File _ _ => regular | Dir _ _ => directory | Other _ => other end.

(** What the file operations of the program tell apart in a node:
    [fs::remove] needs to know whether a directory is empty. *)
Inductive kind := a_file | an_empty_directory | a_directory | another.

Definition kind_of (n : node) : kind :=
  match n with
  | File _ _ => a_file
  | Dir [] _ => an_empty_directory
  | Dir (_ :: _) _ => a_directory
  | Other _ => another
  end.

(** Directory contents: the first binding of a name is the child. *)
Fixpoint child (name : string) (ch : list (string * node)) : option node :=
  match ch with
  | [] => None
  | (k, n) :: ch' => if String.eqb k name then Some n else child name ch'
  end.

Fixpoint set_child (name : string) (n : node) (ch : list (string * node))
  : list (string * node) :=
  match ch with
  | [] => [(name, n)]
  | (k, x) :: ch' =>
      if String.eqb k name then (k, n) :: ch' else (k, x) :: set_child name n ch'
  end.

Fixpoint del_child (name : string) (ch : list (string * node))
  : list (string * node) :=
  match ch with
  | [] => []
  | (k, x) :: ch' =>
      if String.eqb k name then del_child name ch' else (k, x) :: del_child name ch'
  end.

(** Path resolution. A path that runs through a missing name or through
    something that is not a directory denotes nothing. *)
Fixpoint lookup (p : list string) (n : node) : option node :=
  match p with
  | [] => Some n
  | c :: p' =>
      match n with
      | Dir ch _ =>
          match child c ch with
          | Some n' => lookup p' n'
          | None => None
          end
      | _ => None
      end
  end.

(** Write [new] at [p]. Every directory above [p] must exist; the last
    name is created when missing, which stamps its directory with [now].
    [None] is a failed system call. *)
Fixpoint put (now : Z) (p : list string) (new : node) (n : node) : option node :=
  match p with
  | [] => Some new
  | c :: p' =>
      match n with
      | Dir ch m =>
          match child c ch with
          | Some n' =>
              match put now p' new n' with
              | Some n'' => Some (Dir (set_child c n'' ch) m)
              | None => None
              end
          | None =>
              match p' with
              | [] => Some (Dir (set_child c new ch) now)
              | _ :: _ => None
              end
          end
      | _ => None
      end
  end.

(** Unlink what is at [p]; [None] when there is nothing to unlink. *)
Fixpoint del (now : Z) (p : list string) (n : node) : option node :=
  match p with
  | [] => None
  | c :: p' =>
      match n with
      | Dir ch m =>
          match child c ch with
          | Some n' =>
              match p' with
              | [] => Some (Dir (del_child c ch) now)
              | _ :: _ =>
                  match del now p' n' with
                  | Some n'' => Some (Dir (set_child c n'' ch) m)
                  | None => None
                  end
              end
          | None => None
          end
      | _ => None
      end
  end.

(** [fs::copy_file(from, to, overwrite_existing)] on the nodes the two
    paths denote: the result is what [to] denotes afterwards. *)
Definition copy_file_node (now : Z) (f t : option node) : option node :=
  match f with
  | Some (File c _) =>
      match t with
      | None | Some (File _ _) => Some (File c now)
      | Some _ => None
      end
  | _ => None
  end.

(** The loop of [fs::copy] over the entries of the source directory:
    each entry [nm] is copied onto [to / nm]. *)
Definition copy_children (copy : string -> node -> option node -> option node)
  : list (string * node) -> list (string * node) -> option (list (string * node)) :=
  fix go (fch tch : list (string * node)) : option (list (string * node)) :=
    match fch with
    | [] => Some tch
    | (nm, c) :: rest =>
        match copy nm c (child nm tch) with
        | Some r => go rest (set_child nm r tch)
        | None => None
        end
    end.

(** [fs::copy(from, to, overwrite_existing | recursive)] on the nodes the
    two paths denote, [name] being [from.filename()]: the result is what
    [to] denotes afterwards. The source subtree is taken as it is when the
    call starts. *)
Fixpoint copy_node (now : Z) (name : string) (f : node) (t : option node)
  {struct f} : option node :=
  match f with
  | Other _ => None
  | File c _ =>
      match t with
      | None | Some (File _ _) => Some (File c now)
      | Some (Dir ch m) =>
          (* copy_file(from, to / from.filename()) *)
          match child name ch with
          | None => Some (Dir (set_child name (File c now) ch) now)
          | Some (File _ _) => Some (Dir (set_child name (File c now) ch) m)
          | Some _ => None
          end
      | Some (Other _) => None
      end
  | Dir fch _ =>
      match t with
      | None =>
          (* create_directory(to, from) *)
          match copy_children (copy_node now) fch [] with
          | Some ch => Some (Dir ch now)
          | None => None
          end
      | Some (Dir tch m) =>
          match copy_children (copy_node now) fch tch with
          | Some ch =>
              Some (Dir ch (if Nat.eqb (List.length ch) (List.length tch)
                            then m else now))
          | None => None
          end
      | Some _ => None
      end
  end.

(** The loop of [fs::copy] over the entries of the source directory when
    the copy of one of them throws: the entries before it have been
    copied, and the one that failed may have been copied in part. *)
Definition debris_children
  (copy debris : string -> node -> option node -> option node)
  : list (string * node) -> list (string * node) -> list (string * node) :=
  fix go (fch tch : list (string * node)) : list (string * node) :=
    match fch with
    | [] => tch
    | (nm, c) :: rest =>
        match copy nm c (child nm tch) with
        | Some r => go rest (set_child nm r tch)
        | None =>
            match debris nm c (child nm tch) with
            | Some r => set_child nm r tch
            | None => tch
            end
        end
    end.

(** What [to] denotes after a call of [fs::copy] that throws
    ([copy_node] is [None]): a target directory that was created or
    filled before the failure stays as it is then. *)
Fixpoint copy_debris (now : Z) (name : string) (f : node) (t : option node)
  {struct f} : option node :=
  match f with
  | Dir fch _ =>
      match t with
      | None =>
          Some (Dir (debris_children (copy_node now) (copy_debris now) fch []) now)
      | Some (Dir tch m) =>
          let ch := debris_children (copy_node now) (copy_debris now) fch tch in
          Some (Dir ch (if Nat.eqb (List.length ch) (List.length tch)
                        then m else now))
      | Some _ => t
      end
  | _ => t
  end.

(** [fs::copy_file(from, to, overwrite_existing)] on the whole tree. *)
Definition copy_file (now : Z) (from to : list string) (root : node)
  : option node :=
  if Path.same from to then None
  else
    match copy_file_node now (lookup from root) (lookup to root) with
    | Some n => put now to n root
    | None => None
    end.

(** [fs::copy(from, to, overwrite_existing | recursive)] on the whole
    tree. *)
Definition copy (now : Z) (name : string) (from to : list string)
  (root : node) : option node :=
  match lookup from root with
  | None => None
  | Some f =>
      if Path.same from to then None
      else
        match copy_node now name f (lookup to root) with
        | Some n => put now to n root
        | None => None
        end
  end.

(** The tree that a call of [fs::copy] leaves when it throws. *)
Definition copy_failed (now : Z) (name : string) (from to : list string)
  (root : node) : node :=
  match lookup from root with
  | None => root
  | Some f =>
      if Path.same from to then root
      else
        match copy_debris now name f (lookup to root) with
        | Some d =>
            match put now to d root with
            | Some root' => root'
            | None => root
            end
        | None => root
        end
  end.

(** [fs::remove(p)]: [Some] of the unchanged tree when [p] does not
    exist; a directory must be empty. *)
Definition remove (now : Z) (p : list string) (root : node) : option node :=
  match lookup p root with
  | None => Some root
  | Some (Dir (_ :: _) _) => None
  | Some _ => del now p root
  end.

(** [fs::remove_all(p)]. *)
Definition remove_all (now : Z) (p : list string) (root : node) : option node :=
  match lookup p root with
  | None => Some root
  | Some _ => del now p root
  end.

(** Timestamps forgotten: what is left is the directory structure and the
    file contents. *)
Fixpoint erase_times (n : node) : node :=
  match n with
  | File c _ => File c 0
  | Other _ => Other 0
  | Dir ch _ => Dir (map (fun kx => (fst kx, erase_times (snd kx))) ch) 0
  end.

Definition erase_children (ch : list (string * node)) : list (string * node) :=
  map (fun kx => (fst kx, erase_times (snd kx))) ch.

Definition names (ch : list (string * node)) : list string := map fst ch.

Fixpoint distinct (l : list string) : bool :=
  match l with
  | [] => true
  | x :: l' => negb (existsb (String.eqb x) l') && distinct l'
  end.

(** No directory holds a name twice. *)
Fixpoint well_formed (n : node) : bool :=
  match n with
  | Dir ch _ => distinct (names ch) && forallb (fun kx => well_formed (snd kx)) ch
  | _ => true
  end.

End FS.

(* ================================================================== *)
(** * Exceptions, the process state and the monad of the program *)

Inductive exn :=
| runtime_error (what : string)
| filesystem_error (what : string)
| out_of_range (what : string).

Module Logger.

Inductive severity_t := INFO | WARNING | ERROR | FATAL | DEBUG.

Definition severity_eqb (a b : severity_t) : bool :=
  match a, b with
  | INFO, INFO | WARNING, WARNING | ERROR, ERROR
  | FATAL, FATAL | DEBUG, DEBUG => true
  | _, _ => false
  end.

(** The fields of a [Logger] object: [outf] is the name the file stream
    was opened on, [None] when the stream is not open; [out] is
    [std::cout]. *)
Record t := {
  outf : option string;
  debug : bool;
  show_source : bool;
  colored : bool
}.

(** One call of [logf_internal]: the severity tag and the formatted text
    that go to both sinks. *)
Record record := { severity : severity_t; text : string }.

Definition get_severity_str (severity : severity_t) : string :=
  match severity with
  | INFO => "INFO"
  | WARNING => "WARNING"
  | ERROR => "ERROR"
  | FATAL => "FATAL"
  | DEBUG => "DEBUG"
  end.

Definition decimal (n : Z) : string := NilZero.string_of_int (Z.to_int n).

Definition two_digits (n : Z) : string :=
  (if n <? 10 then "0" else "") ++ decimal n.

(** [std::put_time(std::localtime(&t), "%Y/%m/%d %H:%M:%S")] for the
    second [now] after the epoch, in UTC. *)
Definition put_time (now : Z) : string :=
  let secs := now mod 86400 in
  let z := now / 86400 + 719468 in
  let era := z / 146097 in
  let doe := z - era * 146097 in
  let yoe := (doe - doe / 1460 + doe / 36524 - doe / 146096) / 365 in
  let doy := doe - (365 * yoe + yoe / 4 - yoe / 100) in
  let mp := (5 * doy + 2) / 153 in
  let d := doy - (153 * mp + 2) / 5 + 1 in
  let m := if mp <? 10 then mp + 3 else mp - 9 in
  let y := yoe + era * 400 + (if m <=? 2 then 1 else 0) in
  decimal y ++ "/" ++ two_digits m ++ "/" ++ two_digits d ++ " "
    ++ two_digits (secs / 3600) ++ ":" ++ two_digits (secs mod 3600 / 60)
    ++ ":" ++ two_digits (secs mod 60).

Definition endl : string := String (ascii_of_nat 10) EmptyString.

(** The line [logf_internal] writes to the file stream; it names the
    place of the call whatever [show_source] is. *)
Definition file_line (now : Z) (severity : severity_t) (text FILE : string)
  (LINE : Z) : string :=
  put_time now ++ " | " ++ get_severity_str severity ++ ": " ++ text
    ++ " (FROM: " ++ FILE ++ ":" ++ decimal LINE ++ ")" ++ endl.

End Logger.

(** What the program shares with its surroundings. *)
Record world := {
  files : FS.node;                      (* the root of the file system *)
  clock : Z;                            (* seconds *)
  logger_this_ptr : option Logger.t;    (* Logger::this_ptr *)
  log_lines : list Logger.record;       (* what the logger has written *)
  cout : list string                    (* lines printed by the program itself *)
}.

Definition set_files (n : FS.node) (w : world) : world :=
  {| files := n; clock := clock w; logger_this_ptr := logger_this_ptr w;
     log_lines := log_lines w; cout := cout w |}.

Definition set_clock (t : Z) (w : world) : world :=
  {| files := files w; clock := t; logger_this_ptr := logger_this_ptr w;
     log_lines := log_lines w; cout := cout w |}.

Definition add_log (r : Logger.record) (w : world) : world :=
  {| files := files w; clock := clock w; logger_this_ptr := logger_this_ptr w;
     log_lines := log_lines w ++ [r]; cout := cout w |}.

Definition add_cout (s : string) (w : world) : world :=
  {| files := files w; clock := clock w; logger_this_ptr := logger_this_ptr w;
     log_lines := log_lines w; cout := cout w ++ [s] |}.

Inductive outcome (A : Type) :=
| Return (a : A) (w : world)
| Raise (e : exn) (w : world).

Arguments Return {A} a w.
Arguments Raise {A} e w.

Definition M (A : Type) : Type := world -> outcome A.

Definition ret {A} (a : A) : M A := fun w => Return a w.

Definition throw {A} (e : exn) : M A := fun w => Raise e w.

Definition bind {A B} (m : M A) (k : A -> M B) : M B :=
  fun w => match m w with
           | Return a w' => k a w'
           | Raise e w' => Raise e w'
           end.

Declare Scope prog_scope.
Delimit Scope prog_scope with prog.
Notation "x <- m ;; k" := (bind m (fun x => k))
  (at level 61, m at next level, right associativity) : prog_scope.
Notation "m ;;; k" := (bind m (fun _ => k))
  (at level 61, right associativity) : prog_scope.

Definition world_of {A} (o : outcome A) : world :=
  match o with Return _ w | Raise _ w => w end.

(** A write of [text] through a file stream opened on [outf]: the text
    goes to the end of the file, if the path still denotes one. *)
Definition write_stream (outf : option string) (text : string) (w : world)
  : world :=
  match outf with
  | None => w
  | Some filename =>
      match FS.lookup (Path.components filename) (files w) with
      | Some (FS.File content _) =>
          match FS.put (clock w) (Path.components filename)
                  (FS.File (content ++ text) (clock w)) (files w) with
          | Some root' => set_files root' w
          | None => w
          end
      | _ => w
      end
  end.

(** [Logger::logf_internal]: the record goes to the console and, as a
    line of text, to the file stream. *)
Definition logf_internal (this : Logger.t) (severity : Logger.severity_t)
  (FILE : string) (LINE : Z) (msg : string) (w : world) : world :=
  write_stream (Logger.outf this)
    (Logger.file_line (clock w) severity msg FILE LINE)
    (add_log {| Logger.severity := severity; Logger.text := msg |} w).

(** [Logger::logf]. The format strings of this program only have [%s]
    conversions, so the formatted text is a concatenation. *)
Definition logf (severity : Logger.severity_t) (FILE : string) (LINE : Z)
  (msg : string) : M unit :=
  fun w =>
    match logger_this_ptr w with
    | None => Raise (runtime_error "The logger must first be instantiated") w
    | Some this_ptr =>
        if Logger.severity_eqb Logger.DEBUG severity && negb (Logger.debug this_ptr)
        then Return tt w
        else Return tt (logf_internal this_ptr severity FILE LINE msg w)
    end.

(** [__FILE__] in [main.cpp]. *)
Definition __FILE__ : string := "main.cpp".

(* ================================================================== *)
(** * The [std::filesystem] calls of the program *)

(** [fs::exists(p)]. *)
Definition fs_exists (p : string) (w : world) : bool :=
  match FS.lookup (Path.components p) (files w) with
  | Some _ => true
  | None => false
  end.

(** A call that changes the tree, or fails with [fs::filesystem_error]
    and leaves the tree as it was. *)
Definition fs_call (what : string) (op : Z -> FS.node -> option FS.node)
  : M unit :=
  fun w =>
    match op (clock w) (files w) with
    | Some root' => Return tt (set_files root' w)
    | None => Raise (filesystem_error what) w
    end.

(** [fs::copy_file(from, to, fs::copy_options::overwrite_existing)]. *)
Definition fs_copy_file (from to : string) : M unit :=
  fs_call "copy_file"
    (fun now => FS.copy_file now (Path.components from) (Path.components to)).

(** [fs::copy(from, to, overwrite_existing | recursive)]. When it throws,
    what it has copied so far stays. *)
Definition fs_copy (from to : string) : M unit :=
  fun w =>
    match FS.copy (clock w) (Path.final_component from)
            (Path.components from) (Path.components to) (files w) with
    | Some root' => Return tt (set_files root' w)
    | None =>
        Raise (filesystem_error "copy")
          (set_files (FS.copy_failed (clock w) (Path.final_component from)
                        (Path.components from) (Path.components to) (files w))
                     w)
    end.

(** [fs::remove(p)]. *)
Definition fs_remove (p : string) : M unit :=
  fs_call "remove" (fun now => FS.remove now (Path.components p)).

(** [fs::remove_all(p)]. *)
Definition fs_remove_all (p : string) : M unit :=
  fs_call "remove_all" (fun now => FS.remove_all now (Path.components p)).

(* ================================================================== *)
(** * [fs::directory_entry] and [std::set<fs::directory_entry>] *)

Record directory_entry := {
  path : string;
  cached_type : FS.file_type    (* the type seen by the iterator *)
}.

Definition is_regular_file (e : directory_entry) : bool :=
  match cached_type e with FS.regular => true | _ => false end.

Definition is_directory (e : directory_entry) : bool :=
  match cached_type e with FS.directory => true | _ => false end.

(** [e.last_write_time()], which is [fs::last_write_time(e.path())]. *)
Definition last_write_time (e : directory_entry) : M Z :=
  fun w =>
    match FS.lookup (Path.components (path e)) (files w) with
    | Some n => Return (FS.mtime_of n) w
    | None => Raise (filesystem_error "last_write_time") w
    end.

(** [operator==] on entries compares the paths and nothing else. *)
Definition same_entry (a b : directory_entry) : bool :=
  Path.equiv (path a) (path b).

Module EntrySet.

(** The elements in iteration order: ascending paths, one per path. *)
Definition t := list directory_entry.

Definition empty : t := [].

Fixpoint find (s : t) (e : directory_entry) : option directory_entry :=
  match s with
  | [] => None
  | x :: s' => if same_entry x e then Some x else find s' e
  end.

Definition contains (s : t) (e : directory_entry) : bool :=
  match find s e with Some _ => true | None => false end.

(** [emplace] leaves the set alone when the path is already there. *)
Fixpoint emplace (s : t) (e : directory_entry) : t :=
  match s with
  | [] => [e]
  | x :: s' =>
      match Path.compare (path e) (path x) with
      | Lt => e :: x :: s'
      | Eq => x :: s'
      | Gt => x :: emplace s' e
      end
  end.

Definition erase (s : t) (e : directory_entry) : t :=
  filter (fun x => negb (same_entry x e)) s.

End EntrySet.

(** The entries [fs::recursive_directory_iterator] yields below the
    directory [n] whose path is [p]: each child, then what is below it. *)
Fixpoint entries_below (p : string) (n : FS.node) : list directory_entry :=
  match n with
  | FS.Dir ch _ =>
      (fix go (ch : list (string * FS.node)) : list directory_entry :=
         match ch with
         | [] => []
         | (name, c) :: ch' =>
             let q := Path.append p name in
             {| path := q; cached_type := FS.type_of c |}
               :: entries_below q c ++ go ch'
         end) ch
  | _ => []
  end.

(** [fs::recursive_directory_iterator(p)], read in one go: the loop over
    it sees the tree as it is when the walk starts. *)
Definition recursive_directory_iterator (p : string) : M (list directory_entry) :=
  fun w =>
    match FS.lookup (Path.components p) (files w) with
    | Some (FS.Dir ch m) => Return (entries_below p (FS.Dir ch m)) w
    | _ => Raise (filesystem_error "recursive_directory_iterator") w
    end.

(* ================================================================== *)
(** * [DirWatcherCallbackBase] *)

Module DirWatcherCallbackBase.

Inductive action_t := CREATE | MODIFY | DELETE | UNEXPECTED_ACTION.
Inductive file_t := DIRECTORY | REGULAR | UNEXPECTED_FILE.

Definition action_eqb (a b : action_t) : bool :=
  match a, b with
  | CREATE, CREATE | MODIFY, MODIFY | DELETE, DELETE
  | UNEXPECTED_ACTION, UNEXPECTED_ACTION => true
  | _, _ => false
  end.

Definition file_eqb (a b : file_t) : bool :=
  match a, b with
  | DIRECTORY, DIRECTORY | REGULAR, REGULAR
  | UNEXPECTED_FILE, UNEXPECTED_FILE => true
  | _, _ => false
  end.

Definition get_action_str (action : action_t) : M string :=
  match action with
  | CREATE => ret "created"
  | MODIFY => ret "modified"
  | DELETE => ret "deleted"
  | UNEXPECTED_ACTION => throw (runtime_error "Unexpected action has been detected")
  end.

Definition get_file_str (file : file_t) : M string :=
  match file with
  | DIRECTORY => ret "Directory"
  | REGULAR => ret "Regular file"
  | UNEXPECTED_FILE =>
      throw (runtime_error "Action has been detected for unexpected file type")
  end.

(** The two virtual member functions. *)
Record vtable := {
  log : action_t -> file_t -> string -> M unit;
  report_action : action_t -> file_t -> string -> string -> M unit
}.

End DirWatcherCallbackBase.

(* ================================================================== *)
(** * [DirWatcherCallback] *)

Module DirWatcherCallback.

Import DirWatcherCallbackBase.
Local Open Scope prog_scope.

(** [get_filename]: the [size_t] result of [rfind] is stored in an [int]. *)
Definition get_filename (str : string) : M string :=
  let elem := Str.to_int (Str.rfind "/"%char str) in
  match Str.substr str (Str.to_size_t (elem + 1)) (Str.size str) with
  | Some s => ret s
  | None => throw (out_of_range "basic_string::substr")
  end.

Definition report_action (action : action_t) (file : file_t)
  (path directory_path : string) : M unit :=
  if (action_eqb action CREATE || action_eqb action MODIFY)
     && file_eqb file REGULAR
  then
    kind <- get_file_str file ;;
    name <- get_filename path ;;
    logf Logger.INFO __FILE__ 216
      (kind ++ " " ++ name ++ " has been created in Replica" ++ (" | " ++ path)) ;;;
    name <- get_filename path ;;
    fs_copy_file path (directory_path ++ "/" ++ name)
  else if action_eqb action DELETE && file_eqb file REGULAR
  then
    kind <- get_file_str file ;;
    name <- get_filename path ;;
    logf Logger.INFO __FILE__ 221
      (kind ++ " " ++ name ++ " has been deleted from Replica" ++ (" | " ++ path)) ;;;
    name <- get_filename path ;;
    fs_remove (directory_path ++ "/" ++ name)
  else if (action_eqb action CREATE || action_eqb action MODIFY)
          && file_eqb file DIRECTORY
  then
    name <- get_filename path ;;
    fs_copy path (directory_path ++ "/" ++ name) ;;;
    kind <- get_file_str file ;;
    name <- get_filename path ;;
    logf Logger.INFO __FILE__ 230
      (kind ++ " " ++ name ++ " has been created in Replica" ++ (" | " ++ path))
  else if action_eqb action DELETE && file_eqb file DIRECTORY
  then
    name <- get_filename path ;;
    fs_remove_all (directory_path ++ "/" ++ name) ;;;
    kind <- get_file_str file ;;
    name <- get_filename path ;;
    logf Logger.INFO __FILE__ 235
      (kind ++ " " ++ name ++ " has been deleted from Replica" ++ (" | " ++ path))
  else ret tt.

Definition log (action : action_t) (file : file_t) (name : string) : M unit :=
  if action_eqb UNEXPECTED_ACTION action && file_eqb UNEXPECTED_FILE file
  then
    logf Logger.WARNING __FILE__ 242
      ("Unexpected action has been detected for unexpected file type: " ++ name)
  else if action_eqb UNEXPECTED_ACTION action
  then
    kind <- get_file_str file ;;
    logf Logger.WARNING __FILE__ 244
      ("Unexpected action has been detected for " ++ kind ++ " " ++ name)
  else if file_eqb UNEXPECTED_FILE file
  then
    act <- get_action_str action ;;
    logf Logger.WARNING __FILE__ 246
      ("Unexpected file " ++ name ++ " has been " ++ act)
  else
    kind <- get_file_str file ;;
    act <- get_action_str action ;;
    logf Logger.INFO __FILE__ 248 (kind ++ " " ++ name ++ " has been " ++ act).

Definition cb : vtable := {| DirWatcherCallbackBase.log := log;
                             DirWatcherCallbackBase.report_action := report_action |}.

End DirWatcherCallback.

(* ================================================================== *)
(** * [DirWatcher] *)

Module DirWatcher.

Import DirWatcherCallbackBase.
Local Open Scope prog_scope.

(** One call of [callback->report_action]. *)
Record change_event := {
  action : action_t;
  file : file_t;
  source_path : string;
  replica_root : string
}.

Record t := {
  source_content : EntrySet.t;         (* the Snapshot *)
  replica_content : EntrySet.t;        (* the Shadow Set *)
  garbage : list directory_entry;
  stop_flag : bool;
  source : string;
  replica : string;
  logfile : string;
  synch_interval : Z;
  reported : list change_event         (* ghost: the calls made to the callback *)
}.

Definition with_sets (sc rc : EntrySet.t) (this : t) : t :=
  {| source_content := sc; replica_content := rc; garbage := garbage this;
     stop_flag := stop_flag this; source := source this;
     replica := replica this; logfile := logfile this;
     synch_interval := synch_interval this; reported := reported this |}.

Definition with_garbage (g : list directory_entry) (this : t) : t :=
  {| source_content := source_content this;
     replica_content := replica_content this; garbage := g;
     stop_flag := stop_flag this; source := source this;
     replica := replica this; logfile := logfile this;
     synch_interval := synch_interval this; reported := reported this |}.

Definition with_stop_flag (b : bool) (this : t) : t :=
  {| source_content := source_content this;
     replica_content := replica_content this; garbage := garbage this;
     stop_flag := b; source := source this;
     replica := replica this; logfile := logfile this;
     synch_interval := synch_interval this; reported := reported this |}.

Definition with_reported (r : list change_event) (this : t) : t :=
  {| source_content := source_content this;
     replica_content := replica_content this; garbage := garbage this;
     stop_flag := stop_flag this; source := source this;
     replica := replica this; logfile := logfile this;
     synch_interval := synch_interval this; reported := r |}.

(** The constructor, for a process in which no watcher exists yet. *)
Definition make (source_ replica_ : string) (synch_interval_ : Z)
  (logfile_path_ : string) : t :=
  {| source_content := EntrySet.empty; replica_content := EntrySet.empty;
     garbage := []; stop_flag := false; source := source_;
     replica := replica_; logfile := logfile_path_;
     synch_interval := synch_interval_; reported := [] |}.

(** [callback->report_action(action, file, entry.path(), replica)]. *)
Definition report (callback : vtable) (a : action_t) (f : file_t)
  (entry : directory_entry) (this : t) : M t :=
  let ev := {| action := a; file := f; source_path := path entry;
               replica_root := replica this |} in
  report_action callback a f (path entry) (replica this) ;;;
  ret (with_reported (reported this ++ [ev]) this).

(** A [for] loop over a container that the body does not change. *)
Fixpoint for_each {A S : Type} (xs : list A) (body : A -> S -> M S) (s : S)
  : M S :=
  match xs with
  | [] => ret s
  | x :: xs' => s' <- body x s ;; for_each xs' body s'
  end.

(** The body of the loop over the walk (lines 145-173). *)
Definition classify (callback : vtable) (entry : directory_entry) (this : t)
  : M t :=
  match EntrySet.find (source_content this) entry with
  | None =>
      let this := with_sets (EntrySet.emplace (source_content this) entry)
                            (EntrySet.emplace (replica_content this) entry)
                            this in
      if is_regular_file entry then report callback CREATE REGULAR entry this
      else if is_directory entry then report callback CREATE DIRECTORY entry this
      else ret this
  | Some file_entry =>
      entry_time <- last_write_time entry ;;
      file_entry_time <- last_write_time file_entry ;;
      if file_entry_time <? entry_time
      then
        if is_regular_file entry then report callback MODIFY REGULAR entry this
        else if is_directory entry then report callback MODIFY DIRECTORY entry this
        else ret this
      else ret this
  end.

(** The body of the loop over [source_content] (lines 178-191). *)
Definition detect_delete (callback : vtable) (entry : directory_entry)
  (this : t) : M t :=
  fun w =>
    if EntrySet.contains (replica_content this) entry
       && negb (fs_exists (path entry) w)
    then
      (this <- (if is_regular_file entry
                then report callback DELETE REGULAR entry this
                else if is_directory entry
                then report callback DELETE DIRECTORY entry this
                else ret this) ;;
       ret (with_garbage (garbage this ++ [entry]) this)) w
    else Return this w.

(** The loop over [garbage] and [garbage.clear()] (lines 193-197). *)
Definition collect_garbage (this : t) : t :=
  with_garbage []
    (with_sets (fold_left EntrySet.erase (garbage this) (source_content this))
               (replica_content this) this).

(** One poll cycle: the body of the [while] loop after the sleep. *)
Definition poll (callback : vtable) (this : t) : M t :=
  entries <- recursive_directory_iterator (source this) ;;
  this <- for_each entries (classify callback) this ;;
  this <- for_each (source_content this) (detect_delete callback) this ;;
  ret (collect_garbage this).

(** What happens around the worker: during the second that starts at
    time [t] the tree is changed by [mutate t], and [interrupt t] tells
    whether the stop flag is raised (the destructor, run from the signal
    handler, stores [true]); a poll cycle that starts at time [t] takes
    [busy t] whole seconds. *)
Record surroundings := {
  mutate : Z -> FS.node -> FS.node;
  interrupt : Z -> bool;
  busy : Z -> nat
}.

(** [n] seconds go by. *)
Fixpoint ticks (env : surroundings) (n : nat) (this : t) (w : world)
  : t * world :=
  match n with
  | O => (this, w)
  | S n' =>
      let now := clock w in
      ticks env n'
        (with_stop_flag (stop_flag this || interrupt env now) this)
        (set_clock (now + 1) (set_files (mutate env now (files w)) w))
  end.

(** [std::chrono::seconds(n)] for a [size_t] [n]: the count is a signed
    64-bit integer. *)
Definition chrono_seconds (n : Z) : Z := (n + 2 ^ 63) mod 2 ^ 64 - 2 ^ 63.

(** [std::this_thread::sleep_for(d)]: every second of [d] goes by; a
    duration that is not positive does not wait. *)
Definition sleep_for (env : surroundings) (seconds : Z) (this : t) : M t :=
  fun w => let (this', w') := ticks env (Z.to_nat seconds) this w in
           Return this' w'.

(** The seconds that the poll cycle which has just run has taken. *)
Definition busy_for (env : surroundings) (this : t) : M t :=
  fun w => let (this', w') := ticks env (busy env (clock w)) this w in
           Return this' w'.

(** [run_internal]: [fuel] bounds the number of times the loop condition
    is tested; [None] is a worker that is still in its loop. *)
Fixpoint run_internal (fuel : nat) (env : surroundings) (callback : vtable)
  (this : t) : M (option t) :=
  match fuel with
  | O => ret None
  | S fuel' =>
      if negb (stop_flag this)
      then
        this <- sleep_for env (chrono_seconds (synch_interval this)) this ;;
        this <- poll callback this ;;
        this <- busy_for env this ;;
        run_internal fuel' env callback this
      else ret (Some this)
  end.

End DirWatcher.

(* ================================================================== *)
(** * [main] *)

Module Main.

(** What reading [argv[i]] gives: an argument, the null pointer that ends
    the array, or an access past the array. *)
Inductive argv_access := Arg (s : string) | Null | OutOfBounds.

Definition argv_at (argv : list string) (i : nat) : argv_access :=
  match nth_error argv i with
  | Some s => Arg s
  | None => if Nat.eqb i (List.length argv) then Null else OutOfBounds
  end.

Inductive ending :=
| exited (status : Z)          (* [exit(status)] *)
| terminated (e : exn)         (* an exception nobody catches *)
| undefined (why : string)     (* behaviour the language leaves undefined *)
| running.                     (* the worker is still in its loop *)

Record run := {
  ended : ending;
  final : world;
  watcher : option DirWatcher.t    (* the [DirWatcher] object, once constructed *)
}.

Definition EXIT_SUCCESS : Z := 0.
Definition EXIT_FAILURE : Z := 1.

Definition usage : string :=
  "Few arguments | 1. Source folder path | 2. Replica folder path | 3. Synchronization interval | 4. Log file path and log filename".

Definition is_digit (c : ascii) : bool :=
  let n := Z.of_nat (nat_of_ascii c) in (48 <=? n) && (n <=? 57).

Definition is_space (c : ascii) : bool :=
  let n := Z.of_nat (nat_of_ascii c) in (n =? 32) || ((9 <=? n) && (n <=? 13)).

Fixpoint digits (acc : Z) (s : string) : Z :=
  match s with
  | String c s' =>
      if is_digit c then digits (10 * acc + (Z.of_nat (nat_of_ascii c) - 48)) s'
      else acc
  | EmptyString => acc
  end.

Fixpoint skip_spaces (s : string) : string :=
  match s with
  | String c s' => if is_space c then skip_spaces s' else s
  | EmptyString => s
  end.

(** [strtol(s, NULL, 10)]: a value that does not fit a [long] is
    replaced by the nearest one that does. *)
Definition strtol (s : string) : Z :=
  let value :=
    match skip_spaces s with
    | String "-"%char s' => - digits 0 s'
    | String "+"%char s' => digits 0 s'
    | s' => digits 0 s'
    end in
  Z.max (- 2 ^ 63) (Z.min (2 ^ 63 - 1) value).

(** [std::atoi]: the [long] that [strtol] returns, converted to [int]. *)
Definition atoi (s : string) : Z := Str.to_int (strtol s).

(** [new std::ofstream(filename)]: the file is created or truncated; when
    it cannot be opened ([None]) the stream is merely left in a failed
    state and is not open. *)
Definition open_ofstream (filename : string) (w : world) : option world :=
  let p := Path.components filename in
  match FS.lookup p (files w) with
  | None | Some (FS.File _ _) =>
      match FS.put (clock w) p (FS.File "" (clock w)) (files w) with
      | Some root' => Some (set_files root' w)
      | None => None
      end
  | Some _ => None
  end.

(** The [Logger] object that [main] constructs: [outf] is open on
    [filename] if the file could be opened. The call [outf->open(filename)]
    in the constructor finds the stream open already, or fails as the
    first attempt did: it changes neither the file nor whether the stream
    is open. *)
Definition logger (filename : string) (opened : bool) : Logger.t :=
  {| Logger.outf := if opened then Some filename else None;
     Logger.debug := false; Logger.show_source := false;
     Logger.colored := false |}.

Definition set_logger (l : option Logger.t) (w : world) : world :=
  {| files := files w; clock := clock w; logger_this_ptr := l;
     log_lines := log_lines w; cout := cout w |}.

Definition stopped (e : ending) (w : world) : run :=
  {| ended := e; final := w; watcher := None |}.

(** [main(argc, argv)] with [argc = length argv]. The first statement
    constructs the logger from [argv[4]]; the argument count is tested
    after it. A worker that leaves its loop was stopped by the signal
    handler, which ends the process with [exit(EXIT_SUCCESS)]. *)
Definition main (fuel : nat) (env : DirWatcher.surroundings)
  (argv : list string) (w : world) : run :=
  match argv_at argv 4 with
  | OutOfBounds => stopped (undefined "argv[4] is read past the end of argv") w
  | Null =>
      (* outf is initialised with nullptr *)
      match logger_this_ptr w with
      | Some _ =>
          stopped (terminated (runtime_error "Only one instance of Logger can be created")) w
      | None =>
          stopped (undefined "outf->open(filename) is called on a null outf")
                  (set_logger (Some (logger "" false)) w)
      end
  | Arg filename =>
      let opened := open_ofstream filename w in
      let w := match opened with Some w' => w' | None => w end in
      match logger_this_ptr w with
      | Some _ =>
          stopped (terminated (runtime_error "Only one instance of Logger can be created")) w
      | None =>
          let w := set_logger
                     (Some (logger filename
                              match opened with Some _ => true | None => false end))
                     w in
          if negb (Z.of_nat (List.length argv) =? 5)
          then stopped (exited EXIT_FAILURE) (add_cout usage w)
          else
            let this := DirWatcher.make (nth 1 argv "") (nth 2 argv "")
                          (Str.to_size_t (atoi (nth 3 argv "")))
                          (nth 4 argv "") in
            match DirWatcher.run_internal fuel env DirWatcherCallback.cb this w with
            | Return (Some this') w' =>
                {| ended := exited EXIT_SUCCESS; final := w'; watcher := Some this' |}
            | Return None w' =>
                {| ended := running; final := w'; watcher := Some this |}
            | Raise e w' =>
                {| ended := terminated e; final := w'; watcher := Some this |}
            end
      end
  end.

End Main.

(* ================================================================== *)
(** * Notions of the specification *)

(** The replica root joined with the final component of the source path. *)
Definition replica_location (directory_path p : string) : string :=
  directory_path ++ "/" ++ Path.final_component p.

(** The file operation by which [report_action] applies an event (lines
    217, 222, 229 and 234). *)
Definition file_operation (a : DirWatcherCallbackBase.action_t)
  (f : DirWatcherCallbackBase.file_t) (p d : string) : M unit :=
  let target := replica_location d p in
  match a, f with
  | DirWatcherCallbackBase.CREATE, DirWatcherCallbackBase.REGULAR
  | DirWatcherCallbackBase.MODIFY, DirWatcherCallbackBase.REGULAR =>
      fs_copy_file p target
  | DirWatcherCallbackBase.DELETE, DirWatcherCallbackBase.REGULAR =>
      fs_remove target
  | DirWatcherCallbackBase.CREATE, DirWatcherCallbackBase.DIRECTORY
  | DirWatcherCallbackBase.MODIFY, DirWatcherCallbackBase.DIRECTORY =>
      fs_copy p target
  | DirWatcherCallbackBase.DELETE, DirWatcherCallbackBase.DIRECTORY =>
      fs_remove_all target
  | _, _ => ret tt
  end.

(** The line [report_action] writes to the log for an event (lines 216,
    221, 230 and 235). *)
Definition log_line (a : DirWatcherCallbackBase.action_t)
  (f : DirWatcherCallbackBase.file_t) (p : string) : M unit :=
  let name := Path.final_component p in
  match a, f with
  | DirWatcherCallbackBase.CREATE, DirWatcherCallbackBase.REGULAR
  | DirWatcherCallbackBase.MODIFY, DirWatcherCallbackBase.REGULAR =>
      logf Logger.INFO __FILE__ 216
        ("Regular file " ++ name ++ " has been created in Replica | " ++ p)
  | DirWatcherCallbackBase.DELETE, DirWatcherCallbackBase.REGULAR =>
      logf Logger.INFO __FILE__ 221
        ("Regular file " ++ name ++ " has been deleted from Replica | " ++ p)
  | DirWatcherCallbackBase.CREATE, DirWatcherCallbackBase.DIRECTORY
  | DirWatcherCallbackBase.MODIFY, DirWatcherCallbackBase.DIRECTORY =>
      logf Logger.INFO __FILE__ 230
        ("Directory " ++ name ++ " has been created in Replica | " ++ p)
  | DirWatcherCallbackBase.DELETE, DirWatcherCallbackBase.DIRECTORY =>
      logf Logger.INFO __FILE__ 235
        ("Directory " ++ name ++ " has been deleted from Replica | " ++ p)
  | _, _ => ret tt
  end.

(** The world in which [report_action], called in [w], runs the file
    operation of an event: the log line of a regular file is written
    before the operation, that of a directory after it. *)
Definition world_at_operation (a : DirWatcherCallbackBase.action_t)
  (f : DirWatcherCallbackBase.file_t) (p : string) (w : world) : world :=
  match f with
  | DirWatcherCallbackBase.REGULAR => world_of (log_line a f p w)
  | _ => w
  end.

(** The Snapshot is included in the Shadow Set: every path the Snapshot
    holds is found in the Shadow Set. *)
Definition snapshot_in_shadow (this : DirWatcher.t) : Prop :=
  forall x : directory_entry,
    EntrySet.contains (DirWatcher.source_content this) x = true ->
    EntrySet.contains (DirWatcher.replica_content this) x = true.

(** No two elements of a set stand for the same path. *)
Definition one_per_path (s : EntrySet.t) : Prop :=
  forall x y : directory_entry,
    In x s -> In y s -> same_entry x y = true -> x = y.

(** The kind under which the watcher reports an entry, if it reports it. *)
Definition reported_kind (e : directory_entry)
  : option DirWatcherCallbackBase.file_t :=
  if is_regular_file e then Some DirWatcherCallbackBase.REGULAR
  else if is_directory e then Some DirWatcherCallbackBase.DIRECTORY
  else None.

Definition event (a : DirWatcherCallbackBase.action_t)
  (f : DirWatcherCallbackBase.file_t) (e : directory_entry)
  (this : DirWatcher.t) : DirWatcher.change_event :=
  {| DirWatcher.action := a; DirWatcher.file := f;
     DirWatcher.source_path := path e;
     DirWatcher.replica_root := DirWatcher.replica this |}.

Definition events_of (a : DirWatcherCallbackBase.action_t)
  (k : option DirWatcherCallbackBase.file_t) (e : directory_entry)
  (this : DirWatcher.t) : list DirWatcher.change_event :=
  match k with Some f => [event a f e this] | None => [] end.

(** The watcher as a transition system: one iteration of one of the
    three loops of a poll cycle, the clearing of [garbage], or a lapse of
    time (a sleep, or the seconds a poll cycle takes). *)
Inductive transition (callback : DirWatcherCallbackBase.vtable)
  (env : DirWatcher.surroundings)
  : DirWatcher.t * world -> DirWatcher.t * world -> Prop :=
| walk_iteration entry this w this' w' :
    DirWatcher.classify callback entry this w = Return this' w' ->
    transition callback env (this, w) (this', w')
| scan_iteration entry this w this' w' :
    DirWatcher.detect_delete callback entry this w = Return this' w' ->
    transition callback env (this, w) (this', w')
| erase_iteration elem this w :
    transition callback env (this, w)
      (DirWatcher.with_sets
         (EntrySet.erase (DirWatcher.source_content this) elem)
         (DirWatcher.replica_content this) this, w)
| garbage_clear this w :
    transition callback env (this, w) (DirWatcher.with_garbage [] this, w)
| sleep seconds this w this' w' :
    DirWatcher.sleep_for env seconds this w = Return this' w' ->
    transition callback env (this, w) (this', w').

(** The states a watcher goes through, from its construction on. *)
Inductive reachable (callback : DirWatcherCallbackBase.vtable)
  (env : DirWatcher.surroundings) : DirWatcher.t -> world -> Prop :=
| at_construction source_ replica_ interval_ logfile_ w :
    reachable callback env
      (DirWatcher.make source_ replica_ interval_ logfile_) w
| after_transition this w this' w' :
    reachable callback env this w ->
    transition callback env (this, w) (this', w') ->
    reachable callback env this' w'.

(** A computation that writes nothing to the log but records of
    informational severity, whether it returns or throws. *)
Definition logs_info_only {A : Type} (m : M A) : Prop :=
  forall w : world,
    exists lines : list Logger.record,
      log_lines (world_of (m w)) = (log_lines w ++ lines)%list /\
      Forall (fun r => Logger.severity r = Logger.INFO) lines.

(** A name as a directory holds it: not empty, no separator in it. *)
Definition plain (n : string) : bool :=
  negb (Str.is_empty n) &&
  match Str.last_index "/"%char n with None => true | Some _ => false end.

Definition is_file (x : FS.node) : bool :=
  match x with FS.File _ _ => true | _ => false end.

(** A directory that holds regular files only, under plain and distinct
    names. *)
Definition flat (ch : list (string * FS.node)) : bool :=
  forallb (fun kx => plain (fst kx) && is_file (snd kx)) ch
  && FS.distinct (FS.names ch).

(** Two directories hold the same names with the same contents below
    them; timestamps and the order of the names do not count. *)
Definition agree (a b : list (string * FS.node)) : Prop :=
  forall n : string,
    option_map FS.erase_times (FS.child n a)
    = option_map FS.erase_times (FS.child n b).

(** The two paths part ways at some component: neither directory lies
    inside the other. *)
Fixpoint apart (a b : list string) : bool :=
  match a, b with
  | x :: a', y :: b' => if String.eqb x y then apart a' b' else true
  | _, _ => false
  end.

(** The entry the directory iterator yields for the child [kx] of the
    directory with path [p]. *)
Definition entry_of (p : string) (kx : string * FS.node) : directory_entry :=
  {| path := Path.append p (fst kx); cached_type := FS.type_of (snd kx) |}.

(** Every node of a directory is a regular file. *)
Definition files_only (ch : list (string * FS.node)) : Prop :=
  forall n x, FS.child n ch = Some x -> is_file x = true.

(** The path of the logger's file, while a logger exists and its stream
    is open. *)
Definition log_file (w : world) : option (list string) :=
  match logger_this_ptr w with
  | Some this_ptr => option_map Path.components (Logger.outf this_ptr)
  | None => None
  end.

(** The path [b] is not the log file and lies neither above nor below
    it. *)
Definition off_log (w : world) (b : list string) : bool :=
  match log_file w with
  | Some p => apart b p
  | None => true
  end.

(** The stream of the logger [lg] is not open on a path at, above or
    below [b]. *)
Definition writes_elsewhere (lg : Logger.t) (b : list string) : bool :=
  match Logger.outf lg with
  | Some f => apart b (Path.components f)
  | None => true
  end.

(** In the world [w] the source directory [src] holds [new], the replica
    directory [rep] holds [rch], and the logger [lg] exists. *)
Definition shape (src rep : string) (new : list (string * FS.node)) (sm : Z)
  (lg : Logger.t) (w : world) (rch : list (string * FS.node)) : Prop :=
  FS.lookup (Path.components src) (files w) = Some (FS.Dir new sm) /\
  (exists rm, FS.lookup (Path.components rep) (files w) = Some (FS.Dir rch rm)) /\
  logger_this_ptr w = Some lg.

(** The Snapshot is what a poll leaves behind for a flat source directory
    [old]: one entry for each file of [old] and no other, of regular
    type. *)
Definition snapshot_of (this : DirWatcher.t) (old : list (string * FS.node))
  : Prop :=
  (forall e, In e (DirWatcher.source_content this) ->
     exists n c t,
       path e = Path.append (DirWatcher.source this) n /\
       plain n = true /\
       Str.size (path e) < 2 ^ 31 /\
       FS.child n old = Some (FS.File c t) /\
       cached_type e = FS.regular) /\
  (forall n x, FS.child n old = Some x ->
     exists e, In e (DirWatcher.source_content this) /\
               path e = Path.append (DirWatcher.source this) n).

(** Between [old] and [new] files were created and removed, and no file
    that is in both was given another content. *)
Definition created_or_removed (old new : list (string * FS.node)) : Prop :=
  forall n c t c1 t1,
    FS.child n new = Some (FS.File c t) ->
    FS.child n old = Some (FS.File c1 t1) ->
    c = c1.

(** The state of a poll of a flat source directory [new] after the walk
    has handled the children [done]: the replica directory [rch] carries
    the content of each of them, and is as the poll found it ([rch0])
    elsewhere; the Snapshot has grown by entries for children handled. *)
Definition walk_invariant (src rep : string) (new : list (string * FS.node))
  (sm : Z) (lg : Logger.t) (this0 : DirWatcher.t)
  (rch0 done : list (string * FS.node))
  (this : DirWatcher.t) (w : world) (rch : list (string * FS.node)) : Prop :=
  shape src rep new sm lg w rch /\
  files_only rch /\
  (DirWatcher.source this = src /\ DirWatcher.replica this = rep) /\
  DirWatcher.garbage this = [] /\
  snapshot_in_shadow this /\
  (forall n, In n (FS.names done) ->
     option_map FS.erase_times (FS.child n rch)
     = option_map FS.erase_times (FS.child n new)) /\
  (forall n, ~ In n (FS.names done) -> FS.child n rch = FS.child n rch0) /\
  (forall e, In e (DirWatcher.source_content this0) ->
             In e (DirWatcher.source_content this)) /\
  (forall e, In e (DirWatcher.source_content this) ->
     In e (DirWatcher.source_content this0) \/
     exists n c t, In n (FS.names done) /\ path e = Path.append src n /\
                   FS.child n new = Some (FS.File c t) /\
                   cached_type e = FS.regular) /\
  (forall n, In n (FS.names done) ->
     exists e, In e (DirWatcher.source_content this) /\
               path e = Path.append src n).

(** The state of the poll after the delete scan has handled the entries
    [done] of the Snapshot: names that the source holds are untouched in
    the replica directory [rch], and the names of handled entries that the
    source does not hold are gone from it. *)
Definition scan_invariant (src rep : string) (new : list (string * FS.node))
  (sm : Z) (lg : Logger.t) (walked : DirWatcher.t)
  (rch1 : list (string * FS.node)) (done : list directory_entry)
  (this : DirWatcher.t) (w : world) (rch : list (string * FS.node)) : Prop :=
  shape src rep new sm lg w rch /\
  files_only rch /\
  (DirWatcher.source this = src /\ DirWatcher.replica this = rep) /\
  DirWatcher.source_content this = DirWatcher.source_content walked /\
  DirWatcher.replica_content this = DirWatcher.replica_content walked /\
  (forall m x, FS.child m new = Some x -> FS.child m rch = FS.child m rch1) /\
  (forall m, FS.child m rch = FS.child m rch1 \/ FS.child m rch = None) /\
  (forall e m, In e done -> path e = Path.append src m ->
               FS.child m new = None ->
               FS.child m rch = None /\ In e (DirWatcher.garbage this)) /\
  (forall g, In g (DirWatcher.garbage this) ->
     In g (DirWatcher.garbage walked) \/
     exists m, path g = Path.append src m /\ plain m = true /\
               FS.child m new = None).

(* ================================================================== *)
(** * Concrete processes used to exercise the definitions *)

Module Examples.

(** The logger as [main] constructs it, writing to [log.txt]. *)
Definition the_logger : Logger.t := Main.logger "log.txt" true.

Definition world_with (root : FS.node) : world :=
  {| files := root; clock := 10; logger_this_ptr := Some the_logger;
     log_lines := []; cout := [] |}.

(** Nobody touches the tree or asks the worker to stop. *)
Definition quiet : DirWatcher.surroundings :=
  {| DirWatcher.mutate := fun _ n => n; DirWatcher.interrupt := fun _ => false;
     DirWatcher.busy := fun _ => 0%nat |}.

(** [Source] holds one file, [Replica] is empty; the log file is open and
    empty. *)
Definition one_file : FS.node :=
  FS.Dir [("Source", FS.Dir [("a.txt", FS.File "hello" 3)] 3);
          ("Replica", FS.Dir [] 0);
          ("log.txt", FS.File "" 10)] 0.

(** [Source] holds a named pipe. *)
Definition one_pipe : FS.node :=
  FS.Dir [("Source", FS.Dir [("pipe", FS.Other 3)] 3);
          ("Replica", FS.Dir [] 0);
          ("log.txt", FS.File "" 10)] 0.

Definition pipe_entry : directory_entry :=
  {| path := "Source/pipe"; cached_type := FS.other |}.

Definition a_txt : directory_entry :=
  {| path := "Source/a.txt"; cached_type := FS.regular |}.

Definition fresh : DirWatcher.t := DirWatcher.make "Source" "Replica" 5 "log.txt".

(** A watcher that has seen [a.txt]. *)
Definition knows_a_txt : DirWatcher.t :=
  DirWatcher.with_sets [a_txt] [a_txt] fresh.

(** What the outside does to the tree while the worker sleeps. *)
Definition rewrite_file (now : Z) (p : list string) (content : string)
  (n : FS.node) : FS.node :=
  match FS.put now p (FS.File content now) n with Some n' => n' | None => n end.

Definition unlink (now : Z) (p : list string) (n : FS.node) : FS.node :=
  match FS.del now p n with Some n' => n' | None => n end.

(** [a.txt] is rewritten once, at second 16; the worker is asked to stop
    at second 24. *)
Definition one_edit : DirWatcher.surroundings :=
  {| DirWatcher.mutate := fun t n =>
       if t =? 16 then rewrite_file t ["Source"; "a.txt"] "HELLO" n else n;
     DirWatcher.interrupt := fun t => t =? 24;
     DirWatcher.busy := fun _ => 0%nat |}.

(** [Source] holds two files and there is no [Replica] directory. *)
Definition no_replica : FS.node :=
  FS.Dir [("Source", FS.Dir [("a.txt", FS.File "hello" 3);
                             ("b.txt", FS.File "world" 4)] 4);
          ("log.txt", FS.File "" 10)] 0.

Definition b_txt : directory_entry :=
  {| path := "Source/b.txt"; cached_type := FS.regular |}.


(** [a.txt] is gone from [Source]; in [Replica] a directory that is not
    empty has taken the place of its copy. *)
Definition copy_replaced : FS.node :=
  FS.Dir [("Source", FS.Dir [] 16);
          ("Replica", FS.Dir [("a.txt", FS.Dir [("kept", FS.File "x" 12)] 12)] 12);
          ("log.txt", FS.File "" 10)] 0.

(** A process that has not run [main] yet. *)
Definition at_start (root : FS.node) : world :=
  {| files := root; clock := 10; logger_this_ptr := None;
     log_lines := []; cout := [] |}.

(** The interrupt arrives at second 11, one second into the first sleep. *)
Definition early_interrupt : DirWatcher.surroundings :=
  {| DirWatcher.mutate := fun _ n => n;
     DirWatcher.interrupt := fun t => t =? 11;
     DirWatcher.busy := fun _ => 0%nat |}.

(** [Source] and [Replica] are both empty. *)
Definition both_empty : FS.node :=
  FS.Dir [("Source", FS.Dir [] 0); ("Replica", FS.Dir [] 0);
          ("log.txt", FS.File "" 10)] 0.

(** Between the first and the second poll a directory [sub] is made in
    [Source] and a file is written into it; the interrupt arrives while
    the worker sleeps for the third time. *)
Definition nested_file : DirWatcher.surroundings :=
  {| DirWatcher.mutate := fun t n =>
       if t =? 16 then
         match FS.put t ["Source"; "sub"] (FS.Dir [] t) n with
         | Some n' => n' | None => n end
       else if t =? 17 then rewrite_file t ["Source"; "sub"; "a.txt"] "hello" n
       else n;
     DirWatcher.interrupt := fun t => t =? 19;
     DirWatcher.busy := fun _ => 0%nat |}.

(** [Source] holds a directory with a file in it. *)
Definition nested : FS.node :=
  FS.Dir [("Source", FS.Dir [("sub", FS.Dir [("a.txt", FS.File "hello" 3)] 3)] 3);
          ("Replica", FS.Dir [] 0);
          ("log.txt", FS.File "" 10)] 0.

(** The source as the first poll saw it, the replica that poll produced,
    what the watcher remembers of it, and the source as the second poll
    finds it: [b.txt] new, [c.txt] gone. *)
Definition old_source : list (string * FS.node) :=
  [("a.txt", FS.File "hello" 3); ("c.txt", FS.File "bye" 2)].

Definition new_source : list (string * FS.node) :=
  [("a.txt", FS.File "hello" 3); ("b.txt", FS.File "world" 17)].

Definition old_replica : list (string * FS.node) :=
  [("a.txt", FS.File "hello" 15); ("c.txt", FS.File "bye" 15)].

Definition c_txt : directory_entry :=
  {| path := "Source/c.txt"; cached_type := FS.regular |}.

Definition after_first_poll : DirWatcher.t :=
  DirWatcher.with_sets [a_txt; c_txt] [a_txt; c_txt] fresh.

Definition before_second_poll : world :=
  {| files := FS.Dir [("Source", FS.Dir new_source 17);
                      ("Replica", FS.Dir old_replica 15);
                      ("log.txt", FS.File "" 10)] 0;
     clock := 20; logger_this_ptr := Some the_logger;
     log_lines := []; cout := [] |}.

End Examples.

(* ================================================================== *)
(** * Further notions: frames, order and configuration *)

(** The computation [m] leaves the observation [f] of the world as it
    was, whether it returns or throws. *)
Definition keeps {A X : Type} (f : world -> X) (m : M A) : Prop :=
  forall w : world, f (world_of (m w)) = f w.

(** What the path [b] denotes in the world [w]. *)
Definition denotes (b : list string) (w : world) : option FS.node :=
  FS.lookup b (files w).

(** The kind of the node that the path [b] denotes in the world [w]. *)
Definition kind_at (b : list string) (w : world) : option FS.kind :=
  option_map FS.kind_of (denotes b w).

(** The logger of the process and, for a path [b] off its log file, what
    [b] denotes. *)
Definition off_log_view (b : list string) (w : world)
  : option Logger.t * option FS.node :=
  (logger_this_ptr w, if off_log w b then denotes b w else None).

(** The order of [std::set<fs::directory_entry>]: [operator<] on the
    paths. *)
Definition path_lt (x y : directory_entry) : bool :=
  match Path.compare (path x) (path y) with Lt => true | _ => false end.

(** The entries are in strictly ascending order of their paths. *)
Fixpoint ascending (s : EntrySet.t) : bool :=
  match s with
  | [] => true
  | x :: s' => forallb (path_lt x) s' && ascending s'
  end.

(** No two entries of the list stand for the same path. *)
Fixpoint distinct_paths (l : list directory_entry) : bool :=
  match l with
  | [] => true
  | x :: l' => negb (existsb (same_entry x) l') && distinct_paths l'
  end.

(** The fields of a watcher that its constructor sets from the command
    line. *)
Definition same_config (a b : DirWatcher.t) : Prop :=
  DirWatcher.source a = DirWatcher.source b /\
  DirWatcher.replica a = DirWatcher.replica b /\
  DirWatcher.logfile a = DirWatcher.logfile b /\
  DirWatcher.synch_interval a = DirWatcher.synch_interval b.

(** The create events of a walk that meets [entries], none of which the
    Snapshot holds, in the order of the walk. *)
Definition create_events (this : DirWatcher.t) (entries : list directory_entry)
  : list DirWatcher.change_event :=
  flat_map (fun e => events_of DirWatcherCallbackBase.CREATE (reported_kind e) e this)
           entries.

Module Scenes.

(** The command line of a run with a negative interval. *)
Definition negative_interval : list string :=
  ["DirSynchronizer"; "Source"; "Replica"; "-1"; "log.txt"].

(** The command line of a run with an interval that is not a number. *)
Definition wordy_interval : list string :=
  ["DirSynchronizer"; "Source"; "Replica"; "soon"; "log.txt"].

(** An interval that does not fit an [int]. *)
Definition long_interval : list string :=
  ["DirSynchronizer"; "Source"; "Replica"; "99999999999"; "log.txt"].

(** One argument too many; [log.txt] exists and holds earlier records. *)
Definition one_too_many : list string :=
  ["DirSynchronizer"; "Source"; "Replica"; "5"; "log.txt"; "extra"].

Definition with_old_log : FS.node :=
  FS.Dir [("Source", FS.Dir [("a.txt", FS.File "hello" 3)] 3);
          ("Replica", FS.Dir [] 0);
          ("log.txt", FS.File "records of an earlier run" 1)] 0.

(** [Replica] holds a copy of [a.txt]; [Source] does not hold it any
    more. *)
Definition left_over : FS.node :=
  FS.Dir [("Source", FS.Dir [] 16);
          ("Replica", FS.Dir [("a.txt", FS.File "hello" 15)] 15);
          ("log.txt", FS.File "" 10)] 0.

(** There is no [Source] directory. *)
Definition no_source : FS.node := FS.Dir [("Replica", FS.Dir [] 0)] 0.

Definition sub_dir : directory_entry :=
  {| path := "Source/sub"; cached_type := FS.directory |}.

End Scenes.

(* ================================================================== *)
(** * Facts about strings and [get_filename] *)

Section StringFacts.

Variable c : ascii.

Lemma last_index_none_split (s : string) :
  Str.last_index c s = None -> Str.split_on c s = [s].
Proof.
  induction s as [|a s IH]; simpl; [reflexivity|].
  destruct (Str.last_index c s) as [i|]; [discriminate|].
  destruct (Ascii.eqb a c); [discriminate|].
  intros _. rewrite IH by reflexivity. reflexivity.
Qed.

Lemma split_on_cons (s : string) :
  exists x xs, Str.split_on c s = x :: xs.
Proof.
  induction s as [|a s [x [xs E]]]; simpl.
  - eauto.
  - destruct (Ascii.eqb a c); [eauto|]. rewrite E. eauto.
Qed.

Lemma last_index_some_split (s : string) (i : nat) :
  Str.last_index c s = Some i ->
  (i < String.length s)%nat /\
  (exists x y ys, Str.split_on c s = x :: y :: ys) /\
  last (Str.split_on c s) EmptyString
  = String.substring (S i) (String.length s - S i) s.
Proof.
  revert i. induction s as [|a s IH]; simpl; [discriminate|].
  intros i. destruct (Str.last_index c s) as [j|] eqn:E.
  - intros [= <-]. destruct (IH j eq_refl) as (Hlt & (x & y & ys & Hs) & Hlast).
    split; [lia|]. rewrite Hs in *.
    destruct (Ascii.eqb a c).
    + split; [eauto|]. exact Hlast.
    + split; [eauto|]. exact Hlast.
  - destruct (Ascii.eqb a c) eqn:Ea; [|discriminate].
    intros [= <-]. rewrite (last_index_none_split s E).
    split; [lia|]. split; [eauto|]. simpl.
    rewrite Nat.sub_0_r. clear.
    induction s as [|b s IH]; simpl; [reflexivity|]. now rewrite <- IH.
Qed.

End StringFacts.

Lemma substring_all (s : string) :
  String.substring 0 (String.length s) s = s.
Proof. induction s as [|a s IH]; simpl; [reflexivity|]. now rewrite IH. Qed.

Lemma to_int_npos : Str.to_int Str.npos = -1.
Proof. reflexivity. Qed.

Lemma to_int_small (z : Z) : 0 <= z < 2 ^ 31 -> Str.to_int z = z.
Proof.
  intros H. unfold Str.to_int.
  rewrite Z.mod_small by lia. lia.
Qed.

(** [get_filename] returns the final component of any path shorter than
    [2^31] characters, and never throws on such a path. *)
Lemma get_filename_final_component (p : string) (w : world) :
  Str.size p < 2 ^ 31 ->
  DirWatcherCallback.get_filename p w = Return (Path.final_component p) w.
Proof.
  intros Hlen. unfold DirWatcherCallback.get_filename, Str.rfind, Path.final_component.
  destruct (Str.last_index "/"%char p) as [i|] eqn:E.
  - destruct (last_index_some_split _ p i E) as (Hlt & _ & ->).
    unfold Str.size in *.
    rewrite to_int_small by lia.
    unfold Str.to_size_t. rewrite Z.mod_small by lia.
    unfold Str.substr, Str.size.
    destruct (Z.ltb_spec (Z.of_nat (String.length p)) (Z.of_nat i + 1)); [lia|].
    unfold ret. do 2 f_equal.
    + lia.
    + lia.
  - rewrite to_int_npos, (last_index_none_split _ p E).
    change (Str.to_size_t (-1 + 1)) with 0.
    unfold Str.substr, Str.size, ret. cbn [last Z.to_nat].
    destruct (Z.ltb_spec (Z.of_nat (String.length p)) 0); [lia|].
    rewrite Z.sub_0_r, Z.min_id, Nat2Z.id, substring_all. reflexivity.
Qed.

(* ================================================================== *)
(** * Facts about the file system *)

Module FSFacts.

Import FS.

(** Induction on a tree, with the hypothesis for every child. *)
Lemma node_induction (P : node -> Prop) :
  (forall c m, P (File c m)) ->
  (forall m, P (Other m)) ->
  (forall ch m, Forall (fun kx => P (snd kx)) ch -> P (Dir ch m)) ->
  forall n, P n.
Proof.
  intros HF HO HD. fix IH 1. intros [c m|ch m|m].
  - apply HF.
  - apply HD. induction ch as [|[k x] ch IHch]; constructor.
    + apply IH.
    + exact IHch.
  - apply HO.
Qed.

Lemma child_set_child (name : string) (n : node) (ch : list (string * node)) :
  child name (set_child name n ch) = Some n.
Proof.
  induction ch as [|[k x] ch IH]; simpl.
  - now rewrite String.eqb_refl.
  - destruct (String.eqb k name) eqn:E; simpl; rewrite E; auto.
Qed.

Lemma child_set_child_other (name other : string) (n : node)
  (ch : list (string * node)) :
  String.eqb name other = false ->
  child other (set_child name n ch) = child other ch.
Proof.
  intros Hne. induction ch as [|[k x] ch IH]; simpl.
  - now rewrite Hne.
  - destruct (String.eqb k name) eqn:E; simpl.
    + apply String.eqb_eq in E. subst k. now rewrite Hne.
    + destruct (String.eqb k other); auto.
Qed.

(** Children lists that agree up to timestamps bind the same names to
    nodes that agree up to timestamps. *)
Lemma child_erased (name : string) (a b : list (string * node)) :
  erase_children a = erase_children b ->
  option_map erase_times (child name a) = option_map erase_times (child name b).
Proof.
  revert b. induction a as [|[k x] a IH]; intros [|[k' y] b]; simpl;
    try discriminate; [reflexivity|].
  intros [= -> Hx Hab]. destruct (String.eqb k' name); simpl; [now rewrite Hx|].
  now apply IH.
Qed.

(** Replacing a child by one that agrees with it up to timestamps. *)
Lemma set_child_erased (name : string) (x y : node) (ch : list (string * node)) :
  child name ch = Some x ->
  erase_times y = erase_times x ->
  erase_children (set_child name y ch) = erase_children ch.
Proof.
  intros Hc Hxy. induction ch as [|[k z] ch IH]; simpl in *; [discriminate|].
  destruct (String.eqb k name); simpl.
  - injection Hc as ->. now rewrite Hxy.
  - now rewrite IH.
Qed.

Lemma lookup_put (now : Z) (p : list string) (new root root' : node) :
  put now p new root = Some root' -> lookup p root' = Some new.
Proof.
  revert root root'. induction p as [|c p IH]; intros root root'; simpl.
  - now intros [= <-].
  - destruct root as [|ch m|]; try discriminate.
    destruct (child c ch) as [n'|] eqn:E.
    + destruct (put now p new n') as [n''|] eqn:E'; [|discriminate].
      intros [= <-]. simpl. rewrite child_set_child. eapply IH; eassumption.
    + destruct p; [|discriminate]. intros [= <-]. simpl.
      now rewrite child_set_child.
Qed.

(** Writing over something that exists does not fail, and leaves the tree
    as it was, up to timestamps, if what is written agrees with what was
    there. *)
Lemma put_over (now : Z) (p : list string) (new cur root : node) :
  lookup p root = Some cur ->
  exists root',
    put now p new root = Some root' /\
    (erase_times new = erase_times cur ->
     erase_times root' = erase_times root).
Proof.
  revert root. induction p as [|c p IH]; intros root; simpl.
  - intros [= ->]. eauto.
  - destruct root as [|ch m|]; try discriminate.
    destruct (child c ch) as [n'|] eqn:E; [|discriminate].
    intros Hl. destruct (IH n' Hl) as (n'' & -> & Herase).
    eexists. split; [reflexivity|]. intros Hnew. simpl. f_equal.
    apply (set_child_erased c n' n'' ch E). auto.
Qed.

Lemma well_formed_child (name : string) (x : node) (ch : list (string * node)) :
  forallb (fun kx => well_formed (snd kx)) ch = true ->
  child name ch = Some x -> well_formed x = true.
Proof.
  induction ch as [|[k y] ch IH]; simpl; [discriminate|].
  intros H. apply andb_prop in H. destruct H as [Hy Hch].
  destruct (String.eqb k name); [now intros [= <-]|auto].
Qed.

Lemma well_formed_lookup (p : list string) (root f : node) :
  well_formed root = true -> lookup p root = Some f -> well_formed f = true.
Proof.
  revert root. induction p as [|c p IH]; intros root Hwf; simpl.
  - now intros [= <-].
  - destruct root as [|ch m|]; try discriminate.
    destruct (child c ch) as [n'|] eqn:E; [|discriminate].
    apply IH. simpl in Hwf. apply andb_prop in Hwf.
    eapply well_formed_child; [apply Hwf|exact E].
Qed.

Section CopyTwice.

Variables t1 t2 : Z.

(** Copying entries other than [name] leaves the binding of [name]. *)
Lemma copy_children_other (name : string) (fch tch ch : list (string * node)) :
  existsb (String.eqb name) (names fch) = false ->
  copy_children (copy_node t1) fch tch = Some ch ->
  child name ch = child name tch.
Proof.
  revert tch. induction fch as [|[nm c] fch IH]; intros tch; simpl.
  - now intros _ [= <-].
  - intros H. apply orb_false_elim in H. destruct H as [Hne Hrest].
    destruct (copy_node t1 nm c (child nm tch)) as [r|]; [|discriminate].
    intros Hgo. rewrite (IH _ Hrest Hgo).
    apply child_set_child_other. now rewrite String.eqb_sym.
Qed.

(** The loop over the source entries, run again on a target that agrees
    up to timestamps with the result of the first run. *)
Lemma copy_children_again (fch : list (string * node)) :
  Forall (fun kx =>
            forall name t r r0,
              copy_node t1 name (snd kx) t = Some r ->
              erase_times r0 = erase_times r ->
              exists r', copy_node t2 name (snd kx) (Some r0) = Some r' /\
                         erase_times r' = erase_times r) fch ->
  distinct (names fch) = true ->
  forall tch ch ch0,
    copy_children (copy_node t1) fch tch = Some ch ->
    erase_children ch0 = erase_children ch ->
    exists ch',
      copy_children (copy_node t2) fch ch0 = Some ch' /\
      erase_children ch' = erase_children ch.
Proof.
  induction fch as [|[nm c] fch IH]; intros Hall Hdist tch ch ch0; simpl.
  - intros [= <-] H0. eauto.
  - inversion Hall as [|? ? Hc Hrest]; subst. simpl in Hdist, Hc.
    apply andb_prop in Hdist. destruct Hdist as [Hnew Hdist].
    apply negb_true_iff in Hnew.
    destruct (copy_node t1 nm c (child nm tch)) as [r1|] eqn:E1; [|discriminate].
    intros Hgo H0.
    assert (Hr1 : child nm ch = Some r1).
    { rewrite (copy_children_other nm fch _ ch Hnew Hgo).
      apply child_set_child. }
    pose proof (child_erased nm ch0 ch H0) as Hch0. rewrite Hr1 in Hch0.
    destruct (child nm ch0) as [x0|] eqn:Ex0; [|discriminate].
    simpl in Hch0. injection Hch0 as Hx0.
    destruct (Hc nm (child nm tch) r1 x0 E1 Hx0) as (r1' & -> & Hr1').
    apply (IH Hrest Hdist (set_child nm r1 tch) ch); [exact Hgo|].
    rewrite <- H0. apply (set_child_erased nm x0 r1' ch0 Ex0). congruence.
Qed.

(** [fs::copy] of a well-formed source onto the result of a first copy
    of the same source succeeds and changes nothing but timestamps. *)
Lemma copy_node_again (f : node) :
  well_formed f = true ->
  forall name t r r0,
    copy_node t1 name f t = Some r ->
    erase_times r0 = erase_times r ->
    exists r', copy_node t2 name f (Some r0) = Some r' /\
               erase_times r' = erase_times r.
Proof.
  induction f as [c m|m|fch m IH] using node_induction; intros Hwf name t r r0.
  - (* a regular file *)
    simpl. destruct t as [[c' m'|ch m'|m']|].
    + intros [= <-]. destruct r0; try discriminate. intros [= ->]. eauto.
    + destruct (child name ch) as [[c' m''| |]|] eqn:E; try discriminate.
      * intros [= <-]. destruct r0 as [|ch0 m0|]; try discriminate.
        simpl. intros [= H0]. fold (erase_children ch0) in H0.
        fold (erase_children (set_child name (File c t1) ch)) in H0.
        pose proof (child_erased name _ _ H0) as Hc.
        rewrite child_set_child in Hc.
        destruct (child name ch0) as [[c0 m0'| |]|] eqn:E0; try discriminate.
        simpl in Hc. injection Hc as ->.
        eexists. split; [reflexivity|]. simpl. f_equal.
        fold (erase_children (set_child name (File c t2) ch0)).
        fold (erase_children (set_child name (File c t1) ch)).
        rewrite <- H0. now apply (set_child_erased name (File c m0')).
      * intros [= <-]. destruct r0 as [|ch0 m0|]; try discriminate.
        simpl. intros [= H0]. fold (erase_children ch0) in H0.
        fold (erase_children (set_child name (File c t1) ch)) in H0.
        pose proof (child_erased name _ _ H0) as Hc.
        rewrite child_set_child in Hc.
        destruct (child name ch0) as [[c0 m0'| |]|] eqn:E0; try discriminate.
        simpl in Hc. injection Hc as ->.
        eexists. split; [reflexivity|]. simpl. f_equal.
        fold (erase_children (set_child name (File c t2) ch0)).
        fold (erase_children (set_child name (File c t1) ch)).
        rewrite <- H0. now apply (set_child_erased name (File c m0')).
    + discriminate.
    + intros [= <-]. destruct r0; try discriminate. intros [= ->]. eauto.
  - discriminate.
  - (* a directory *)
    simpl in Hwf. apply andb_prop in Hwf. destruct Hwf as [Hdist Hwf].
    assert (Hall : Forall (fun kx =>
              forall name t r r0,
                copy_node t1 name (snd kx) t = Some r ->
                erase_times r0 = erase_times r ->
                exists r', copy_node t2 name (snd kx) (Some r0) = Some r' /\
                           erase_times r' = erase_times r) fch).
    { rewrite Forall_forall in *. intros kx Hin. apply IH; [exact Hin|].
      rewrite forallb_forall in Hwf. now apply Hwf. }
    assert (Hkey : forall tch ch m1,
              copy_children (copy_node t1) fch tch = Some ch ->
              erase_times r0 = erase_times (Dir ch m1) ->
              exists r', copy_node t2 name (Dir fch m) (Some r0) = Some r' /\
                         erase_times r' = erase_times (Dir ch m1)).
    { intros tch ch m1 Hgo H0. destruct r0 as [|ch0 m0|]; try discriminate.
      simpl in H0. injection H0 as H0.
      destruct (copy_children_again fch Hall Hdist tch ch ch0 Hgo H0)
        as (ch' & Hgo' & Hch').
      simpl. rewrite Hgo'. eexists. split; [reflexivity|].
      simpl. f_equal. exact Hch'. }
    simpl. destruct t as [[| tch m' |]|]; try discriminate.
    + destruct (copy_children (copy_node t1) fch tch) as [ch|] eqn:Hgo;
        [|discriminate].
      intros [= <-]. now apply (Hkey tch).
    + destruct (copy_children (copy_node t1) fch []) as [ch|] eqn:Hgo;
        [|discriminate].
      intros [= <-]. now apply (Hkey []).
Qed.

(** [fs::copy_file] twice. *)
Lemma copy_file_again (from to : list string) (root root1 : node) :
  copy_file t1 from to root = Some root1 ->
  lookup from root1 = lookup from root ->
  exists root2,
    copy_file t2 from to root1 = Some root2 /\
    erase_times root2 = erase_times root1.
Proof.
  unfold copy_file. destruct (Path.same from to); [discriminate|].
  destruct (lookup from root) as [[c m| |]|] eqn:Ef; try discriminate.
  simpl.
  assert (Hput : put t1 to (File c t1) root = Some root1 ->
            lookup from root1 = Some (File c m) ->
            exists root2,
              match copy_file_node t2 (lookup from root1) (lookup to root1) with
              | Some n => put t2 to n root1
              | None => None
              end = Some root2 /\ erase_times root2 = erase_times root1).
  { intros Hp Hsame. rewrite Hsame. pose proof (lookup_put _ _ _ _ _ Hp) as Hl.
    rewrite Hl. simpl.
    destruct (put_over t2 to (File c t2) (File c t1) root1 Hl) as (root2 & -> & H).
    exists root2. split; [reflexivity|]. now apply H. }
  destruct (lookup to root) as [[| |]|]; try discriminate; exact Hput.
Qed.

(** [fs::copy] twice. *)
Lemma copy_again (name : string) (from to : list string) (root root1 : node) :
  well_formed root = true ->
  copy t1 name from to root = Some root1 ->
  lookup from root1 = lookup from root ->
  exists root2,
    copy t2 name from to root1 = Some root2 /\
    erase_times root2 = erase_times root1.
Proof.
  intros Hwf. unfold copy.
  destruct (lookup from root) as [f|] eqn:Ef; [|discriminate].
  destruct (Path.same from to); [discriminate|].
  destruct (copy_node t1 name f (lookup to root)) as [r|] eqn:Ec; [|discriminate].
  intros Hp Hsame. rewrite Hsame.
  pose proof (lookup_put _ _ _ _ _ Hp) as Hl. rewrite Hl.
  destruct (copy_node_again f (well_formed_lookup from root f Hwf Ef)
              name _ r r Ec eq_refl) as (r' & -> & Hr').
  destruct (put_over t2 to r' r root1 Hl) as (root2 & -> & H).
  exists root2. split; [reflexivity|]. now apply H.
Qed.

End CopyTwice.

End FSFacts.

Module PathFacts.

Lemma split_on_app (c : ascii) (a b : string) :
  Str.split_on c (a ++ String c b) = (Str.split_on c a ++ Str.split_on c b)%list.
Proof.
  induction a as [|x a IH]; simpl.
  - now rewrite Ascii.eqb_refl.
  - destruct (Ascii.eqb x c); [now rewrite IH|].
    rewrite IH. destruct (split_on_cons c a) as (y & ys & ->). reflexivity.
Qed.

Lemma split_on_plain (n : string) :
  plain n = true -> Str.split_on "/"%char n = [n] /\ Str.is_empty n = false.
Proof.
  unfold plain. intros H. apply andb_prop in H. destruct H as [H1 H2].
  apply negb_true_iff in H1. split; [|exact H1].
  apply last_index_none_split.
  destruct (Str.last_index "/"%char n); [discriminate|reflexivity].
Qed.

Lemma components_app (a b : string) :
  Path.components (a ++ String "/"%char b)
  = (Path.components a ++ Path.components b)%list.
Proof. unfold Path.components. now rewrite split_on_app, filter_app. Qed.

Lemma components_plain (n : string) :
  plain n = true -> Path.components n = [n].
Proof.
  intros H. destruct (split_on_plain n H) as [Hs He].
  unfold Path.components. rewrite Hs. simpl. now rewrite He.
Qed.

Lemma ends_with_sep_app (p : string) :
  Str.ends_with_sep p = true -> exists q, p = q ++ "/".
Proof.
  induction p as [|x p IH]; simpl; [discriminate|].
  destruct p as [|y p].
  - intros H. apply Ascii.eqb_eq in H. subst x. now exists "".
  - intros H. destruct (IH H) as (q & Hq). exists (String x q).
    simpl. now rewrite <- Hq.
Qed.

Lemma append_assoc (a b c : string) : (a ++ b) ++ c = a ++ b ++ c.
Proof. induction a as [|x a IH]; simpl; [reflexivity|now rewrite IH]. Qed.

Lemma components_trailing_sep (q : string) :
  Path.components (q ++ "/") = Path.components q.
Proof.
  change (q ++ "/") with (q ++ String "/"%char "").
  rewrite components_app. apply app_nil_r.
Qed.

(** The components of [p / n]. *)
Lemma components_append (p n : string) :
  plain n = true ->
  Path.components (Path.append p n) = (Path.components p ++ [n])%list.
Proof.
  intros H. unfold Path.append.
  destruct (Str.is_empty p) eqn:Ep; simpl.
  - destruct p; [|discriminate]. simpl. now apply components_plain.
  - destruct (Str.ends_with_sep p) eqn:Es.
    + destruct (ends_with_sep_app p Es) as (q & ->).
      rewrite append_assoc. change ("/" ++ n) with (String "/"%char n).
      rewrite components_app, components_trailing_sep.
      now rewrite (components_plain n H).
    + change ("/" ++ n) with (String "/"%char n).
      now rewrite components_app, (components_plain n H).
Qed.

Lemma components_join (d n : string) :
  plain n = true ->
  Path.components (d ++ "/" ++ n) = (Path.components d ++ [n])%list.
Proof.
  intros H. change ("/" ++ n) with (String "/"%char n).
  now rewrite components_app, (components_plain n H).
Qed.

Lemma last_app_single {A : Type} (l : list A) (x d : A) :
  last (l ++ [x]) d = x.
Proof.
  induction l as [|y l IH]; [reflexivity|].
  simpl. destruct (l ++ [x])%list eqn:E; [now destruct l|exact IH].
Qed.

(** The final component of [p / n]. *)
Lemma final_component_append (p n : string) :
  plain n = true -> Path.final_component (Path.append p n) = n.
Proof.
  intros H. destruct (split_on_plain n H) as [Hs _].
  unfold Path.final_component, Path.append.
  destruct (Str.is_empty p) eqn:Ep; simpl.
  - destruct p; [|discriminate]. simpl. now rewrite Hs.
  - destruct (Str.ends_with_sep p) eqn:Es.
    + destruct (ends_with_sep_app p Es) as (q & ->).
      rewrite append_assoc. change ("/" ++ n) with (String "/"%char n).
      rewrite split_on_app, Hs. apply last_app_single.
    + change ("/" ++ n) with (String "/"%char n).
      rewrite split_on_app, Hs. apply last_app_single.
Qed.

Lemma append_injective (p n m : string) :
  Path.append p n = Path.append p m -> n = m.
Proof.
  unfold Path.append. destruct (_ || _).
  - induction p as [|x p IH]; simpl; [auto|]. intros [= H]. auto.
  - induction p as [|x p IH]; simpl; intros [= H]; auto.
Qed.

Lemma apart_different (a b : list string) :
  apart a b = true -> forall p q, (a ++ p)%list <> (b ++ q)%list.
Proof.
  revert b. induction a as [|x a IH]; intros [|y b]; simpl; try discriminate.
  destruct (String.eqb x y) eqn:E.
  - intros H p q [= _ Hab]. now apply (IH b H p q).
  - intros _ p q [= Hxy _]. subst y. now rewrite String.eqb_refl in E.
Qed.

End PathFacts.

Module Frame.

Import FS.

Lemma lookup_app (a b : list string) (root : node) :
  lookup (a ++ b) root
  = match lookup a root with Some d => lookup b d | None => None end.
Proof.
  revert root. induction a as [|x a IH]; intros root; simpl; [reflexivity|].
  destruct root as [|ch m|]; try reflexivity.
  destruct (child x ch); [apply IH|reflexivity].
Qed.

Lemma child_del_child (n m : string) (ch : list (string * node)) :
  child m (del_child n ch) = if String.eqb n m then None else child m ch.
Proof.
  induction ch as [|[k x] ch IH]; simpl.
  - now destruct (String.eqb n m).
  - destruct (String.eqb k n) eqn:E1.
    + apply String.eqb_eq in E1. subst k. rewrite IH.
      now destruct (String.eqb n m).
    + simpl. rewrite IH. destruct (String.eqb k m) eqn:E2; [|reflexivity].
      apply String.eqb_eq in E2. subst k. rewrite String.eqb_sym in E1.
      now rewrite E1.
Qed.

Lemma child_set_child_any (n m : string) (x : node) (ch : list (string * node)) :
  child m (set_child n x ch) = if String.eqb n m then Some x else child m ch.
Proof.
  destruct (String.eqb n m) eqn:E.
  - apply String.eqb_eq in E. subst m. apply FSFacts.child_set_child.
  - now apply FSFacts.child_set_child_other.
Qed.

(** Writing below the directory at [a] changes that directory and
    nothing that lies apart from it. *)
Lemma put_below (now : Z) (a q : list string) (new d d' root : node) :
  lookup a root = Some d ->
  put now q new d = Some d' ->
  exists root',
    put now (a ++ q) new root = Some root' /\
    lookup a root' = Some d' /\
    forall b, apart b a = true -> lookup b root' = lookup b root.
Proof.
  revert root. induction a as [|x a IH]; intros root; simpl.
  - intros [= ->] Hq. exists d'. repeat split; [assumption|].
    intros b Hb. destruct b; discriminate.
  - destruct root as [|ch m|]; try discriminate.
    destruct (child x ch) as [n'|] eqn:E; [|discriminate].
    intros Hl Hq. destruct (IH n' Hl Hq) as (n'' & -> & Hl' & Hframe).
    eexists. split; [reflexivity|]. split.
    + simpl. now rewrite FSFacts.child_set_child.
    + intros [|y b]; [discriminate|]. simpl. rewrite child_set_child_any.
      rewrite (String.eqb_sym x y).
      destruct (String.eqb y x) eqn:Exy; [|reflexivity].
      apply String.eqb_eq in Exy. subst y. rewrite E. apply Hframe.
Qed.

(** Unlinking a name of the directory at [a]. *)
Lemma del_below (now : Z) (a : list string) (n : string) (x : node)
  (ch : list (string * node)) (m : Z) (root : node) :
  lookup a root = Some (Dir ch m) ->
  child n ch = Some x ->
  exists root',
    del now (a ++ [n]) root = Some root' /\
    lookup a root' = Some (Dir (del_child n ch) now) /\
    forall b, apart b a = true -> lookup b root' = lookup b root.
Proof.
  revert root. induction a as [|y a IH]; intros root.
  - simpl. intros [= ->] Hc. rewrite Hc. eexists. repeat split.
    intros b Hb. destruct b; discriminate.
  - cbn [app lookup]. destruct root as [|rch rm|]; try discriminate.
    destruct (child y rch) as [n'|] eqn:E; [|discriminate].
    intros Hl Hc. destruct (IH n' Hl Hc) as (n'' & Hdel & Hl' & Hframe).
    cbn [del]. rewrite E.
    assert (Hcons : exists z zs, (a ++ [n])%list = z :: zs)
      by (destruct a; simpl; eauto).
    destruct Hcons as (z & zs & Hzs). rewrite Hzs in *. rewrite Hdel.
    eexists. split; [reflexivity|]. split.
    + simpl. now rewrite FSFacts.child_set_child.
    + intros [|k b]; [discriminate|]. simpl. rewrite child_set_child_any.
      rewrite (String.eqb_sym y k).
      destruct (String.eqb k y) eqn:Eky; [|reflexivity].
      apply String.eqb_eq in Eky. subst k. rewrite E. apply Hframe.
Qed.

End Frame.

Module Apart.

Import FS.

(** Writing at a path changes nothing that lies apart from it. *)
Lemma put_apart (now : Z) (a q b : list string) (new root root' : node) :
  put now (a ++ q) new root = Some root' ->
  apart b a = true ->
  lookup b root' = lookup b root.
Proof.
  revert root root' b. induction a as [|x a IH]; intros root root' b.
  - intros _ Hb. destruct b; discriminate.
  - cbn [app put]. destruct root as [|ch m|]; try discriminate.
    destruct b as [|y b]; [discriminate|]. cbn [apart lookup].
    destruct (child x ch) as [n'|] eqn:E.
    + destruct (put now (a ++ q) new n') as [n''|] eqn:E'; [|discriminate].
      intros [= <-]. rewrite Frame.child_set_child_any.
      rewrite (String.eqb_sym x y).
      destruct (String.eqb y x) eqn:Exy; [|reflexivity].
      apply String.eqb_eq in Exy. subst y. rewrite E. intros Hb.
      exact (IH n' n'' b E' Hb).
    + destruct (a ++ q)%list eqn:Eaq; [|discriminate].
      intros [= <-]. rewrite Frame.child_set_child_any.
      rewrite (String.eqb_sym x y).
      destruct (String.eqb y x) eqn:Exy; [|reflexivity].
      apply app_eq_nil in Eaq. destruct Eaq as [-> _].
      intros Hb. destruct b; discriminate.
Qed.

(** Unlinking a path changes nothing that lies apart from it. *)
Lemma del_apart (now : Z) (a q b : list string) (root root' : node) :
  del now (a ++ q) root = Some root' ->
  apart b a = true ->
  lookup b root' = lookup b root.
Proof.
  revert root root' b. induction a as [|x a IH]; intros root root' b.
  - intros _ Hb. destruct b; discriminate.
  - cbn [app del]. destruct root as [|ch m|]; try discriminate.
    destruct b as [|y b]; [discriminate|]. cbn [apart lookup].
    destruct (child x ch) as [n'|] eqn:E; [|discriminate].
    destruct (a ++ q)%list as [|z zs] eqn:Eaq.
    + intros [= <-]. rewrite Frame.child_del_child.
      destruct (String.eqb y x) eqn:Exy.
      * apply app_eq_nil in Eaq. destruct Eaq as [-> _].
        intros Hb. destruct b; discriminate.
      * rewrite (String.eqb_sym x y), Exy. reflexivity.
    + destruct (del now (z :: zs) n') as [n''|] eqn:E'; [|discriminate].
      intros [= <-]. rewrite Frame.child_set_child_any.
      rewrite (String.eqb_sym x y).
      destruct (String.eqb y x) eqn:Exy; [|reflexivity].
      apply String.eqb_eq in Exy. subst y. rewrite E. intros Hb.
      exact (IH n' n'' b E' Hb).
Qed.

Lemma copy_file_apart (now : Z) (from a q b : list string) (root root' : node) :
  copy_file now from (a ++ q) root = Some root' ->
  apart b a = true ->
  lookup b root' = lookup b root.
Proof.
  unfold copy_file. destruct (Path.same _ _); [discriminate|].
  destruct (copy_file_node _ _ _); [|discriminate]. apply put_apart.
Qed.

Lemma copy_apart (now : Z) (name : string) (from a q b : list string)
  (root root' : node) :
  copy now name from (a ++ q) root = Some root' ->
  apart b a = true ->
  lookup b root' = lookup b root.
Proof.
  unfold copy. destruct (lookup from root); [|discriminate].
  destruct (Path.same _ _); [discriminate|].
  destruct (copy_node _ _ _ _); [|discriminate]. apply put_apart.
Qed.

Lemma remove_apart (now : Z) (a q b : list string) (root root' : node) :
  remove now (a ++ q) root = Some root' ->
  apart b a = true ->
  lookup b root' = lookup b root.
Proof.
  unfold remove. destruct (lookup (a ++ q) root) as [x|].
  - destruct x as [| [|] |]; try discriminate; apply del_apart.
  - now intros [= <-].
Qed.

Lemma remove_all_apart (now : Z) (a q b : list string) (root root' : node) :
  remove_all now (a ++ q) root = Some root' ->
  apart b a = true ->
  lookup b root' = lookup b root.
Proof.
  unfold remove_all. destruct (lookup (a ++ q) root) as [x|].
  - apply del_apart.
  - now intros [= <-].
Qed.

Lemma apart_app (a q b : list string) :
  apart a b = true -> apart (a ++ q) b = true.
Proof.
  revert b. induction a as [|x a IH]; intros [|y b]; simpl; try discriminate.
  destruct (String.eqb x y); auto.
Qed.

End Apart.

Lemma lookup_del (now : Z) (p : list string) (root root' : FS.node) :
  FS.del now p root = Some root' -> FS.lookup p root' = None.
Proof.
  revert root root'. induction p as [|c p IH]; intros root root'; simpl.
  - discriminate.
  - destruct root as [|ch m|]; try discriminate.
    destruct (FS.child c ch) as [n'|] eqn:E; [|discriminate].
    destruct p as [|c' p].
    + intros [= <-]. simpl.
      now rewrite Frame.child_del_child, String.eqb_refl.
    + destruct (FS.del now (c' :: p) n') as [n''|] eqn:E'; [|discriminate].
      intros [= <-]. cbn [FS.lookup]. rewrite FSFacts.child_set_child.
      exact (IH n' n'' E').
Qed.

Lemma lookup_remove (now : Z) (p : list string) (root root' : FS.node) :
  FS.remove now p root = Some root' -> FS.lookup p root' = None.
Proof.
  unfold FS.remove. destruct (FS.lookup p root) as [x|] eqn:E.
  - destruct x as [| [|] |]; try discriminate; apply lookup_del.
  - now intros [= <-].
Qed.

Lemma lookup_remove_all (now : Z) (p : list string) (root root' : FS.node) :
  FS.remove_all now p root = Some root' -> FS.lookup p root' = None.
Proof.
  unfold FS.remove_all. destruct (FS.lookup p root) as [x|] eqn:E.
  - apply lookup_del.
  - now intros [= <-].
Qed.


Module Prefix.

Import FS.

Lemma apart_sym (a b : list string) : apart a b = apart b a.
Proof.
  revert b. induction a as [|x a IH]; intros [|y b]; simpl; try reflexivity.
  rewrite (String.eqb_sym x y). destruct (String.eqb y x); auto.
Qed.

(** Two paths part ways, or one of them runs through the other. *)
Lemma trichotomy (b t : list string) :
  apart b t = true \/
  (exists q, b = (t ++ q)%list) \/
  (exists q, t = (b ++ q)%list /\ q <> []).
Proof.
  revert t. induction b as [|x b IH]; intros [|y t].
  - right. left. now exists [].
  - right. right. exists (y :: t). split; [reflexivity|discriminate].
  - right. left. now exists (x :: b).
  - simpl. destruct (String.eqb x y) eqn:E; [|now left].
    apply String.eqb_eq in E. subst y.
    destruct (IH t) as [H|[(q & ->)|(q & -> & Hq)]].
    + now left.
    + right. left. now exists q.
    + right. right. now exists q.
Qed.

(** Writing below [b] is writing into what [b] denotes. *)
Lemma lookup_put_prefix (now : Z) (b q : list string) (new root root' : node) :
  put now (b ++ q) new root = Some root' ->
  q <> [] ->
  exists d d',
    lookup b root = Some d /\ put now q new d = Some d' /\
    lookup b root' = Some d'.
Proof.
  revert root root'. induction b as [|x b IH]; intros root root' Hput Hq.
  - exists root, root'. auto.
  - cbn [app put] in Hput. destruct root as [|ch m|]; try discriminate.
    cbn [lookup].
    destruct (child x ch) as [n'|] eqn:E.
    + destruct (put now (b ++ q) new n') as [n''|] eqn:E'; [|discriminate].
      injection Hput as <-. destruct (IH n' n'' E' Hq) as (d & d' & H1 & H2 & H3).
      exists d, d'. cbn [lookup]. rewrite FSFacts.child_set_child. auto.
    + destruct (b ++ q)%list eqn:Ebq; [|discriminate].
      apply app_eq_nil in Ebq. destruct Ebq as [_ ->]. now destruct Hq.
Qed.

(** Unlinking below [b] is unlinking in what [b] denotes. *)
Lemma lookup_del_prefix (now : Z) (b q : list string) (root root' : node) :
  del now (b ++ q) root = Some root' ->
  q <> [] ->
  exists d d',
    lookup b root = Some d /\ del now q d = Some d' /\
    lookup b root' = Some d'.
Proof.
  revert root root'. induction b as [|x b IH]; intros root root' Hdel Hq.
  - exists root, root'. auto.
  - cbn [app del] in Hdel. destruct root as [|ch m|]; try discriminate.
    cbn [lookup].
    destruct (child x ch) as [n'|] eqn:E; [|discriminate].
    destruct (b ++ q)%list as [|z zs] eqn:Ebq.
    + apply app_eq_nil in Ebq. destruct Ebq as [_ ->]. now destruct Hq.
    + destruct (del now (z :: zs) n') as [n''|] eqn:E'; [|discriminate].
      injection Hdel as <-.
      destruct (IH n' n'' E' Hq) as (d & d' & H1 & H2 & H3).
      exists d, d'. cbn [lookup]. rewrite FSFacts.child_set_child. auto.
Qed.

(** Unlinking succeeds exactly on a path that denotes something and is
    not the root. *)
Lemma del_some (now : Z) (p : list string) (root x : node) :
  p <> [] -> lookup p root = Some x -> exists root', del now p root = Some root'.
Proof.
  revert root. induction p as [|c p IH]; intros root Hp; [now destruct Hp|].
  cbn [lookup del]. destruct root as [|ch m|]; try discriminate.
  destruct (child c ch) as [n'|]; [|discriminate].
  destruct p as [|c' p]; [eauto|].
  intros Hl. destruct (IH n') as (n'' & ->); [discriminate|exact Hl|eauto].
Qed.

Lemma del_none (now : Z) (p : list string) (root : node) :
  lookup p root = None -> del now p root = None.
Proof.
  revert root. induction p as [|c p IH]; intros root; [discriminate|].
  cbn [lookup del]. destruct root as [|ch m|]; try reflexivity.
  destruct (child c ch) as [n'|]; [|reflexivity].
  destruct p as [|c' p]; [discriminate|].
  intros Hl. now rewrite (IH n' Hl).
Qed.

(** A file written over a file: every path denotes a node of the same
    kind as before. *)
Lemma put_file_kinds (now : Z) (p : list string) (c c' : string) (m m' : Z)
  (root root' : node) :
  lookup p root = Some (File c m) ->
  put now p (File c' m') root = Some root' ->
  forall b, option_map kind_of (lookup b root')
            = option_map kind_of (lookup b root).
Proof.
  revert root root'. induction p as [|x p IH]; intros root root'.
  - cbn. intros [= ->] [= <-] [|y b]; reflexivity.
  - cbn [lookup put]. destruct root as [|ch m0|]; try discriminate.
    destruct (child x ch) as [n'|] eqn:E; [|discriminate].
    intros Hl. destruct (put now p (File c' m') n') as [n''|] eqn:E';
      [|discriminate].
    intros [= <-] [|y b].
    + cbn. clear - E. induction ch as [|[k z] ch IHch]; [discriminate|].
      simpl in *. destruct (String.eqb k x); reflexivity.
    + cbn [lookup]. rewrite Frame.child_set_child_any.
      destruct (String.eqb x y) eqn:Exy; [|reflexivity].
      apply String.eqb_eq in Exy. subst y. rewrite E.
      exact (IH n' n'' Hl E' b).
Qed.

End Prefix.

(* ================================================================== *)
(** * Facts about the logger *)

Section LogFacts.

Lemma write_stream_rest (outf : option string) (text : string) (w : world) :
  clock (write_stream outf text w) = clock w /\
  logger_this_ptr (write_stream outf text w) = logger_this_ptr w /\
  log_lines (write_stream outf text w) = log_lines w /\
  cout (write_stream outf text w) = cout w.
Proof.
  unfold write_stream. destruct outf as [f|]; [|auto].
  destruct (FS.lookup _ _) as [[]|]; auto.
  destruct (FS.put _ _ _ _); auto.
Qed.

(** A write to the log file changes nothing that lies apart from it. *)
Lemma write_stream_apart (outf : option string) (text : string) (w : world)
  (b : list string) :
  match outf with
  | Some f => apart b (Path.components f) = true
  | None => True
  end ->
  FS.lookup b (files (write_stream outf text w)) = FS.lookup b (files w).
Proof.
  unfold write_stream. destruct outf as [f|]; [|reflexivity]. intros Hb.
  destruct (FS.lookup (Path.components f) (files w)) as [[c m| |]|] eqn:E;
    try reflexivity.
  destruct (FS.put _ _ _ _) as [root'|] eqn:Ep; [|reflexivity].
  cbn. rewrite <- (app_nil_r (Path.components f)) in Ep.
  exact (Apart.put_apart _ _ _ _ _ _ _ Ep Hb).
Qed.

(** A write to the log file makes nothing appear or disappear, and no
    directory empty. *)
Lemma write_stream_kinds (outf : option string) (text : string) (w : world)
  (b : list string) :
  option_map FS.kind_of (FS.lookup b (files (write_stream outf text w)))
  = option_map FS.kind_of (FS.lookup b (files w)).
Proof.
  unfold write_stream. destruct outf as [f|]; [|reflexivity].
  destruct (FS.lookup (Path.components f) (files w)) as [[c m| |]|] eqn:E;
    try reflexivity.
  destruct (FS.put _ _ _ _) as [root'|] eqn:Ep; [|reflexivity].
  cbn. exact (Prefix.put_file_kinds _ _ _ _ _ _ _ _ E Ep b).
Qed.

Lemma logf_internal_rest (lg : Logger.t) (sev : Logger.severity_t)
  (FILE : string) (LINE : Z) (msg : string) (w : world) :
  clock (logf_internal lg sev FILE LINE msg w) = clock w /\
  logger_this_ptr (logf_internal lg sev FILE LINE msg w) = logger_this_ptr w /\
  log_lines (logf_internal lg sev FILE LINE msg w)
  = (log_lines w ++ [{| Logger.severity := sev; Logger.text := msg |}])%list /\
  cout (logf_internal lg sev FILE LINE msg w) = cout w.
Proof.
  unfold logf_internal.
  destruct (write_stream_rest (Logger.outf lg)
              (Logger.file_line (clock w) sev msg FILE LINE)
              (add_log {| Logger.severity := sev; Logger.text := msg |} w))
    as (-> & -> & -> & ->).
  auto.
Qed.

Lemma logf_internal_apart (lg : Logger.t) (sev : Logger.severity_t)
  (FILE : string) (LINE : Z) (msg : string) (w : world) (b : list string) :
  writes_elsewhere lg b = true ->
  FS.lookup b (files (logf_internal lg sev FILE LINE msg w))
  = FS.lookup b (files w).
Proof.
  intros Hb. unfold logf_internal. rewrite write_stream_apart; [reflexivity|].
  unfold writes_elsewhere in Hb. destruct (Logger.outf lg); [exact Hb|exact I].
Qed.

Lemma logf_internal_kinds (lg : Logger.t) (sev : Logger.severity_t)
  (FILE : string) (LINE : Z) (msg : string) (w : world) (b : list string) :
  option_map FS.kind_of (FS.lookup b (files (logf_internal lg sev FILE LINE msg w)))
  = option_map FS.kind_of (FS.lookup b (files w)).
Proof. unfold logf_internal. now rewrite write_stream_kinds. Qed.

(** [logf] with a severity other than [DEBUG]. *)
Lemma logf_unfold (sev : Logger.severity_t) (FILE : string) (LINE : Z)
  (msg : string) (w : world) :
  Logger.severity_eqb Logger.DEBUG sev = false ->
  logf sev FILE LINE msg w =
  match logger_this_ptr w with
  | Some lg => Return tt (logf_internal lg sev FILE LINE msg w)
  | None => Raise (runtime_error "The logger must first be instantiated") w
  end.
Proof.
  intros H. unfold logf. destruct (logger_this_ptr w); [|reflexivity].
  now rewrite H.
Qed.

Lemma off_log_writes (w : world) (lg : Logger.t) (b : list string) :
  logger_this_ptr w = Some lg -> off_log w b = writes_elsewhere lg b.
Proof.
  intros H. unfold off_log, log_file, writes_elsewhere. rewrite H.
  now destruct (Logger.outf lg).
Qed.

(** Whatever [logf] does, a path off the log file denotes what it did,
    and every path denotes a node of the kind it did. *)
Lemma logf_apart (sev : Logger.severity_t) (FILE : string) (LINE : Z)
  (msg : string) (w : world) (b : list string) :
  off_log w b = true ->
  FS.lookup b (files (world_of (logf sev FILE LINE msg w)))
  = FS.lookup b (files w).
Proof.
  intros Hb. unfold logf. destruct (logger_this_ptr w) as [lg|] eqn:E;
    [|reflexivity].
  destruct (_ && _); [reflexivity|]. cbn [world_of].
  apply logf_internal_apart. now rewrite <- (off_log_writes w lg b E).
Qed.

Lemma logf_kinds (sev : Logger.severity_t) (FILE : string) (LINE : Z)
  (msg : string) (w : world) (b : list string) :
  option_map FS.kind_of (FS.lookup b (files (world_of (logf sev FILE LINE msg w))))
  = option_map FS.kind_of (FS.lookup b (files w)).
Proof.
  unfold logf. destruct (logger_this_ptr w) as [lg|]; [|reflexivity].
  destruct (_ && _); [reflexivity|]. apply logf_internal_kinds.
Qed.

Lemma logf_rest (sev : Logger.severity_t) (FILE : string) (LINE : Z)
  (msg : string) (w : world) :
  clock (world_of (logf sev FILE LINE msg w)) = clock w /\
  logger_this_ptr (world_of (logf sev FILE LINE msg w)) = logger_this_ptr w /\
  cout (world_of (logf sev FILE LINE msg w)) = cout w.
Proof.
  unfold logf. destruct (logger_this_ptr w) as [lg|] eqn:E; [|auto].
  destruct (_ && _); [auto|]. cbn [world_of].
  destruct (logf_internal_rest lg sev FILE LINE msg w) as (H1 & H2 & _ & H3).
  rewrite H1, H2, H3. auto.
Qed.

End LogFacts.

(** Trees that agree off one path, after the same removal. *)
Module Agree.

Import FS.

Section OffPath.

Variable p : list string.

Lemma del_agree (now : Z) (t : list string) (r r' s s' : node) :
  (forall b, apart b p = true -> lookup b r = lookup b r') ->
  del now t r = Some s -> del now t r' = Some s' ->
  forall b, apart b p = true -> lookup b s = lookup b s'.
Proof.
  intros Hagree Hs Hs' b Hb.
  destruct (Prefix.trichotomy b t) as [Hbt|[(q & ->)|(q & -> & Hq)]].
  - rewrite <- (app_nil_r t) in Hs, Hs'.
    rewrite (Apart.del_apart _ _ _ _ _ _ Hs Hbt),
            (Apart.del_apart _ _ _ _ _ _ Hs' Hbt).
    now apply Hagree.
  - rewrite !Frame.lookup_app, (lookup_del _ _ _ _ Hs), (lookup_del _ _ _ _ Hs').
    reflexivity.
  - destruct (Prefix.lookup_del_prefix _ _ _ _ _ Hs Hq) as (d & d1 & H1 & H2 & ->).
    destruct (Prefix.lookup_del_prefix _ _ _ _ _ Hs' Hq)
      as (d' & d1' & H1' & H2' & ->).
    rewrite (Hagree _ Hb), H1' in H1. injection H1 as ->. congruence.
Qed.

Lemma del_alike (now : Z) (t : list string) (r r' : node) :
  (forall b, option_map kind_of (lookup b r) = option_map kind_of (lookup b r')) ->
  del now t r = None <-> del now t r' = None.
Proof.
  intros Hk.
  assert (H : forall a a' : node,
            (forall b, option_map kind_of (lookup b a)
                       = option_map kind_of (lookup b a')) ->
            del now t a = None -> del now t a' = None).
  { intros a a' Hkk Hnone. destruct t as [|c t]; [reflexivity|].
    destruct (lookup (c :: t) a') as [x'|] eqn:E'; [|now apply Prefix.del_none].
    specialize (Hkk (c :: t)). rewrite E' in Hkk.
    destruct (lookup (c :: t) a) as [x|] eqn:E; [|discriminate].
    destruct (Prefix.del_some now (c :: t) a x) as (s & Hs);
      [discriminate|exact E|congruence]. }
  split; apply H; [exact Hk|]. intros b. symmetry. apply Hk.
Qed.

Lemma remove_agree (now : Z) (t : list string) (r r' : node) :
  (forall b, apart b p = true -> lookup b r = lookup b r') ->
  (forall b, option_map kind_of (lookup b r) = option_map kind_of (lookup b r')) ->
  match remove now t r, remove now t r' with
  | Some s, Some s' => forall b, apart b p = true -> lookup b s = lookup b s'
  | None, None => True
  | _, _ => False
  end.
Proof.
  intros Hagree Hk. unfold remove. pose proof (Hk t) as Ht.
  pose proof (del_alike now t r r' Hk) as Hal.
  pose proof (del_agree now t r r') as Hdel.
  destruct (lookup t r) as [[c m|[|kx ch] m|m]|], (lookup t r') as [[c' m'|[|kx' ch'] m'|m']|];
    try discriminate; auto;
    destruct (del now t r) as [s|], (del now t r') as [s'|]; auto;
    try (now destruct Hal as [H1 H2]; discriminate (H1 eq_refl) || discriminate (H2 eq_refl)).
Qed.

Lemma remove_all_agree (now : Z) (t : list string) (r r' : node) :
  (forall b, apart b p = true -> lookup b r = lookup b r') ->
  (forall b, option_map kind_of (lookup b r) = option_map kind_of (lookup b r')) ->
  match remove_all now t r, remove_all now t r' with
  | Some s, Some s' => forall b, apart b p = true -> lookup b s = lookup b s'
  | None, None => True
  | _, _ => False
  end.
Proof.
  intros Hagree Hk. unfold remove_all. pose proof (Hk t) as Ht.
  pose proof (del_alike now t r r' Hk) as Hal.
  pose proof (del_agree now t r r') as Hdel.
  destruct (lookup t r) as [x|], (lookup t r') as [x'|];
    try discriminate; auto;
    destruct (del now t r) as [s|], (del now t r') as [s'|]; auto;
    try (now destruct Hal as [H1 H2]; discriminate (H1 eq_refl) || discriminate (H2 eq_refl)).
Qed.

End OffPath.

End Agree.
Section Reconciler.

Import DirWatcherCallbackBase.
Local Open Scope prog_scope.

(** The four branches of [report_action], with the file name
    [get_filename] computes written as the final component of the path. *)
Lemma report_action_branches
  (a : action_t) (f : file_t) (q d : string) (v : world) :
  Str.size q < 2 ^ 31 ->
  DirWatcherCallback.report_action a f q d v =
    match a, f with
    | CREATE, REGULAR | MODIFY, REGULAR =>
        (logf Logger.INFO __FILE__ 216
           ("Regular file " ++ Path.final_component q
              ++ " has been created in Replica | " ++ q) ;;;
         fs_copy_file q (replica_location d q)) v
    | DELETE, REGULAR =>
        (logf Logger.INFO __FILE__ 221
           ("Regular file " ++ Path.final_component q
              ++ " has been deleted from Replica | " ++ q) ;;;
         fs_remove (replica_location d q)) v
    | CREATE, DIRECTORY | MODIFY, DIRECTORY =>
        (fs_copy q (replica_location d q) ;;;
         logf Logger.INFO __FILE__ 230
           ("Directory " ++ Path.final_component q
              ++ " has been created in Replica | " ++ q)) v
    | DELETE, DIRECTORY =>
        (fs_remove_all (replica_location d q) ;;;
         logf Logger.INFO __FILE__ 235
           ("Directory " ++ Path.final_component q
              ++ " has been deleted from Replica | " ++ q)) v
    | _, _ => Return tt v
    end.
Proof.
  intros Hq. unfold replica_location.
  destruct a, f;
    cbv [DirWatcherCallback.report_action action_eqb file_eqb orb andb
         get_file_str bind ret logf Logger.severity_eqb];
    try reflexivity;
    repeat first
      [ rewrite (get_filename_final_component q) by exact Hq
      | progress cbv beta iota
      | match goal with
        | |- context [logger_this_ptr ?x] => destruct (logger_this_ptr x)
        | |- context [fs_copy ?a ?b ?x] => destruct (fs_copy a b x) as [[] ?|? ?]
        | |- context [fs_remove_all ?a ?x] =>
            destruct (fs_remove_all a x) as [[] ?|? ?]
        end ];
    reflexivity.
Qed.

Lemma fs_call_rest (what : string) (op : Z -> FS.node -> option FS.node)
  (w : world) :
  clock (world_of (fs_call what op w)) = clock w /\
  logger_this_ptr (world_of (fs_call what op w)) = logger_this_ptr w /\
  log_lines (world_of (fs_call what op w)) = log_lines w /\
  cout (world_of (fs_call what op w)) = cout w.
Proof. unfold fs_call. destruct (op _ _); cbn; auto. Qed.

(** Two worlds that differ in the log file at most, after the same call
    of [fs::remove]. *)
Lemma fs_remove_agree (target : string) (p : list string) (v v' : world) :
  clock v' = clock v ->
  (forall b, apart b p = true -> FS.lookup b (files v) = FS.lookup b (files v')) ->
  (forall b, option_map FS.kind_of (FS.lookup b (files v))
             = option_map FS.kind_of (FS.lookup b (files v'))) ->
  forall b, apart b p = true ->
    FS.lookup b (files (world_of (fs_remove target v)))
    = FS.lookup b (files (world_of (fs_remove target v'))).
Proof.
  intros Hc Hagree Hk b Hb. unfold fs_remove, fs_call. rewrite Hc.
  pose proof (Agree.remove_agree p (clock v) (Path.components target)
                (files v) (files v') Hagree Hk) as H.
  destruct (FS.remove _ _ (files v)) as [s|],
           (FS.remove _ _ (files v')) as [s'|]; cbn; try contradiction; auto.
Qed.

(** C10. Every branch of [report_action] addresses the replica at the
    replica root joined with the final component of the source path: the
    regular-file branches copy to and remove that location, the directory
    branches copy into and remove it recursively. Hence two source paths
    with the same final component are mapped to the same replica location,
    and deleting either of them has the same effect on the file system:
    afterwards every path off the log file denotes the same node (the
    line written to the log file names the source path). *)
Theorem report_action_replica_location
  (action : action_t) (file : file_t) (p d : string) (w : world) :
  Str.size p < 2 ^ 31 ->
  let name := Path.final_component p in
  let target := replica_location d p in
  DirWatcherCallback.report_action action file p d w =
    match action, file with
    | CREATE, REGULAR | MODIFY, REGULAR =>
        (logf Logger.INFO __FILE__ 216
           ("Regular file " ++ name ++ " has been created in Replica | " ++ p) ;;;
         fs_copy_file p target) w
    | DELETE, REGULAR =>
        (logf Logger.INFO __FILE__ 221
           ("Regular file " ++ name ++ " has been deleted from Replica | " ++ p) ;;;
         fs_remove target) w
    | CREATE, DIRECTORY | MODIFY, DIRECTORY =>
        (fs_copy p target ;;;
         logf Logger.INFO __FILE__ 230
           ("Directory " ++ name ++ " has been created in Replica | " ++ p)) w
    | DELETE, DIRECTORY =>
        (fs_remove_all target ;;;
         logf Logger.INFO __FILE__ 235
           ("Directory " ++ name ++ " has been deleted from Replica | " ++ p)) w
    | _, _ => Return tt w
    end
  /\ forall p' : string,
       Str.size p' < 2 ^ 31 ->
       Path.final_component p' = Path.final_component p ->
       replica_location d p' = replica_location d p /\
       forall b : list string,
         off_log w b = true ->
         FS.lookup b
           (files (world_of (DirWatcherCallback.report_action DELETE file p' d w)))
         = FS.lookup b
             (files (world_of (DirWatcherCallback.report_action DELETE file p d w))).
Proof.
  intros Hlen name target.
  pose proof (fun a f q v => report_action_branches a f q d v) as Hchar.
  split; [apply Hchar; exact Hlen|].
  intros p' Hlen' Hsame.
  assert (Hloc : replica_location d p' = replica_location d p)
    by (unfold replica_location; now rewrite Hsame).
  split; [exact Hloc|]. intros b Hb.
  rewrite (Hchar DELETE file p' w Hlen'), (Hchar DELETE file p w Hlen), Hloc.
  destruct file; try reflexivity; unfold bind.
  - (* a directory: the same removal, then two log lines *)
    pose proof (fs_call_rest "remove_all"
                  (fun now => FS.remove_all now
                                (Path.components (replica_location d p))) w)
      as (_ & Hl & _).
    fold (fs_remove_all (replica_location d p)) in Hl.
    destruct (fs_remove_all (replica_location d p) w) as [[] w1|e w1] eqn:E;
      [|reflexivity].
    cbn [world_of] in Hl.
    assert (Hb1 : off_log w1 b = true)
      by (unfold off_log, log_file in *; now rewrite Hl).
    now rewrite !logf_apart by exact Hb1.
  - (* a regular file: two log lines, then the same removal *)
    rewrite !logf_unfold by reflexivity.
    destruct (logger_this_ptr w) as [lg|] eqn:El; [|reflexivity].
    rewrite (off_log_writes w lg b El) in Hb.
    destruct (Logger.outf lg) as [f|] eqn:Ef.
    + unfold writes_elsewhere in Hb. rewrite Ef in Hb.
      apply (fs_remove_agree _ (Path.components f)); [| | |exact Hb].
      * destruct (logf_internal_rest lg Logger.INFO __FILE__ 221
          ("Regular file " ++ Path.final_component p' ++ " has been deleted from Replica | " ++ p') w) as (-> & _).
        destruct (logf_internal_rest lg Logger.INFO __FILE__ 221
          ("Regular file " ++ Path.final_component p ++ " has been deleted from Replica | " ++ p) w) as (-> & _).
        reflexivity.
      * intros b' Hb'. rewrite !logf_internal_apart; try reflexivity;
          unfold writes_elsewhere; now rewrite Ef.
      * intros b'. now rewrite !logf_internal_kinds.
    + unfold logf_internal, write_stream, fs_remove, fs_call, add_log.
      rewrite Ef. cbn.
      destruct (FS.remove _ _ (files w)); reflexivity.
Qed.

End Reconciler.

Lemma report_action_replica_location_witness :
  replica_location "Replica" "Source/sub/a.txt" = "Replica/a.txt" /\
  replica_location "Replica" "Source/a.txt"
  = replica_location "Replica" "Source/sub/a.txt".
Proof.
  split; [reflexivity|].
  apply (report_action_replica_location DirWatcherCallbackBase.DELETE
           DirWatcherCallbackBase.REGULAR "Source/sub/a.txt" "Replica"
           (Examples.world_with Examples.one_file)).
  - reflexivity.
  - reflexivity.
  - reflexivity.
Defined.

(* ================================================================== *)
(** * Facts about paths and entry sets *)

Lemma string_compare_refl (s : string) : String.compare s s = Eq.
Proof.
  pose proof (String.compare_antisym s s) as H.
  destruct (String.compare s s); [reflexivity|discriminate|discriminate].
Qed.

Lemma compare_components_eq (a b : list string) :
  Path.compare_components a b = Eq <-> a = b.
Proof.
  revert b. induction a as [|x a IH]; intros [|y b]; simpl;
    try (split; [discriminate|discriminate]); [tauto|].
  destruct (String.compare x y) eqn:E.
  - apply String.compare_eq_iff in E. subst y. rewrite IH.
    split; [now intros ->|now intros [= ->]].
  - split; [discriminate|]. intros [= Hxy _]. rewrite Hxy in E.
    rewrite string_compare_refl in E. discriminate.
  - split; [discriminate|]. intros [= Hxy _]. rewrite Hxy in E.
    rewrite string_compare_refl in E. discriminate.
Qed.

Lemma equiv_components (p q : string) :
  Path.equiv p q = true <-> Path.components p = Path.components q.
Proof.
  unfold Path.equiv, Path.same. rewrite <- compare_components_eq.
  destruct (Path.compare_components _ _); split; congruence.
Qed.

Lemma same_entry_refl (x : directory_entry) : same_entry x x = true.
Proof. now apply equiv_components. Qed.

Lemma same_entry_sym (x y : directory_entry) :
  same_entry x y = same_entry y x.
Proof.
  unfold same_entry.
  destruct (Path.equiv (path x) (path y)) eqn:E1,
           (Path.equiv (path y) (path x)) eqn:E2; try reflexivity.
  - apply equiv_components in E1. symmetry in E1.
    apply equiv_components in E1. congruence.
  - apply equiv_components in E2. symmetry in E2.
    apply equiv_components in E2. congruence.
Qed.

Lemma same_entry_trans (x y z : directory_entry) :
  same_entry x y = true -> same_entry y z = true -> same_entry x z = true.
Proof.
  unfold same_entry. rewrite !equiv_components. congruence.
Qed.

Lemma same_entry_path (x y : directory_entry) :
  path x = path y -> same_entry x y = true.
Proof. intros H. unfold same_entry. rewrite H. now apply equiv_components. Qed.

Module SetFacts.

Import EntrySet.

Lemma find_some (s : t) (e r : directory_entry) :
  find s e = Some r -> In r s /\ same_entry r e = true.
Proof.
  induction s as [|x s IH]; simpl; [discriminate|].
  destruct (same_entry x e) eqn:E.
  - intros [= <-]. auto.
  - intros H. destruct (IH H). auto.
Qed.

Lemma find_none (s : t) (e : directory_entry) :
  find s e = None <-> forall x, In x s -> same_entry x e = false.
Proof.
  induction s as [|x s IH]; simpl.
  - split; [contradiction|reflexivity].
  - destruct (same_entry x e) eqn:E.
    + split; [discriminate|]. intros H. rewrite (H x) in E by auto. discriminate.
    + rewrite IH. split.
      * intros H y [<-|Hy]; auto.
      * intros H y Hy. apply H. auto.
Qed.

Lemma contains_iff (s : t) (e : directory_entry) :
  contains s e = true <-> exists x, In x s /\ same_entry x e = true.
Proof.
  unfold contains. destruct (find s e) as [r|] eqn:E.
  - apply find_some in E. split; [eauto|reflexivity].
  - split; [discriminate|]. intros (x & Hx & Hs).
    rewrite find_none in E. rewrite (E x Hx) in Hs. discriminate.
Qed.

Lemma find_same_path (s : t) (e e' : directory_entry) :
  same_entry e e' = true -> find s e' = find s e.
Proof.
  intros H. induction s as [|x s IH]; simpl; [reflexivity|].
  rewrite IH.
  destruct (same_entry x e) eqn:E1, (same_entry x e') eqn:E2; try reflexivity.
  - rewrite (same_entry_trans x e e' E1 H) in E2. discriminate.
  - rewrite same_entry_sym in H.
    rewrite (same_entry_trans x e' e E2 H) in E1. discriminate.
Qed.

Lemma in_emplace (s : t) (e x : directory_entry) :
  In x (emplace s e) -> x = e \/ In x s.
Proof.
  induction s as [|y s IH]; simpl.
  - intros [<-|[]]. auto.
  - destruct (Path.compare (path e) (path y)); simpl.
    + auto.
    + intros [<-|[<-|H]]; auto.
    + intros [<-|H]; auto. destruct (IH H); auto.
Qed.

Lemma emplace_keeps (s : t) (e x : directory_entry) :
  In x s -> In x (emplace s e).
Proof.
  induction s as [|y s IH]; simpl; [contradiction|].
  intros H. destruct (Path.compare (path e) (path y)); simpl; tauto.
Qed.

Lemma emplace_holds (s : t) (e : directory_entry) :
  exists x, In x (emplace s e) /\ same_entry x e = true.
Proof.
  induction s as [|y s (x & Hx & Hs)]; simpl.
  - exists e. split; [auto|apply same_entry_refl].
  - destruct (Path.compare (path e) (path y)) eqn:E.
    + exists y. split; [simpl; auto|].
      rewrite same_entry_sym. unfold same_entry, Path.equiv, Path.same.
      unfold Path.compare in E. now rewrite E.
    + exists e. split; [simpl; auto|apply same_entry_refl].
    + exists x. split; [simpl; auto|assumption].
Qed.

Lemma emplace_new (s : t) (e : directory_entry) :
  find s e = None -> In e (emplace s e).
Proof.
  intros H. destruct (emplace_holds s e) as (x & Hx & Hs).
  destruct (in_emplace s e x Hx) as [->|Hin]; [assumption|].
  rewrite find_none in H. rewrite (H x Hin) in Hs. discriminate.
Qed.

Lemma contains_emplace (s : t) (e x : directory_entry) :
  contains (emplace s e) x = true <->
  same_entry e x = true \/ contains s x = true.
Proof.
  rewrite !contains_iff. split.
  - intros (y & Hy & Hs). destruct (in_emplace s e y Hy) as [->|Hin]; eauto.
  - intros [H|(y & Hy & Hs)].
    + destruct (emplace_holds s e) as (y & Hy & Hs).
      exists y. split; [assumption|]. eapply same_entry_trans; eassumption.
    + exists y. split; [now apply emplace_keeps|assumption].
Qed.

Lemma in_erase (s : t) (e x : directory_entry) :
  In x (erase s e) <-> In x s /\ same_entry x e = false.
Proof.
  unfold erase. rewrite filter_In.
  destruct (same_entry x e); simpl; intuition congruence.
Qed.

Lemma in_erase_all (g : list directory_entry) (s : t) (x : directory_entry) :
  In x (fold_left erase g s) <->
  In x s /\ forall y, In y g -> same_entry x y = false.
Proof.
  revert s. induction g as [|e g IH]; intros s; simpl.
  - intuition.
  - rewrite IH, in_erase. split.
    + intros [[H1 H2] H3]. split; [assumption|].
      intros y [<-|Hy]; auto.
    + intros [H1 H2]. repeat split; auto.
Qed.

Lemma one_per_path_emplace (s : t) (e : directory_entry) :
  one_per_path s -> find s e = None -> one_per_path (emplace s e).
Proof.
  intros Hu Hn x y Hx Hy Hs. rewrite find_none in Hn.
  destruct (in_emplace s e x Hx) as [->|Hx'], (in_emplace s e y Hy) as [->|Hy'].
  - reflexivity.
  - rewrite same_entry_sym, (Hn y Hy') in Hs. discriminate.
  - rewrite (Hn x Hx') in Hs. discriminate.
  - now apply Hu.
Qed.

End SetFacts.

(* ================================================================== *)
(** * The change classifier *)

Section Classifier.

Import DirWatcherCallbackBase.
Import DirWatcher.

Variable callback : vtable.

Lemma report_unfold (a : action_t) (f : file_t) (entry : directory_entry)
  (this : t) (w : world) :
  report callback a f entry this w =
  match report_action callback a f (path entry) (replica this) w with
  | Return _ w' =>
      Return (with_reported (reported this ++ [event a f entry this]) this) w'
  | Raise e w' => Raise e w'
  end.
Proof. reflexivity. Qed.

(** C4, counterexample. A walk that meets a named pipe records it in the
    Snapshot and in the Shadow Set, and writes nothing to the log. *)
Lemma unexpected_object_is_recorded :
  match poll DirWatcherCallback.cb Examples.fresh
             (Examples.world_with Examples.one_pipe) with
  | Return this' w' =>
      EntrySet.contains (source_content this') Examples.pipe_entry = true /\
      EntrySet.contains (replica_content this') Examples.pipe_entry = true /\
      log_lines w' = []
  | Raise _ _ => False
  end.
Proof. vm_compute. repeat split; reflexivity. Qed.

(** C4, as amended. An object met in the walk that is absent from the
    Snapshot and is neither a regular file nor a directory produces no
    create event and no file operation: the reconciler is not called. The
    entry is nevertheless inserted into the Snapshot and into the Shadow
    Set. *)
Theorem classify_unexpected_object
  (entry : directory_entry) (this : t) (w : world) :
  EntrySet.find (source_content this) entry = None ->
  is_regular_file entry = false ->
  is_directory entry = false ->
  exists this' w',
    classify callback entry this w = Return this' w' /\
    reported this' = reported this /\
    files w' = files w /\
    EntrySet.contains (source_content this') entry = true /\
    EntrySet.contains (replica_content this') entry = true.
Proof.
  intros Hfind Hreg Hdir. unfold classify. rewrite Hfind, Hreg, Hdir.
  eexists. exists w. split; [reflexivity|]. cbn.
  repeat split; apply SetFacts.contains_emplace; left; apply same_entry_refl.
Qed.


Lemma same_entry_components (x y : directory_entry) :
  same_entry x y = true -> Path.components (path x) = Path.components (path y).
Proof. intros H. now apply equiv_components. Qed.

(** What the classifier does with an entry that the Snapshot holds: the
    two last-write times of line 161 are read from the same path, so the
    comparison fails and nothing is reported; the first of the two reads
    throws when the path does not exist any more. *)
Lemma classify_known
  (entry file_entry : directory_entry) (this : t) (w : world) :
  EntrySet.find (source_content this) entry = Some file_entry ->
  classify callback entry this w =
    if fs_exists (path entry) w then Return this w
    else Raise (filesystem_error "last_write_time") w.
Proof.
  intros Hfind. destruct (SetFacts.find_some _ _ _ Hfind) as [_ Hsame].
  apply same_entry_components in Hsame.
  unfold classify, bind, last_write_time, fs_exists. rewrite Hfind, Hsame.
  destruct (FS.lookup (Path.components (path entry)) (files w)) eqn:E;
    [|reflexivity].
  cbv beta iota. rewrite E. cbv beta iota. now rewrite Z.ltb_irrefl.
Qed.

Lemma classify_effect_known
  (entry file_entry : directory_entry) (this this' : t) (w w' : world) :
  EntrySet.find (source_content this) entry = Some file_entry ->
  classify callback entry this w = Return this' w' ->
  this' = this /\ w' = w.
Proof.
  intros Hfind. rewrite (classify_known entry file_entry this w Hfind).
  destruct (fs_exists _ _); [|discriminate]. now intros [= <- <-].
Qed.

(** C2. The classifier compares, for an entry that the Snapshot holds,
    the last-write time of the entry met in the walk with the last-write
    time of the entry stored in the Snapshot (line 161). Both entries
    stand for the same path and [last_write_time()] reads the time from
    the file system at each call, so the two times are equal whatever was
    written to the file since it was recorded: the classifier reports
    nothing, and leaves the watcher and the world as they were. If the
    path has vanished since the walk met it, the read throws. No modify
    event is ever reported. *)
Theorem classify_known_entry_reports_nothing
  (entry file_entry : directory_entry) (this : t) (w : world) :
  EntrySet.find (source_content this) entry = Some file_entry ->
  (Path.components (path file_entry) = Path.components (path entry)) /\
  (forall time : Z,
     last_write_time entry w = Return time w ->
     last_write_time file_entry w = Return time w) /\
  classify callback entry this w =
    (if fs_exists (path entry) w then Return this w
     else Raise (filesystem_error "last_write_time") w).
Proof.
  intros Hfind. destruct (SetFacts.find_some _ _ _ Hfind) as [_ Hsame].
  apply same_entry_components in Hsame.
  split; [exact Hsame|]. split; [|now apply (classify_known entry file_entry)].
  intros time. unfold last_write_time. now rewrite Hsame.
Qed.

End Classifier.

Lemma classify_unexpected_object_witness :
  exists this' w',
    DirWatcher.classify DirWatcherCallback.cb Examples.pipe_entry Examples.fresh
      (Examples.world_with Examples.one_pipe) = Return this' w' /\
    DirWatcher.reported this' = DirWatcher.reported Examples.fresh /\
    files w' = files (Examples.world_with Examples.one_pipe) /\
    EntrySet.contains (DirWatcher.source_content this') Examples.pipe_entry = true /\
    EntrySet.contains (DirWatcher.replica_content this') Examples.pipe_entry = true.
Proof.
  apply (classify_unexpected_object DirWatcherCallback.cb Examples.pipe_entry
           Examples.fresh (Examples.world_with Examples.one_pipe));
    reflexivity.
Defined.

(** C2, at the failing input. [a.txt] is rewritten between the first and
    the second poll, with a later last-write time; the worker runs three
    poll cycles and is then stopped. The only event it reports is the
    create event of the first poll, and the replica still holds the
    content the file had then. *)
Lemma rewritten_file_is_not_reported :
  match DirWatcher.run_internal 4 Examples.one_edit DirWatcherCallback.cb
          Examples.fresh (Examples.world_with Examples.one_file) with
  | Return (Some this') w' =>
      DirWatcher.reported this'
      = [event DirWatcherCallbackBase.CREATE DirWatcherCallbackBase.REGULAR
           Examples.a_txt Examples.fresh] /\
      FS.lookup ["Source"; "a.txt"] (files w') = Some (FS.File "HELLO" 16) /\
      FS.lookup ["Replica"; "a.txt"] (files w') = Some (FS.File "hello" 15) /\
      map Logger.text (log_lines w')
      = ["Regular file a.txt has been created in Replica | Source/a.txt"]
  | _ => False
  end.
Proof. vm_compute. repeat split; reflexivity. Qed.

Lemma classify_known_entry_reports_nothing_witness :
  let w := set_files (Examples.rewrite_file 16 ["Source"; "a.txt"] "HELLO"
                        Examples.one_file)
                     (Examples.world_with Examples.one_file) in
  FS.lookup ["Source"; "a.txt"] (files w) = Some (FS.File "HELLO" 16) /\
  DirWatcher.classify DirWatcherCallback.cb Examples.a_txt
    Examples.knows_a_txt w
  = Return Examples.knows_a_txt w.
Proof.
  split; [reflexivity|].
  apply (classify_known_entry_reports_nothing DirWatcherCallback.cb
           Examples.a_txt Examples.a_txt Examples.knows_a_txt).
  reflexivity.
Defined.
(* ================================================================== *)
(** * The loops of a poll cycle *)

Section Loops.

Import DirWatcherCallbackBase.
Import DirWatcher.

Context {A S : Type}.

(** A property of the loop state that every iteration preserves holds
    when the loop is left. *)
Lemma for_each_invariant (I : S -> world -> Prop) (body : A -> S -> M S)
  (xs : list A) :
  (forall x s w s' w',
      In x xs -> I s w -> body x s w = Return s' w' -> I s' w') ->
  forall s w s' w',
    I s w -> for_each xs body s w = Return s' w' -> I s' w'.
Proof.
  induction xs as [|x xs IH]; intros Hbody s w s' w' Hs; simpl.
  - intros [= <- <-]. exact Hs.
  - unfold bind. destruct (body x s w) as [s1 w1|] eqn:E; [|discriminate].
    apply IH.
    + intros y t v t' v' Hy. apply Hbody. now right.
    + eapply Hbody; [now left|exact Hs|exact E].
Qed.

(** An iteration that throws ends the loop: what follows is not run. *)
Lemma for_each_raise (body : A -> S -> M S) (done : list A) (x : A)
  (rest : list A) (s s1 : S) (w w1 w2 : world) (e : exn) :
  for_each done body s w = Return s1 w1 ->
  body x s1 w1 = Raise e w2 ->
  for_each (done ++ x :: rest) body s w = Raise e w2.
Proof.
  revert s w. induction done as [|y done IH]; intros s w; simpl.
  - intros [= -> ->] Hx. unfold bind. now rewrite Hx.
  - unfold bind. destruct (body y s w); [|discriminate]. apply IH.
Qed.

End Loops.

Section PollCycle.

Import DirWatcherCallbackBase.
Import DirWatcher.

Variable callback : vtable.

(** What one iteration of the walk loop can do to the watcher. *)
Lemma classify_effect (entry : directory_entry) (this this' : t) (w w' : world) :
  classify callback entry this w = Return this' w' ->
  garbage this' = garbage this /\
  stop_flag this' = stop_flag this /\
  replica this' = replica this /\
  synch_interval this' = synch_interval this /\
  (exists evs, reported this' = (reported this ++ evs)%list) /\
  ((source_content this' = source_content this /\
    replica_content this' = replica_content this) \/
   (EntrySet.find (source_content this) entry = None /\
    source_content this' = EntrySet.emplace (source_content this) entry /\
    replica_content this' = EntrySet.emplace (replica_content this) entry)).
Proof.
  destruct (EntrySet.find (source_content this) entry) as [file_entry|] eqn:Hfind.
  - intros Hc.
    destruct (classify_effect_known callback entry file_entry this this' w w'
                Hfind Hc) as [-> ->].
    repeat split; auto. exists []. now rewrite app_nil_r.
  - unfold classify. rewrite Hfind.
    set (this1 := with_sets _ _ this).
    assert (Hrep : forall k, report callback CREATE k entry this1 w = Return this' w' ->
      garbage this' = garbage this /\ stop_flag this' = stop_flag this /\
      replica this' = replica this /\
      synch_interval this' = synch_interval this /\
      (exists evs, reported this' = (reported this ++ evs)%list) /\
      ((source_content this' = source_content this /\
        replica_content this' = replica_content this) \/
       (@None directory_entry = None /\
        source_content this' = EntrySet.emplace (source_content this) entry /\
        replica_content this' = EntrySet.emplace (replica_content this) entry))).
    { intros k. rewrite report_unfold.
      destruct (report_action callback CREATE k (path entry) (replica this1) w);
        [|discriminate].
      intros [= <- <-]. cbn. repeat split; eauto. }
    destruct (is_regular_file entry); [apply Hrep|].
    destruct (is_directory entry); [apply Hrep|].
    intros [= <- <-]. cbn. repeat split; auto.
    exists []. now rewrite app_nil_r.
Qed.

(** What one iteration of the loop over the Snapshot can do. *)
Lemma detect_delete_effect (entry : directory_entry) (this this' : t)
  (w w' : world) :
  detect_delete callback entry this w = Return this' w' ->
  source_content this' = source_content this /\
  replica_content this' = replica_content this /\
  stop_flag this' = stop_flag this /\
  replica this' = replica this /\
  synch_interval this' = synch_interval this /\
  ((garbage this' = garbage this /\ reported this' = reported this) \/
   (garbage this' = (garbage this ++ [entry])%list /\
    reported this'
    = (reported this ++ events_of DELETE (reported_kind entry) entry this)%list)).
Proof.
  unfold detect_delete.
  destruct (_ && _).
  - unfold bind, reported_kind.
    destruct (is_regular_file entry); [|destruct (is_directory entry)];
      try rewrite report_unfold;
      try match goal with
          | |- context [report_action ?c ?a ?k ?p ?r ?w] =>
              destruct (report_action c a k p r w); [|discriminate]
          end;
      intros [= <- <-]; cbn; repeat split; auto.
    right. now rewrite app_nil_r.
  - intros [= <- <-]. repeat split; auto.
Qed.

Lemma poll_stages (this this' : t) (w w' : world) :
  poll callback this w = Return this' w' ->
  exists entries walked w1 mid,
    recursive_directory_iterator (source this) w = Return entries w /\
    for_each entries (classify callback) this w = Return walked w1 /\
    for_each (source_content walked) (detect_delete callback) walked w1
    = Return mid w' /\
    this' = collect_garbage mid.
Proof.
  unfold poll, bind.
  destruct (recursive_directory_iterator (source this) w) as [entries w0|] eqn:E0;
    [|discriminate].
  assert (w0 = w) as ->.
  { unfold recursive_directory_iterator in E0.
    destruct (FS.lookup _ _) as [[]|]; congruence. }
  destruct (for_each entries (classify callback) this w) as [walked w1|] eqn:E1;
    [|discriminate].
  destruct (for_each (source_content walked) (detect_delete callback) walked w1)
    as [mid w2|] eqn:E2; [|discriminate].
  intros [= <- <-]. exists entries, walked, w1, mid. auto.
Qed.

(** The walk only adds to the Snapshot. *)
Lemma walk_effect (entries : list directory_entry) (this walked : t)
  (w w1 : world) :
  for_each entries (classify callback) this w = Return walked w1 ->
  garbage walked = garbage this /\
  stop_flag walked = stop_flag this /\
  replica walked = replica this /\
  synch_interval walked = synch_interval this /\
  (exists evs, reported walked = (reported this ++ evs)%list) /\
  (forall x, In x (source_content this) -> In x (source_content walked)) /\
  (one_per_path (source_content this) -> one_per_path (source_content walked)).
Proof.
  apply (for_each_invariant
    (fun s _ =>
       garbage s = garbage this /\ stop_flag s = stop_flag this /\
       replica s = replica this /\
       synch_interval s = synch_interval this /\
       (exists evs, reported s = (reported this ++ evs)%list) /\
       (forall x, In x (source_content this) -> In x (source_content s)) /\
       (one_per_path (source_content this) -> one_per_path (source_content s)))).
  - intros x s v s' v' _ (Hg & Hf & Hr & Hi & (evs & He) & Hin & Hu) Hc.
    destruct (classify_effect x s s' v v' Hc)
      as (Hg' & Hf' & Hr' & Hi' & (evs' & He') & Hsets).
    repeat split; try congruence.
    + exists (evs ++ evs')%list. rewrite He', He. now rewrite app_assoc.
    + intros y Hy. destruct Hsets as [[-> _]|(_ & -> & _)]; auto.
      apply SetFacts.emplace_keeps; auto.
    + intros H0. destruct Hsets as [[-> _]|(Hn & -> & _)]; auto.
      apply SetFacts.one_per_path_emplace; auto.
  - repeat split; auto. exists []. now rewrite app_nil_r.
Qed.

(** The loop over the Snapshot leaves the sets alone; whatever it puts
    into [garbage] is an element of the Snapshot, and its delete event, if
    it has a reportable kind, has been handed to the reconciler. *)
Lemma scan_effect (walked mid : t) (w1 w2 : world) :
  for_each (source_content walked) (detect_delete callback) walked w1
  = Return mid w2 ->
  source_content mid = source_content walked /\
  replica_content mid = replica_content walked /\
  stop_flag mid = stop_flag walked /\
  replica mid = replica walked /\
  synch_interval mid = synch_interval walked /\
  exists evs,
    reported mid = (reported walked ++ evs)%list /\
    forall g, In g (garbage mid) ->
      In g (garbage walked) \/
      (In g (source_content walked) /\
       forall k, reported_kind g = Some k -> In (event DELETE k g walked) evs).
Proof.
  apply (for_each_invariant
    (fun s _ =>
       source_content s = source_content walked /\
       replica_content s = replica_content walked /\
       stop_flag s = stop_flag walked /\
       replica s = replica walked /\
       synch_interval s = synch_interval walked /\
       exists evs,
         reported s = (reported walked ++ evs)%list /\
         forall g, In g (garbage s) ->
           In g (garbage walked) \/
           (In g (source_content walked) /\
            forall k, reported_kind g = Some k ->
                      In (event DELETE k g walked) evs))).
  - intros x s v s' v' Hx (Hsc & Hrc & Hf & Hr & Hi & evs & He & Hg) Hd.
    destruct (detect_delete_effect x s s' v v' Hd)
      as (Hsc' & Hrc' & Hf' & Hr' & Hi' & Hcases).
    repeat split; try congruence.
    destruct Hcases as [[Hg' He']|[Hg' He']].
    + exists evs. rewrite Hg', He'. auto.
    + exists (evs ++ events_of DELETE (reported_kind x) x s)%list.
      rewrite He', He, app_assoc. split; [reflexivity|].
      intros g. rewrite Hg', in_app_iff. intros [Hin|[<-|[]]].
      * destruct (Hg g Hin) as [|[H1 H2]]; auto.
        right. split; auto. intros k Hk. apply in_app_iff. auto.
      * right. split; [exact Hx|]. intros k Hk. apply in_app_iff. right.
        rewrite Hk. cbn. left. unfold event. now rewrite Hr.
  - repeat split; auto. exists []. rewrite app_nil_r. auto.
Qed.

Lemma some_same_entry (g : list directory_entry) (x : directory_entry) :
  (forall y, In y g -> same_entry x y = false) \/
  (exists y, In y g /\ same_entry x y = true).
Proof.
  induction g as [|y g [IH|(z & Hz & Hs)]].
  - left. intros y [].
  - destruct (same_entry x y) eqn:E.
    + right. exists y. split; [now left|assumption].
    + left. intros z [<-|Hz]; auto.
  - right. exists z. split; [now right|assumption].
Qed.

(** C5, as amended. Within a poll cycle nothing leaves the Snapshot
    before the loop over [garbage], which runs after every event of the
    cycle has been handed to the reconciler. An entry leaves the Snapshot
    there exactly because the delete scan put it into [garbage]; when its
    recorded kind is regular file or directory, the delete event for it was
    reported earlier in the same cycle. *)
Theorem removal_follows_delete_report (this this' : t) (w w' : world) :
  garbage this = [] ->
  one_per_path (source_content this) ->
  poll callback this w = Return this' w' ->
  exists mid evs,
    this' = collect_garbage mid /\
    reported mid = (reported this ++ evs)%list /\
    reported this' = reported mid /\
    (forall x, In x (source_content this) -> In x (source_content mid)) /\
    (forall x, In x (source_content mid) ->
       ~ In x (source_content this') ->
       In x (garbage mid) /\
       forall k, reported_kind x = Some k -> In (event DELETE k x this) evs) /\
    garbage this' = [] /\
    one_per_path (source_content this').
Proof.
  intros Hg Hu Hpoll.
  destruct (poll_stages this this' w w' Hpoll)
    as (entries & walked & w1 & mid & _ & Hwalk & Hscan & ->).
  destruct (walk_effect entries this walked w w1 Hwalk)
    as (Hg1 & _ & Hr1 & _ & (evs1 & He1) & Hin1 & Hu1).
  destruct (scan_effect walked mid w1 w' Hscan)
    as (Hsc & _ & _ & Hr2 & _ & evs2 & He2 & Hgar).
  exists mid, (evs1 ++ evs2)%list.
  assert (Hgar' : forall g, In g (garbage mid) ->
            In g (source_content mid) /\
            forall k, reported_kind g = Some k ->
                      In (event DELETE k g this) (evs1 ++ evs2)%list).
  { intros g Hin. destruct (Hgar g Hin) as [Hbad|[H1 H2]].
    - rewrite Hg1, Hg in Hbad. destruct Hbad.
    - rewrite Hsc. split; [assumption|]. intros k Hk.
      apply in_app_iff. right. specialize (H2 k Hk).
      unfold event in *. now rewrite <- Hr1. }
  repeat split.
  - rewrite He2, He1. now rewrite app_assoc.
  - intros x Hx. rewrite Hsc. auto.
  - destruct (some_same_entry (garbage mid) x) as [Hnone|(y & Hy & Hs)].
    + exfalso. apply H0. cbn. apply SetFacts.in_erase_all. auto.
    + destruct (Hgar' y Hy) as [Hyin _].
      assert (x = y) as <-; [|assumption].
      apply Hu1; try assumption; rewrite <- Hsc; assumption.
  - intros k Hk.
    destruct (some_same_entry (garbage mid) x) as [Hnone|(y & Hy & Hs)].
    + exfalso. apply H0. cbn. apply SetFacts.in_erase_all. auto.
    + destruct (Hgar' y Hy) as [Hyin Hev].
      assert (x = y) as <-; [|auto].
      apply Hu1; try assumption; rewrite <- Hsc; assumption.
  - intros x y Hx Hy. cbn in Hx, Hy.
    apply SetFacts.in_erase_all in Hx, Hy. rewrite Hsc in Hx, Hy.
    apply Hu1; tauto.
Qed.

End PollCycle.

(** C5, counterexample. The first poll puts a named pipe into the
    Snapshot; the pipe is then removed from the source. The second poll
    drops the entry from the Snapshot and no delete event is reported in
    either poll. *)
Lemma pipe_leaves_snapshot_unreported :
  match DirWatcher.poll DirWatcherCallback.cb Examples.fresh
          (Examples.world_with Examples.one_pipe) with
  | Return this1 w1 =>
      DirWatcher.source_content this1 = [Examples.pipe_entry] /\
      match DirWatcher.poll DirWatcherCallback.cb this1
              (set_files (Examples.unlink 16 ["Source"; "pipe"] (files w1)) w1) with
      | Return this2 _ =>
          DirWatcher.source_content this2 = [] /\
          DirWatcher.reported this2 = []
      | Raise _ _ => False
      end
  | Raise _ _ => False
  end.
Proof. vm_compute. repeat split; reflexivity. Qed.

Lemma removal_follows_delete_report_witness :
  match DirWatcher.poll DirWatcherCallback.cb Examples.knows_a_txt
          (Examples.world_with Examples.one_pipe) with
  | Return this' _ =>
      exists mid evs,
        this' = DirWatcher.collect_garbage mid /\
        DirWatcher.reported mid
        = (DirWatcher.reported Examples.knows_a_txt ++ evs)%list /\
        In Examples.a_txt (DirWatcher.garbage mid) /\
        In (event DirWatcherCallbackBase.DELETE DirWatcherCallbackBase.REGULAR
              Examples.a_txt Examples.knows_a_txt) evs
  | Raise _ _ => False
  end.
Proof.
  destruct (DirWatcher.poll DirWatcherCallback.cb Examples.knows_a_txt
              (Examples.world_with Examples.one_pipe)) as [this' w'|e w'] eqn:E.
  - assert (Hu : one_per_path (DirWatcher.source_content Examples.knows_a_txt)).
    { intros x y [<-|[]] [<-|[]] _. reflexivity. }
    destruct (removal_follows_delete_report DirWatcherCallback.cb
                Examples.knows_a_txt this' (Examples.world_with Examples.one_pipe)
                w' eq_refl Hu E)
      as (mid & evs & H1 & H2 & _ & H4 & H5 & _).
    exists mid, evs. split; [exact H1|]. split; [exact H2|].
    assert (Hin : In Examples.a_txt (DirWatcher.source_content mid))
      by (apply H4; left; reflexivity).
    assert (Hout : ~ In Examples.a_txt (DirWatcher.source_content this')).
    { vm_compute in E. injection E as <- _. vm_compute.
      intros [H|[]]. discriminate H. }
    destruct (H5 _ Hin Hout) as [Hg Hev]. split; [exact Hg|].
    apply Hev. reflexivity.
  - vm_compute in E. discriminate E.
Defined.

(* ================================================================== *)
(** * The Snapshot stays inside the Shadow Set *)

Section Invariant.

Import DirWatcherCallbackBase.
Import DirWatcher.

Variable callback : vtable.
Variable env : surroundings.

Lemma ticks_sets (n : nat) (this : t) (w : world) :
  source_content (fst (ticks env n this w)) = source_content this /\
  replica_content (fst (ticks env n this w)) = replica_content this.
Proof.
  revert this w. induction n as [|n IH]; intros this w; simpl; [auto|].
  destruct (IH (with_stop_flag (stop_flag this || interrupt env (clock w)) this)
               (set_clock (clock w + 1)
                  (set_files (mutate env (clock w) (files w)) w))) as [H1 H2].
  rewrite H1, H2. auto.
Qed.

Lemma transition_sets (this this' : t) (w w' : world) :
  transition callback env (this, w) (this', w') ->
  (forall x, EntrySet.contains (replica_content this) x = true ->
             EntrySet.contains (replica_content this') x = true) /\
  (snapshot_in_shadow this -> snapshot_in_shadow this').
Proof.
  intros Hstep. inversion Hstep; subst; clear Hstep.
  - match goal with H : classify _ _ _ _ = _ |- _ =>
      destruct (classify_effect callback _ _ _ _ _ H)
        as (_ & _ & _ & _ & _ & [[Hs Hr]|(_ & Hs & Hr)]) end;
      unfold snapshot_in_shadow; rewrite Hs, Hr; [auto|].
    split.
    + intros x Hx. apply SetFacts.contains_emplace. auto.
    + intros Hinv x Hx. apply SetFacts.contains_emplace.
      apply SetFacts.contains_emplace in Hx. destruct Hx; auto.
  - match goal with H : detect_delete _ _ _ _ = _ |- _ =>
      destruct (detect_delete_effect callback _ _ _ _ _ H)
        as (Hs & Hr & _) end.
    unfold snapshot_in_shadow. rewrite Hs, Hr. auto.
  - split; [auto|]. intros Hinv x Hx. cbn in *. apply Hinv.
    apply SetFacts.contains_iff in Hx. destruct Hx as (y & Hy & Hs).
    apply SetFacts.in_erase in Hy. apply SetFacts.contains_iff.
    exists y. tauto.
  - split; auto.
  - match goal with H : sleep_for _ _ _ _ = _ |- _ =>
      unfold sleep_for in H;
      destruct (ticks_sets (Z.to_nat seconds) this w) as [Hs Hr];
      destruct (ticks env (Z.to_nat seconds) this w);
      injection H as <- <- end.
    cbn in Hs, Hr. unfold snapshot_in_shadow. rewrite Hs, Hr. auto.
Qed.

(** C9. In every state the watcher goes through - after its construction
    and after any number of loop iterations and sleeps - each path of the
    Snapshot is in the Shadow Set, so the membership test that guards
    delete detection succeeds for every element of the Snapshot; and no
    transition takes a path out of the Shadow Set. *)
Theorem snapshot_subset_of_shadow (this : t) (w : world) :
  reachable callback env this w ->
  snapshot_in_shadow this /\
  (forall entry, In entry (source_content this) ->
                 EntrySet.contains (replica_content this) entry = true) /\
  (forall this' w' x,
      transition callback env (this, w) (this', w') ->
      EntrySet.contains (replica_content this) x = true ->
      EntrySet.contains (replica_content this') x = true).
Proof.
  intros Hreach.
  assert (Hinv : snapshot_in_shadow this).
  { induction Hreach as [| this w this' w' _ IH Hstep].
    - intros x Hx. discriminate Hx.
    - now apply (transition_sets this this' w w'). }
  split; [exact Hinv|]. split.
  - intros entry Hin. apply Hinv. apply SetFacts.contains_iff.
    exists entry. split; [assumption|apply same_entry_refl].
  - intros this' w' x Hstep. now apply (transition_sets this this' w w').
Qed.

(** The seconds a poll cycle takes go by as those of a sleep do. *)
Lemma busy_for_sleep (this : t) (w : world) :
  busy_for env this w = sleep_for env (Z.of_nat (busy env (clock w))) this w.
Proof. unfold busy_for, sleep_for. now rewrite Nat2Z.id. Qed.

(** The loops of [poll] and [run_internal] move along transitions. *)
Lemma poll_reachable (this this' : t) (w w' : world) :
  reachable callback env this w ->
  poll callback this w = Return this' w' ->
  reachable callback env this' w'.
Proof.
  intros Hreach Hpoll.
  destruct (poll_stages callback this this' w w' Hpoll)
    as (entries & walked & w1 & mid & _ & Hwalk & Hscan & ->).
  assert (H1 : reachable callback env walked w1).
  { revert Hwalk. apply (for_each_invariant (reachable callback env)); auto.
    intros x s v s' v' _ Hs Hc.
    eapply after_transition; [exact Hs|]. eapply walk_iteration; exact Hc. }
  assert (H2 : reachable callback env mid w').
  { revert Hscan. apply (for_each_invariant (reachable callback env)); auto.
    intros x s v s' v' _ Hs Hc.
    eapply after_transition; [exact Hs|]. eapply scan_iteration; exact Hc. }
  clear - H2. unfold collect_garbage.
  assert (H3 : forall g s, reachable callback env s w' ->
            reachable callback env
              (with_sets (fold_left EntrySet.erase g (source_content s))
                         (replica_content s) s) w').
  { induction g as [|elem g IH]; intros s Hs; simpl.
    - destruct s. exact Hs.
    - apply (IH (with_sets (EntrySet.erase (source_content s) elem)
                           (replica_content s) s)).
      eapply after_transition; [exact Hs|]. apply erase_iteration. }
  eapply after_transition; [apply (H3 (garbage mid) mid H2)|].
  apply garbage_clear.
Qed.

Lemma run_internal_reachable (fuel : nat) (this this' : t) (w w' : world) :
  reachable callback env this w ->
  run_internal fuel env callback this w = Return (Some this') w' ->
  reachable callback env this' w'.
Proof.
  revert this w. induction fuel as [|fuel IH]; intros this w Hreach; simpl.
  - discriminate.
  - destruct (stop_flag this); simpl.
    + intros [= <- <-]. exact Hreach.
    + unfold bind.
      destruct (sleep_for env (chrono_seconds (synch_interval this)) this w)
        as [this1 w1|] eqn:E1; [|discriminate].
      destruct (poll callback this1 w1) as [this2 w2|] eqn:E2; [|discriminate].
      destruct (busy_for env this2 w2) as [this3 w3|] eqn:E3; [|discriminate].
      apply IH. rewrite busy_for_sleep in E3.
      eapply after_transition; [|eapply sleep; exact E3].
      eapply poll_reachable; [|exact E2].
      eapply after_transition; [exact Hreach|]. eapply sleep. exact E1.
Qed.

End Invariant.

Lemma snapshot_subset_of_shadow_witness :
  match DirWatcher.classify DirWatcherCallback.cb Examples.a_txt
          Examples.fresh (Examples.world_with Examples.one_file) with
  | Return this' _ =>
      snapshot_in_shadow this' /\
      EntrySet.contains (DirWatcher.replica_content this') Examples.a_txt = true
  | Raise _ _ => False
  end.
Proof.
  destruct (DirWatcher.classify DirWatcherCallback.cb Examples.a_txt
              Examples.fresh (Examples.world_with Examples.one_file))
    as [this' w'|e w'] eqn:E.
  - assert (Hr : reachable DirWatcherCallback.cb Examples.quiet this' w').
    { eapply after_transition;
        [apply (at_construction DirWatcherCallback.cb Examples.quiet
                  "Source" "Replica" 5 "log.txt"
                  (Examples.world_with Examples.one_file))|].
      eapply walk_iteration. exact E. }
    destruct (snapshot_subset_of_shadow DirWatcherCallback.cb Examples.quiet
                this' w' Hr) as (H1 & H2 & _).
    split; [exact H1|]. apply H2.
    vm_compute in E. injection E as <- _. left. reflexivity.
  - vm_compute in E. discriminate E.
Defined.

(* ================================================================== *)
(** * Failures of the reconciler *)

Section Severity.

Local Open Scope prog_scope.

Lemma logs_info_same_world {A : Type} (m : M A) :
  (forall w, log_lines (world_of (m w)) = log_lines w) -> logs_info_only m.
Proof.
  intros H w. exists []. rewrite app_nil_r. split; [apply H|constructor].
Qed.

Lemma logs_info_ret {A : Type} (a : A) : logs_info_only (ret a).
Proof. now apply logs_info_same_world. Qed.

Lemma logs_info_throw {A : Type} (e : exn) : logs_info_only (@throw A e).
Proof. now apply logs_info_same_world. Qed.

Lemma logs_info_bind {A B : Type} (m : M A) (k : A -> M B) :
  logs_info_only m -> (forall a, logs_info_only (k a)) ->
  logs_info_only (bind m k).
Proof.
  intros Hm Hk w. unfold bind. destruct (Hm w) as (l1 & E1 & F1).
  destruct (m w) as [a w1|e w1]; cbn [world_of] in *.
  - destruct (Hk a w1) as (l2 & E2 & F2). exists (l1 ++ l2)%list.
    rewrite E2, E1, app_assoc. split; [reflexivity|].
    apply Forall_app. auto.
  - exists l1. auto.
Qed.

Lemma logs_info_logf (FILE : string) (LINE : Z) (msg : string) :
  logs_info_only (logf Logger.INFO FILE LINE msg).
Proof.
  intros w. rewrite logf_unfold by reflexivity. destruct (logger_this_ptr w).
  - cbn [world_of].
    destruct (logf_internal_rest t Logger.INFO FILE LINE msg w) as (_ & _ & -> & _).
    exists [{| Logger.severity := Logger.INFO; Logger.text := msg |}].
    split; [reflexivity|]. repeat constructor.
  - exists []. rewrite app_nil_r. split; [reflexivity|constructor].
Qed.

Lemma logs_info_get_filename (p : string) :
  logs_info_only (DirWatcherCallback.get_filename p).
Proof.
  apply logs_info_same_world. intros w. unfold DirWatcherCallback.get_filename.
  destruct (Str.substr _ _ _); reflexivity.
Qed.

Lemma logs_info_get_file_str (f : DirWatcherCallbackBase.file_t) :
  logs_info_only (DirWatcherCallbackBase.get_file_str f).
Proof. apply logs_info_same_world. intros w. destruct f; reflexivity. Qed.

Lemma logs_info_fs_call (what : string) (op : Z -> FS.node -> option FS.node) :
  logs_info_only (fs_call what op).
Proof.
  apply logs_info_same_world. intros w. unfold fs_call.
  destruct (op _ _); reflexivity.
Qed.

Lemma logs_info_copy_file (from to : string) :
  logs_info_only (fs_copy_file from to).
Proof. apply logs_info_fs_call. Qed.

Lemma logs_info_copy (from to : string) : logs_info_only (fs_copy from to).
Proof.
  apply logs_info_same_world. intros w. unfold fs_copy.
  destruct (FS.copy _ _ _ _ _); reflexivity.
Qed.

Lemma logs_info_last_write_time (e : directory_entry) :
  logs_info_only (last_write_time e).
Proof.
  apply logs_info_same_world. intros w. unfold last_write_time.
  destruct (FS.lookup _ _); reflexivity.
Qed.

Lemma logs_info_remove (p : string) : logs_info_only (fs_remove p).
Proof. apply logs_info_fs_call. Qed.

Lemma logs_info_remove_all (p : string) : logs_info_only (fs_remove_all p).
Proof. apply logs_info_fs_call. Qed.

Create HintDb severity.

#[local] Hint Resolve logs_info_ret logs_info_throw logs_info_logf
  logs_info_get_filename logs_info_get_file_str logs_info_copy_file
  logs_info_copy logs_info_remove logs_info_remove_all : severity.

Ltac info_only :=
  repeat first
    [ apply logs_info_bind; [|intros ?]
    | solve [auto with severity] ].

(** The reconciler logs at informational severity and at no other. *)
Lemma logs_info_report_action
  (action : DirWatcherCallbackBase.action_t)
  (file : DirWatcherCallbackBase.file_t) (p d : string) :
  logs_info_only (DirWatcherCallback.report_action action file p d).
Proof.
  unfold DirWatcherCallback.report_action.
  destruct (_ && _); [info_only|].
  destruct (_ && _); [info_only|].
  destruct (_ && _); [info_only|].
  destruct (_ && _); info_only.
Qed.

Lemma logs_info_for_each {A S : Type} (body : A -> S -> M S) (xs : list A) :
  (forall x s, logs_info_only (body x s)) ->
  forall s, logs_info_only (DirWatcher.for_each xs body s).
Proof.
  intros Hbody. induction xs as [|x xs IH]; intros s; simpl.
  - apply logs_info_ret.
  - apply logs_info_bind; auto.
Qed.

Lemma logs_info_report (a : DirWatcherCallbackBase.action_t)
  (f : DirWatcherCallbackBase.file_t) (entry : directory_entry)
  (this : DirWatcher.t) :
  logs_info_only (DirWatcher.report DirWatcherCallback.cb a f entry this).
Proof.
  unfold DirWatcher.report. apply logs_info_bind.
  - apply logs_info_report_action.
  - intros _. apply logs_info_ret.
Qed.

Lemma logs_info_poll (this : DirWatcher.t) :
  logs_info_only (DirWatcher.poll DirWatcherCallback.cb this).
Proof.
  unfold DirWatcher.poll. apply logs_info_bind.
  { apply logs_info_same_world. intros w. unfold recursive_directory_iterator.
    destruct (FS.lookup _ _) as [[]|]; reflexivity. }
  intros entries. apply logs_info_bind.
  { apply logs_info_for_each. intros x s. unfold DirWatcher.classify.
    destruct (EntrySet.find _ _).
    - apply logs_info_bind; [apply logs_info_last_write_time|intros ?].
      apply logs_info_bind; [apply logs_info_last_write_time|intros ?].
      destruct (_ <? _); [|apply logs_info_ret].
      destruct (is_regular_file x); [apply logs_info_report|].
      destruct (is_directory x); [apply logs_info_report|apply logs_info_ret].
    - destruct (is_regular_file x); [apply logs_info_report|].
      destruct (is_directory x); [apply logs_info_report|apply logs_info_ret]. }
  intros walked. apply logs_info_bind; [|intros mid; apply logs_info_ret].
  apply logs_info_for_each. intros x s w. unfold DirWatcher.detect_delete.
  destruct (_ && _).
  - revert w. apply logs_info_bind; [|intros ?; apply logs_info_ret].
    destruct (is_regular_file x); [apply logs_info_report|].
    destruct (is_directory x); [apply logs_info_report|apply logs_info_ret].
  - exists []. rewrite app_nil_r. split; [reflexivity|constructor].
Qed.

(** C3, counterexample. There is no [Replica] directory, so the copy for
    the first create event fails. The process ends on the uncaught
    exception; the log holds the informational line written before the
    copy and no line of error severity, and the second file of the source
    is never handled. *)
Lemma copy_failure_ends_process :
  let r := Main.main 3 Examples.quiet
             ["DirSynchronizer"; "Source"; "Replica"; "5"; "log.txt"]
             (Examples.at_start Examples.no_replica) in
  Main.ended r = Main.terminated (filesystem_error "copy_file") /\
  log_lines (Main.final r)
  = [{| Logger.severity := Logger.INFO;
        Logger.text := "Regular file a.txt has been created in Replica | Source/a.txt" |}].
Proof. vm_compute. split; reflexivity. Qed.

(** [report_action] is the log line and the file operation of the event,
    in the order the kind of the object gives. *)
Lemma report_action_parts
  (a : DirWatcherCallbackBase.action_t) (f : DirWatcherCallbackBase.file_t)
  (p d : string) (w : world) :
  Str.size p < 2 ^ 31 ->
  DirWatcherCallback.report_action a f p d w =
    match f with
    | DirWatcherCallbackBase.REGULAR => (log_line a f p ;;; file_operation a f p d) w
    | _ => (file_operation a f p d ;;; log_line a f p) w
    end.
Proof.
  intros Hp. rewrite report_action_branches by exact Hp.
  destruct a, f; try reflexivity; unfold bind, file_operation, log_line, ret;
    match goal with
    | |- context [fs_copy ?a ?b ?x] => destruct (fs_copy a b x) as [[]|]
    | |- context [fs_remove_all ?a ?x] => destruct (fs_remove_all a x) as [[]|]
    end; reflexivity.
Qed.

(** A file operation that fails makes [report_action] throw, in the
    world the failed operation left. *)
Lemma failed_operation_throws
  (a : DirWatcherCallbackBase.action_t) (f : DirWatcherCallbackBase.file_t)
  (p d : string) (w w' : world) (e : exn) :
  Str.size p < 2 ^ 31 ->
  logger_this_ptr w <> None ->
  file_operation a f p d (world_at_operation a f p w) = Raise e w' ->
  DirWatcherCallback.report_action a f p d w = Raise e w'.
Proof.
  intros Hp Hlg. rewrite report_action_parts by exact Hp.
  unfold world_at_operation, bind.
  destruct f; try (intros ->; reflexivity).
  destruct (log_line a DirWatcherCallbackBase.REGULAR p w) as [[] w1|e1 w1] eqn:E;
    [cbn [world_of]; intros H; exact H|].
  exfalso. unfold log_line in E.
  destruct a; try discriminate E;
    rewrite logf_unfold in E by reflexivity;
    destruct (logger_this_ptr w); congruence.
Qed.

(** C3, as amended. A change event whose file operation fails makes
    [report_action] throw, and nothing catches the exception: the loop in
    which it was thrown stops at that event, the rest of the poll cycle is
    abandoned, and [run_internal] ends with that exception, in the world
    the failed operation left, instead of going on to the next event and
    the next cycle. This holds for the create event of an entry met in the
    walk and for the delete event of an entry of the delete scan (the
    classifier reports no other events). Whatever was written to the log
    in the cycle has informational severity; no record of error severity
    is written. *)
Theorem failed_event_ends_worker
  (fuel : nat) (env : DirWatcher.surroundings)
  (this this1 : DirWatcher.t) (w w1 : world) (entries : list directory_entry) :
  DirWatcher.stop_flag this = false ->
  DirWatcher.sleep_for env
    (DirWatcher.chrono_seconds (DirWatcher.synch_interval this)) this w
  = Return this1 w1 ->
  recursive_directory_iterator (DirWatcher.source this1) w1 = Return entries w1 ->
  (forall (done rest : list directory_entry) (entry : directory_entry)
          (s : DirWatcher.t) (v v' : world)
          (kind : DirWatcherCallbackBase.file_t) (e : exn),
      entries = (done ++ entry :: rest)%list ->
      DirWatcher.for_each done (DirWatcher.classify DirWatcherCallback.cb) this1 w1
      = Return s v ->
      EntrySet.find (DirWatcher.source_content s) entry = None ->
      reported_kind entry = Some kind ->
      Str.size (path entry) < 2 ^ 31 ->
      logger_this_ptr v <> None ->
      file_operation DirWatcherCallbackBase.CREATE kind (path entry)
        (DirWatcher.replica s)
        (world_at_operation DirWatcherCallbackBase.CREATE kind (path entry) v)
      = Raise e v' ->
      DirWatcherCallback.report_action DirWatcherCallbackBase.CREATE kind
        (path entry) (DirWatcher.replica s) v = Raise e v' /\
      DirWatcher.poll DirWatcherCallback.cb this1 w1 = Raise e v' /\
      DirWatcher.run_internal (S fuel) env DirWatcherCallback.cb this w
      = Raise e v' /\
      exists lines,
        log_lines v' = (log_lines w1 ++ lines)%list /\
        Forall (fun r => Logger.severity r = Logger.INFO) lines)
  /\
  (forall (walked : DirWatcher.t) (w2 : world)
          (done rest : list directory_entry) (entry : directory_entry)
          (s : DirWatcher.t) (v v' : world)
          (kind : DirWatcherCallbackBase.file_t) (e : exn),
      DirWatcher.for_each entries (DirWatcher.classify DirWatcherCallback.cb)
        this1 w1 = Return walked w2 ->
      DirWatcher.source_content walked = (done ++ entry :: rest)%list ->
      DirWatcher.for_each done (DirWatcher.detect_delete DirWatcherCallback.cb)
        walked w2 = Return s v ->
      EntrySet.contains (DirWatcher.replica_content s) entry = true ->
      fs_exists (path entry) v = false ->
      reported_kind entry = Some kind ->
      Str.size (path entry) < 2 ^ 31 ->
      logger_this_ptr v <> None ->
      file_operation DirWatcherCallbackBase.DELETE kind (path entry)
        (DirWatcher.replica s)
        (world_at_operation DirWatcherCallbackBase.DELETE kind (path entry) v)
      = Raise e v' ->
      DirWatcherCallback.report_action DirWatcherCallbackBase.DELETE kind
        (path entry) (DirWatcher.replica s) v = Raise e v' /\
      DirWatcher.poll DirWatcherCallback.cb this1 w1 = Raise e v' /\
      DirWatcher.run_internal (S fuel) env DirWatcherCallback.cb this w
      = Raise e v' /\
      exists lines,
        log_lines v' = (log_lines w1 ++ lines)%list /\
        Forall (fun r => Logger.severity r = Logger.INFO) lines).
Proof.
  intros Hflag Hsleep Hwalk.
  assert (Hend : forall e v',
            DirWatcher.poll DirWatcherCallback.cb this1 w1 = Raise e v' ->
            DirWatcher.poll DirWatcherCallback.cb this1 w1 = Raise e v' /\
            DirWatcher.run_internal (S fuel) env DirWatcherCallback.cb this w
            = Raise e v' /\
            exists lines,
              log_lines v' = (log_lines w1 ++ lines)%list /\
              Forall (fun r => Logger.severity r = Logger.INFO) lines).
  { intros e v' Hpoll. split; [exact Hpoll|]. split.
    - simpl. rewrite Hflag. unfold bind. cbn [negb]. now rewrite Hsleep, Hpoll.
    - pose proof (logs_info_poll this1 w1) as H. now rewrite Hpoll in H. }
  split.
  - intros done rest entry s v v' kind e -> Hdone Hfind Hkind Hp Hlg Hop.
    pose proof (failed_operation_throws _ _ _ _ _ _ _ Hp Hlg Hop) as Hra.
    split; [exact Hra|]. apply Hend.
    unfold DirWatcher.poll, bind. rewrite Hwalk.
    rewrite (for_each_raise (DirWatcher.classify DirWatcherCallback.cb)
               done entry rest this1 s w1 v v' e Hdone); [reflexivity|].
    unfold DirWatcher.classify. rewrite Hfind.
    unfold reported_kind in Hkind.
    destruct (is_regular_file entry);
      [|destruct (is_directory entry); [|discriminate Hkind]];
      injection Hkind as <-; unfold DirWatcher.report, bind;
      cbn [DirWatcherCallbackBase.report_action DirWatcherCallback.cb
           DirWatcher.replica DirWatcher.with_sets];
      cbn [DirWatcher.replica DirWatcher.with_sets] in Hra;
      now rewrite Hra.
  - intros walked w2 done rest entry s v v' kind e Hwalked Hsc Hdone Hin Hgone
           Hkind Hp Hlg Hop.
    pose proof (failed_operation_throws _ _ _ _ _ _ _ Hp Hlg Hop) as Hra.
    split; [exact Hra|]. apply Hend.
    unfold DirWatcher.poll, bind. rewrite Hwalk, Hwalked, Hsc.
    rewrite (for_each_raise (DirWatcher.detect_delete DirWatcherCallback.cb)
               done entry rest walked s w2 v v' e Hdone); [reflexivity|].
    unfold DirWatcher.detect_delete. rewrite Hin, Hgone. cbn [andb negb].
    unfold reported_kind in Hkind. unfold bind at 1.
    destruct (is_regular_file entry);
      [|destruct (is_directory entry); [|discriminate Hkind]];
      injection Hkind as <-; unfold DirWatcher.report, bind;
      cbn [DirWatcherCallbackBase.report_action DirWatcherCallback.cb];
      now rewrite Hra.
Qed.

End Severity.

Lemma failed_event_ends_worker_witness :
  (exists v',
     DirWatcher.run_internal 1 Examples.quiet DirWatcherCallback.cb Examples.fresh
       (Examples.world_with Examples.no_replica)
     = Raise (filesystem_error "copy_file") v' /\
     map Logger.text (log_lines v')
     = ["Regular file a.txt has been created in Replica | Source/a.txt"]) /\
  (exists v',
     DirWatcher.run_internal 1 Examples.quiet DirWatcherCallback.cb
       Examples.knows_a_txt (Examples.world_with Examples.copy_replaced)
     = Raise (filesystem_error "remove") v' /\
     map Logger.text (log_lines v')
     = ["Regular file a.txt has been deleted from Replica | Source/a.txt"]).
Proof.
  split.
  - destruct (failed_event_ends_worker 0 Examples.quiet
                Examples.fresh Examples.fresh
                (Examples.world_with Examples.no_replica)
                (set_clock 15 (Examples.world_with Examples.no_replica))
                [Examples.a_txt; Examples.b_txt]) as [Hwalk _];
      [reflexivity|reflexivity|reflexivity|].
    eexists. split.
    + refine (proj1 (proj2 (proj2
        (Hwalk [] [Examples.b_txt] Examples.a_txt Examples.fresh
           (set_clock 15 (Examples.world_with Examples.no_replica)) _
           DirWatcherCallbackBase.REGULAR (filesystem_error "copy_file")
           _ _ _ _ _ _ _))));
        [reflexivity|reflexivity|reflexivity|reflexivity|reflexivity
        |discriminate|vm_compute; reflexivity].
    + reflexivity.
  - destruct (failed_event_ends_worker 0 Examples.quiet
                Examples.knows_a_txt Examples.knows_a_txt
                (Examples.world_with Examples.copy_replaced)
                (set_clock 15 (Examples.world_with Examples.copy_replaced))
                []) as [_ Hscan];
      [reflexivity|reflexivity|reflexivity|].
    eexists. split.
    + refine (proj1 (proj2 (proj2
        (Hscan Examples.knows_a_txt
           (set_clock 15 (Examples.world_with Examples.copy_replaced))
           [] [] Examples.a_txt Examples.knows_a_txt
           (set_clock 15 (Examples.world_with Examples.copy_replaced)) _
           DirWatcherCallbackBase.REGULAR (filesystem_error "remove")
           _ _ _ _ _ _ _ _ _))));
        [reflexivity|reflexivity|reflexivity|reflexivity|reflexivity
        |reflexivity|reflexivity|discriminate|vm_compute; reflexivity].
    + reflexivity.
Defined.
(* ================================================================== *)
(** * The sleep and the stop flag *)

Section Sleep.

Import DirWatcher.
Local Open Scope prog_scope.

Variable env : surroundings.

Lemma ticks_clock (n : nat) (this : t) (w : world) :
  clock (snd (ticks env n this w)) = clock w + Z.of_nat n.
Proof.
  revert this w. induction n as [|n IH]; intros this w.
  - simpl. lia.
  - cbn [ticks]. rewrite IH. cbn. lia.
Qed.

Lemma ticks_flag_kept (n : nat) (this : t) (w : world) :
  stop_flag this = true -> stop_flag (fst (ticks env n this w)) = true.
Proof.
  revert this w. induction n as [|n IH]; intros this w H; [exact H|].
  cbn [ticks]. apply IH. cbn. now rewrite H.
Qed.

Lemma ticks_flag_raised (n : nat) (this : t) (w : world) (time : Z) :
  clock w <= time < clock w + Z.of_nat n ->
  interrupt env time = true ->
  stop_flag (fst (ticks env n this w)) = true.
Proof.
  revert this w. induction n as [|n IH]; intros this w Hrange Hint; [lia|].
  cbn [ticks].
  destruct (Z.eq_dec time (clock w)) as [->|Hne].
  - apply ticks_flag_kept. cbn. rewrite Hint. apply orb_true_r.
  - apply IH; [cbn; lia|exact Hint].
Qed.

Lemma chrono_seconds_small (n : Z) :
  0 <= n < 2 ^ 63 -> chrono_seconds n = n.
Proof.
  intros H. unfold chrono_seconds. rewrite Z.mod_small by lia. lia.
Qed.

Lemma poll_keeps_flag (callback : DirWatcherCallbackBase.vtable)
  (this this' : t) (w w' : world) :
  poll callback this w = Return this' w' -> stop_flag this' = stop_flag this.
Proof.
  intros Hpoll.
  destruct (poll_stages callback this this' w w' Hpoll)
    as (entries & walked & w1 & mid & _ & Hwalk & Hscan & ->).
  destruct (walk_effect callback entries this walked w w1 Hwalk) as (_ & H1 & _).
  destruct (scan_effect callback walked mid w1 w' Hscan) as (_ & _ & H2 & _).
  cbn. congruence.
Qed.

(** C6, counterexample. The interval is 5 seconds and the worker starts
    to sleep at second 10; the interrupt arrives at second 11. The worker
    leaves its loop at second 15, after the whole interval and after a
    poll cycle that copied [a.txt]. *)
Lemma interrupt_waits_for_interval :
  match run_internal 2 Examples.early_interrupt DirWatcherCallback.cb
          Examples.fresh (Examples.world_with Examples.one_file) with
  | Return (Some this') w' =>
      clock w' = 15 /\
      reported this'
      = [event DirWatcherCallbackBase.CREATE DirWatcherCallbackBase.REGULAR
           Examples.a_txt Examples.fresh]
  | _ => False
  end.
Proof. vm_compute. split; reflexivity. Qed.

(** C6, as amended. The sleep between polls is a plain sleep for the
    whole interval, and the stop flag is read only at the top of the loop.
    If the flag is raised while the worker sleeps, the worker still sleeps
    until the interval is over, then runs one complete poll cycle, and only
    then, after the time that cycle takes, sees the flag and leaves the
    loop. *)
Theorem stop_during_sleep_is_seen_after_cycle
  (callback : DirWatcherCallbackBase.vtable) (fuel : nat)
  (this : t) (w : world) (time : Z) :
  stop_flag this = false ->
  0 <= synch_interval this < 2 ^ 63 ->
  clock w <= time < clock w + synch_interval this ->
  interrupt env time = true ->
  exists this1 w1,
    sleep_for env (chrono_seconds (synch_interval this)) this w
    = Return this1 w1 /\
    clock w1 = clock w + synch_interval this /\
    stop_flag this1 = true /\
    run_internal (S (S fuel)) env callback this w
    = (this2 <- poll callback this1 ;;
       this3 <- busy_for env this2 ;;
       ret (Some this3)) w1.
Proof.
  intros Hflag Hint Hrange Hraise.
  rewrite chrono_seconds_small by exact Hint.
  unfold sleep_for.
  pose proof (ticks_clock (Z.to_nat (synch_interval this)) this w) as Hc.
  pose proof (ticks_flag_raised (Z.to_nat (synch_interval this)) this w time)
    as Hf.
  rewrite Z2Nat.id in Hc, Hf by lia. specialize (Hf Hrange Hraise).
  cbn [run_internal]. rewrite Hflag. cbn [negb]. unfold bind at 1.
  rewrite chrono_seconds_small by exact Hint. unfold sleep_for.
  destruct (ticks env (Z.to_nat (synch_interval this)) this w)
    as [this1 w1]. cbn [fst snd] in Hc, Hf.
  exists this1, w1. repeat split; try assumption.
  unfold bind. destruct (poll callback this1 w1) as [this2 w2|e w2] eqn:Hpoll;
    [|reflexivity].
  unfold busy_for.
  pose proof (ticks_flag_kept (busy env (clock w2)) this2 w2) as Hk.
  rewrite (poll_keeps_flag callback this1 this2 w1 w2 Hpoll) in Hk.
  specialize (Hk Hf).
  destruct (ticks env (busy env (clock w2)) this2 w2) as [this3 w3].
  cbn [fst] in Hk. cbn [run_internal]. now rewrite Hk.
Qed.

End Sleep.

Lemma stop_during_sleep_is_seen_after_cycle_witness :
  exists this1 w1,
    DirWatcher.sleep_for Examples.early_interrupt
      (DirWatcher.chrono_seconds (DirWatcher.synch_interval Examples.fresh))
      Examples.fresh (Examples.world_with Examples.one_file)
    = Return this1 w1 /\
    clock w1 = 10 + 5 /\
    DirWatcher.stop_flag this1 = true.
Proof.
  destruct (stop_during_sleep_is_seen_after_cycle Examples.early_interrupt
              DirWatcherCallback.cb 0 Examples.fresh
              (Examples.world_with Examples.one_file) 11)
    as (this1 & w1 & H1 & H2 & H3 & _).
  - reflexivity.
  - split; [discriminate|reflexivity].
  - split; [discriminate|reflexivity].
  - reflexivity.
  - exists this1, w1. split; [exact H1|]. split; [exact H2|exact H3].
Defined.

(* ================================================================== *)
(** * The command line *)

Section CommandLine.

Import Main.

(** Opening the log file changes the tree and nothing else. *)
Lemma open_ofstream_rest (filename : string) (w w' : world) :
  open_ofstream filename w = Some w' ->
  clock w' = clock w /\ logger_this_ptr w' = logger_this_ptr w /\
  log_lines w' = log_lines w /\ cout w' = cout w.
Proof.
  unfold open_ofstream.
  destruct (FS.lookup _ _) as [[]|]; try discriminate;
    destruct (FS.put _ _ _ _); try discriminate; intros [= <-]; cbn; auto.
Qed.

(** The world in which [main] goes on after it has constructed the
    stream of the logger. *)
Lemma opened_rest (filename : string) (w : world) :
  let w' := match open_ofstream filename w with Some w' => w' | None => w end in
  clock w' = clock w /\ logger_this_ptr w' = logger_this_ptr w /\
  log_lines w' = log_lines w /\ cout w' = cout w.
Proof.
  destruct (open_ofstream filename w) as [w'|] eqn:E; cbn; [|auto].
  now apply (open_ofstream_rest filename).
Qed.

(** C7, on the code. With fewer than four positional arguments the first
    statement of [main] already goes wrong: the logger is constructed from
    [argv[4]], which is the terminating null pointer (three arguments) or
    lies past the array (fewer). The behaviour is undefined; no usage
    message is printed and the test of the argument count is never
    reached. *)
Theorem too_few_arguments_undefined
  (fuel : nat) (env : DirWatcher.surroundings) (argv : list string) (w : world) :
  (List.length argv < 5)%nat ->
  logger_this_ptr w = None ->
  (exists why, ended (main fuel env argv w) = undefined why) /\
  cout (final (main fuel env argv w)) = cout w /\
  watcher (main fuel env argv w) = None.
Proof.
  intros Hlen Hlog. unfold main, argv_at.
  destruct (nth_error argv 4) as [s|] eqn:E.
  - assert (nth_error argv 4 <> None) as H by congruence.
    apply nth_error_Some in H. lia.
  - destruct (Nat.eqb 4 (List.length argv)).
    + rewrite Hlog. cbn. eauto.
    + cbn. eauto.
Qed.

(** With more than four positional arguments the logger is constructed,
    the usage message is printed and the process exits with failure
    status; no watcher is constructed. *)
Lemma too_many_arguments_usage
  (fuel : nat) (env : DirWatcher.surroundings) (argv : list string) (w : world) :
  (5 < List.length argv)%nat ->
  logger_this_ptr w = None ->
  ended (main fuel env argv w) = exited EXIT_FAILURE /\
  cout (final (main fuel env argv w)) = (cout w ++ [usage])%list /\
  watcher (main fuel env argv w) = None.
Proof.
  intros Hlen Hlog. unfold main, argv_at.
  destruct (nth_error argv 4) as [s|] eqn:E.
  - destruct (opened_rest s w) as (_ & Hl & _ & Hc). cbv zeta in Hl, Hc.
    rewrite Hl, Hlog.
    destruct (Z.eqb_spec (Z.of_nat (List.length argv)) 5); [lia|].
    cbn. now rewrite Hc.
  - apply nth_error_None in E. lia.
Qed.

End CommandLine.

Lemma too_few_arguments_undefined_witness :
  Main.ended (Main.main 3 Examples.quiet
                ["DirSynchronizer"; "Source"; "Replica"; "5"]
                (Examples.at_start Examples.one_file))
  = Main.undefined "outf->open(filename) is called on a null outf" /\
  cout (Main.final (Main.main 3 Examples.quiet
                      ["DirSynchronizer"; "Source"; "Replica"; "5"]
                      (Examples.at_start Examples.one_file))) = [].
Proof.
  split; [reflexivity|].
  apply (too_few_arguments_undefined 3 Examples.quiet
           ["DirSynchronizer"; "Source"; "Replica"; "5"]
           (Examples.at_start Examples.one_file)).
  - simpl. lia.
  - reflexivity.
Defined.

(* ================================================================== *)
(** * Applying an event twice *)

Section Idempotence.

Import DirWatcherCallbackBase.

Lemma get_filename_outcome (p : string) :
  (exists s, forall w, DirWatcherCallback.get_filename p w = Return s w) \/
  (exists e, forall w, DirWatcherCallback.get_filename p w = Raise e w).
Proof.
  unfold DirWatcherCallback.get_filename.
  destruct (Str.substr _ _ _) as [s|]; [left|right]; eauto.
Qed.

Lemma child_erase_children (name : string) (ch : list (string * FS.node)) :
  FS.child name (FS.erase_children ch)
  = option_map FS.erase_times (FS.child name ch).
Proof.
  induction ch as [|[k x] ch IH]; simpl; [reflexivity|].
  destruct (String.eqb k name); [reflexivity|exact IH].
Qed.

(** Path resolution does not look at timestamps. *)
Lemma lookup_erase_times (b : list string) (n : FS.node) :
  FS.lookup b (FS.erase_times n) = option_map FS.erase_times (FS.lookup b n).
Proof.
  revert n. induction b as [|c b IH]; intros n; [reflexivity|].
  destruct n as [x m|ch m|m]; try reflexivity.
  cbn [FS.erase_times FS.lookup].
  change (map (fun kx => (fst kx, FS.erase_times (snd kx))) ch)
    with (FS.erase_children ch).
  rewrite child_erase_children.
  destruct (FS.child c ch) as [n'|]; [apply IH|reflexivity].
Qed.

Lemma lookup_erased (b : list string) (r r' : FS.node) :
  FS.erase_times r = FS.erase_times r' ->
  option_map FS.erase_times (FS.lookup b r)
  = option_map FS.erase_times (FS.lookup b r').
Proof. intros H. now rewrite <- !lookup_erase_times, H. Qed.

(** [fs::copy_file] onto a copy of the same file. *)
Lemma copy_file_onto_copy (later : Z) (from to : list string) (c : string)
  (m m' : Z) (root : FS.node) :
  Path.same from to = false ->
  FS.lookup from root = Some (FS.File c m) ->
  FS.lookup to root = Some (FS.File c m') ->
  exists root2,
    FS.copy_file later from to root = Some root2 /\
    FS.erase_times root2 = FS.erase_times root.
Proof.
  intros Hd Hf Ht. unfold FS.copy_file. rewrite Hd, Hf, Ht. cbn.
  destruct (FSFacts.put_over later to (FS.File c later) (FS.File c m') root Ht)
    as (root2 & -> & H).
  exists root2. split; [reflexivity|]. now apply H.
Qed.

(** [fs::copy] onto the result of a copy of the same object. *)
Lemma copy_onto_copy (t1 later : Z) (name : string) (from to : list string)
  (f r : FS.node) (t0 : option FS.node) (root : FS.node) :
  Path.same from to = false ->
  FS.well_formed f = true ->
  FS.copy_node t1 name f t0 = Some r ->
  FS.lookup from root = Some f ->
  FS.lookup to root = Some r ->
  exists root2,
    FS.copy later name from to root = Some root2 /\
    FS.erase_times root2 = FS.erase_times root.
Proof.
  intros Hd Hwf Hc Hf Ht. unfold FS.copy. rewrite Hf, Hd, Ht.
  destruct (FSFacts.copy_node_again t1 later f Hwf name t0 r r Hc eq_refl)
    as (r' & -> & Hr').
  destruct (FSFacts.put_over later to r' r root Ht) as (root2 & -> & H).
  exists root2. split; [reflexivity|]. now apply H.
Qed.

(** A path below one that lies apart from the log file. *)
Lemma off_log_below (w : world) (d name : string) :
  off_log w (Path.components d) = true ->
  off_log w (Path.components (d ++ "/" ++ name)) = true.
Proof.
  unfold off_log. destruct (log_file w) as [lp|]; [|reflexivity].
  intros H. change ("/" ++ name) with (String "/"%char name).
  rewrite PathFacts.components_app. now apply Apart.apart_app.
Qed.

Lemma off_log_same (w w' : world) (b : list string) :
  logger_this_ptr w' = logger_this_ptr w -> off_log w' b = off_log w b.
Proof. intros H. unfold off_log, log_file. now rewrite H. Qed.

(** C8. A create or modify event is applied; the source object is the
    same afterwards; the event is applied again at some later time. Then
    the second application succeeds as well and leaves the file system -
    the replica in particular - as the first one left it: the same
    directory structure and the same file contents (the files written again
    carry the later time). This holds of every path off the log file, to
    which each application adds a line, and of the whole tree when the
    logger has no file open. The file system is one in which no directory
    holds a name twice, and the log file lies apart from the source object
    and from the replica directory. *)
Theorem report_action_twice
  (action : action_t) (file : file_t) (p d : string) (w0 w1 : world)
  (later : Z) :
  action = CREATE \/ action = MODIFY ->
  FS.well_formed (files w0) = true ->
  off_log w0 (Path.components p) = true ->
  off_log w0 (Path.components d) = true ->
  DirWatcherCallback.report_action action file p d w0 = Return tt w1 ->
  FS.lookup (Path.components p) (files w1)
  = FS.lookup (Path.components p) (files w0) ->
  exists w2,
    DirWatcherCallback.report_action action file p d (set_clock later w1)
    = Return tt w2 /\
    (forall b : list string,
        off_log w0 b = true ->
        option_map FS.erase_times (FS.lookup b (files w2))
        = option_map FS.erase_times (FS.lookup b (files w1))) /\
    (log_file w0 = None ->
     FS.erase_times (files w2) = FS.erase_times (files w1)).
Proof.
  intros Haction Hwf Hsrc Hrep.
  assert (Hcases :
    DirWatcherCallback.report_action action file p d
    = DirWatcherCallback.report_action CREATE file p d)
    by (destruct Haction; subst; reflexivity).
  rewrite Hcases. clear Hcases Haction action.
  assert (Hwhole : forall w2,
    (forall b : list string,
        off_log w0 b = true ->
        option_map FS.erase_times (FS.lookup b (files w2))
        = option_map FS.erase_times (FS.lookup b (files w1))) ->
    (forall b : list string,
        off_log w0 b = true ->
        option_map FS.erase_times (FS.lookup b (files w2))
        = option_map FS.erase_times (FS.lookup b (files w1))) /\
    (log_file w0 = None ->
     FS.erase_times (files w2) = FS.erase_times (files w1))).
  { intros w2 H. split; [exact H|]. intros Hnone.
    assert (Hroot : off_log w0 [] = true) by (unfold off_log; now rewrite Hnone).
    specialize (H [] Hroot). cbn in H. now injection H. }
  destruct (get_filename_outcome p) as [(name & Hname)|(e & Hname)].
  - pose proof (off_log_below w0 d name Hrep) as Hto.
    destruct file;
      cbv [DirWatcherCallback.report_action action_eqb file_eqb orb andb
           get_file_str bind ret]; rewrite ?Hname.
    + (* a directory: the copy, then the log line *)
      unfold fs_copy at 1.
      destruct (FS.copy (clock w0) (Path.final_component p) (Path.components p)
                  (Path.components (d ++ "/" ++ name)) (files w0))
        as [rootA|] eqn:Ecopy; [|discriminate].
      rewrite Hname, logf_unfold by reflexivity.
      change (logger_this_ptr (set_files rootA w0)) with (logger_this_ptr w0).
      destruct (logger_this_ptr w0) as [lg|] eqn:El; [|discriminate].
      match goal with
      | |- Return tt (logf_internal lg Logger.INFO __FILE__ 230 ?m _) = _ -> _ =>
          set (msg := m)
      end.
      set (wb := logf_internal lg Logger.INFO __FILE__ 230 msg
                   (set_files rootA w0)).
      intros Hw1 Hsame.
      assert (Hwb : w1 = wb) by congruence. clear Hw1. subst w1.
      rewrite (off_log_writes w0 lg _ El) in Hto.
      (* what the first copy wrote is still at the target *)
      unfold FS.copy in Ecopy.
      destruct (FS.lookup (Path.components p) (files w0)) as [f|] eqn:Ef;
        [|discriminate].
      destruct (Path.same _ _) eqn:Hd; [discriminate|].
      destruct (FS.copy_node (clock w0) (Path.final_component p) f
                  (FS.lookup (Path.components (d ++ "/" ++ name)) (files w0)))
        as [r|] eqn:Ec; [|discriminate].
      pose proof (FSFacts.lookup_put _ _ _ _ _ Ecopy) as Hl.
      assert (Ht : FS.lookup (Path.components (d ++ "/" ++ name)) (files wb)
                   = Some r).
      { unfold wb. rewrite logf_internal_apart by exact Hto. exact Hl. }
      destruct (copy_onto_copy (clock w0) later (Path.final_component p)
                  (Path.components p) (Path.components (d ++ "/" ++ name))
                  f r _ (files wb) Hd
                  (FSFacts.well_formed_lookup _ _ _ Hwf Ef) Ec Hsame Ht)
        as (root2 & Hcopy2 & He).
      unfold fs_copy.
      change (clock (set_clock later wb)) with later.
      change (files (set_clock later wb)) with (files wb).
      rewrite Hcopy2, Hname, logf_unfold by reflexivity.
      change (logger_this_ptr (set_files root2 (set_clock later wb)))
        with (logger_this_ptr wb).
      assert (Hlg : logger_this_ptr wb = Some lg).
      { unfold wb.
        destruct (logf_internal_rest lg Logger.INFO __FILE__ 230 msg
                    (set_files rootA w0)) as (_ & -> & _). exact El. }
      rewrite Hlg. eexists. split; [reflexivity|]. apply Hwhole.
      intros b Hb. rewrite (off_log_writes w0 lg b El) in Hb.
      rewrite logf_internal_apart by exact Hb.
      change (files (set_files root2 (set_clock later wb))) with root2.
      now apply lookup_erased.
    + (* a regular file: the log line, then the copy *)
      rewrite logf_unfold by reflexivity.
      destruct (logger_this_ptr w0) as [lg|] eqn:El; [|discriminate].
      rewrite Hname.
      rewrite (off_log_writes w0 lg _ El) in Hto.
      rewrite (off_log_writes w0 lg _ El) in Hsrc.
      match goal with
      | |- context [logf_internal lg Logger.INFO __FILE__ 216 ?m w0] =>
          set (msg := m)
      end.
      set (wa := logf_internal lg Logger.INFO __FILE__ 216 msg w0).
      unfold fs_copy_file, fs_call.
      destruct (FS.copy_file (clock wa) (Path.components p)
                  (Path.components (d ++ "/" ++ name)) (files wa))
        as [root1|] eqn:Ecopy; [|discriminate].
      intros Hw1 Hsame.
      assert (Hwb : w1 = set_files root1 wa) by congruence. clear Hw1. subst w1.
      change (files (set_files root1 wa)) with root1 in Hsame.
      assert (Hlg : logger_this_ptr wa = Some lg).
      { unfold wa.
        destruct (logf_internal_rest lg Logger.INFO __FILE__ 216 msg w0)
          as (_ & -> & _). exact El. }
      rewrite logf_unfold by reflexivity.
      change (logger_this_ptr (set_clock later (set_files root1 wa)))
        with (logger_this_ptr wa).
      rewrite Hlg, Hname.
      set (wb := logf_internal lg Logger.INFO __FILE__ 216 msg
                   (set_clock later (set_files root1 wa))).
      (* the source file and its copy, as the second application finds them *)
      unfold FS.copy_file in Ecopy.
      destruct (Path.same _ _) eqn:Hd; [discriminate|].
      assert (Hfa : FS.lookup (Path.components p) (files wa)
                    = FS.lookup (Path.components p) (files w0))
        by (unfold wa; now rewrite logf_internal_apart).
      rewrite Hfa in Ecopy.
      destruct (FS.lookup (Path.components p) (files w0)) as [[c m| |]|] eqn:Ef;
        try discriminate.
      assert (Hn : FS.copy_file_node (clock wa) (Some (FS.File c m))
                     (FS.lookup (Path.components (d ++ "/" ++ name)) (files wa))
                   = Some (FS.File c (clock wa)) \/
                   FS.copy_file_node (clock wa) (Some (FS.File c m))
                     (FS.lookup (Path.components (d ++ "/" ++ name)) (files wa))
                   = None).
      { cbn. destruct (FS.lookup _ (files wa)) as [[| |]|]; auto. }
      destruct Hn as [Hn|Hn]; rewrite Hn in Ecopy; [|discriminate].
      pose proof (FSFacts.lookup_put _ _ _ _ _ Ecopy) as Hl.
      assert (Hfb : FS.lookup (Path.components p) (files wb) = Some (FS.File c m)).
      { unfold wb. rewrite logf_internal_apart by exact Hsrc. exact Hsame. }
      assert (Htb : FS.lookup (Path.components (d ++ "/" ++ name)) (files wb)
                    = Some (FS.File c (clock wa))).
      { unfold wb. rewrite logf_internal_apart by exact Hto. exact Hl. }
      destruct (copy_file_onto_copy (clock wb) _ _ c m (clock wa) (files wb)
                  Hd Hfb Htb) as (root2 & -> & He).
      eexists. split; [reflexivity|]. apply Hwhole.
      intros b Hb. rewrite (off_log_writes w0 lg b El) in Hb.
      change (files (set_files root2 wb)) with root2.
      rewrite (lookup_erased b root2 (files wb) He).
      unfold wb. now rewrite logf_internal_apart by exact Hb.
    + (* neither: nothing is done *)
      intros [= <-] _. exists (set_clock later w0).
      split; [reflexivity|]. now apply Hwhole.
  - destruct file;
      cbv [DirWatcherCallback.report_action action_eqb file_eqb orb andb
           get_file_str bind ret]; rewrite ?Hname; try discriminate.
    intros [= <-] _. exists (set_clock later w0).
    split; [reflexivity|]. now apply Hwhole.
Qed.

End Idempotence.

Lemma report_action_twice_witness :
  match DirWatcherCallback.report_action DirWatcherCallbackBase.CREATE
          DirWatcherCallbackBase.DIRECTORY "Source/sub" "Replica"
          (Examples.world_with Examples.nested) with
  | Return _ w1 =>
      exists w2,
        DirWatcherCallback.report_action DirWatcherCallbackBase.CREATE
          DirWatcherCallbackBase.DIRECTORY "Source/sub" "Replica"
          (set_clock 20 w1) = Return tt w2 /\
        option_map FS.erase_times (FS.lookup ["Replica"] (files w2))
        = option_map FS.erase_times (FS.lookup ["Replica"] (files w1)) /\
        option_map FS.erase_times (FS.lookup ["Source"] (files w2))
        = option_map FS.erase_times (FS.lookup ["Source"] (files w1))
  | Raise _ _ => False
  end.
Proof.
  destruct (DirWatcherCallback.report_action DirWatcherCallbackBase.CREATE
              DirWatcherCallbackBase.DIRECTORY "Source/sub" "Replica"
              (Examples.world_with Examples.nested)) as [[] w1|e w1] eqn:E.
  - destruct (report_action_twice DirWatcherCallbackBase.CREATE
                DirWatcherCallbackBase.DIRECTORY "Source/sub" "Replica"
                (Examples.world_with Examples.nested) w1 20)
      as (w2 & H1 & H2 & _).
    + left. reflexivity.
    + reflexivity.
    + reflexivity.
    + reflexivity.
    + exact E.
    + vm_compute in E. injection E as <-. reflexivity.
    + exists w2. split; [exact H1|]. split; apply H2; reflexivity.
  - vm_compute in E. discriminate E.
Defined.
(* ================================================================== *)
(** * A flat source directory is mirrored *)

Section Mirror.

Import DirWatcherCallbackBase.
Import DirWatcher.
Local Open Scope prog_scope.

Variables src rep : string.
Hypothesis Hapart : apart (Path.components src) (Path.components rep) = true.

Variable new : list (string * FS.node).
Variable sm : Z.
Variable lg : Logger.t.
Hypothesis Hlsrc : writes_elsewhere lg (Path.components src) = true.
Hypothesis Hlrep : writes_elsewhere lg (Path.components rep) = true.

#[local] Abbreviation shape := (shape src rep new sm lg).

Lemma lookup_in_source (w : world) (rch : list (string * FS.node)) (n : string) :
  shape w rch -> plain n = true ->
  FS.lookup (Path.components (Path.append src n)) (files w) = FS.child n new.
Proof.
  intros (Hs & _) Hn. rewrite PathFacts.components_append by exact Hn.
  rewrite Frame.lookup_app, Hs. simpl. now destruct (FS.child n new).
Qed.

Lemma lookup_in_replica (w : world) (rch : list (string * FS.node)) (n : string) :
  shape w rch -> plain n = true ->
  FS.lookup (Path.components (rep ++ "/" ++ n)) (files w) = FS.child n rch.
Proof.
  intros (_ & (rm & Hr) & _) Hn. rewrite PathFacts.components_join by exact Hn.
  rewrite Frame.lookup_app, Hr. simpl. now destruct (FS.child n rch).
Qed.

(** A line written to the log leaves the two directories as they are. *)
Lemma logf_shape (FILE : string) (LINE : Z) (msg : string) (w : world)
  (rch : list (string * FS.node)) :
  shape w rch ->
  exists w', logf Logger.INFO FILE LINE msg w = Return tt w' /\
             shape w' rch /\ clock w' = clock w.
Proof.
  intros (H1 & (rm & H2) & H3). rewrite logf_unfold, H3 by reflexivity.
  eexists. split; [reflexivity|].
  destruct (logf_internal_rest lg Logger.INFO FILE LINE msg w)
    as (Hc & Hl & _).
  split; [|exact Hc]. split; [|split].
  - now rewrite logf_internal_apart.
  - exists rm. now rewrite logf_internal_apart.
  - now rewrite Hl.
Qed.

(** A create or modify event for the file [n] of the source writes its
    content to the name [n] of the replica. *)
Lemma apply_copy (action : action_t) (w : world) (rch : list (string * FS.node))
  (n c : string) (t : Z) :
  action = CREATE \/ action = MODIFY ->
  shape w rch -> files_only rch ->
  plain n = true ->
  Str.size (Path.append src n) < 2 ^ 31 ->
  FS.child n new = Some (FS.File c t) ->
  exists w',
    DirWatcherCallback.report_action action REGULAR (Path.append src n) rep w
    = Return tt w' /\
    shape w' (FS.set_child n (FS.File c (clock w)) rch) /\
    clock w' = clock w.
Proof.
  intros Ha Hs Hfo Hn Hlen Hc.
  assert (DirWatcherCallback.report_action action REGULAR (Path.append src n) rep w
          = (logf Logger.INFO __FILE__ 216
               ("Regular file " ++ Path.final_component (Path.append src n)
                  ++ " has been created in Replica | " ++ Path.append src n) ;;;
             fs_copy_file (Path.append src n)
               (replica_location rep (Path.append src n))) w) as ->.
  { rewrite (report_action_branches action REGULAR _ rep w Hlen).
    destruct Ha; subst; reflexivity. }
  unfold bind.
  match goal with |- context [logf Logger.INFO ?f ?l ?m w] =>
    destruct (logf_shape f l m w rch Hs) as (w1 & -> & Hs1 & Hc1) end.
  unfold replica_location. rewrite PathFacts.final_component_append by exact Hn.
  unfold fs_copy_file, fs_call, FS.copy_file.
  rewrite (lookup_in_source w1 rch n Hs1 Hn), (lookup_in_replica w1 rch n Hs1 Hn).
  rewrite PathFacts.components_append, PathFacts.components_join by exact Hn.
  assert (Path.same (Path.components src ++ [n]) (Path.components rep ++ [n]) = false)
    as ->.
  { unfold Path.same.
    destruct (Path.compare_components _ _) eqn:E; try reflexivity.
    apply compare_components_eq in E.
    now apply (PathFacts.apart_different _ _ Hapart) in E. }
  rewrite Hc. cbn [FS.copy_file_node].
  destruct Hs1 as (Hsrc & (rm & Hrep) & Hlog).
  assert (Hput : exists d', FS.put (clock w1) [n] (FS.File c (clock w1)) (FS.Dir rch rm)
                            = Some d' /\
                            exists rm', d' = FS.Dir (FS.set_child n (FS.File c (clock w1)) rch) rm').
  { simpl. destruct (FS.child n rch); eauto. }
  destruct Hput as (d' & Hput & rm' & ->).
  assert (Htarget : match FS.child n rch with
                    | None | Some (FS.File _ _) => Some (FS.File c (clock w1))
                    | Some _ => None
                    end = Some (FS.File c (clock w1))).
  { destruct (FS.child n rch) as [x|] eqn:Ex; [|reflexivity].
    apply Hfo in Ex. destruct x; try discriminate. reflexivity. }
  rewrite Htarget.
  destruct (Frame.put_below (clock w1) (Path.components rep) [n] _ _ _ (files w1)
              Hrep Hput) as (root' & -> & Hrep' & Hframe).
  eexists. split; [reflexivity|]. rewrite <- Hc1. split; [|reflexivity].
  split; [|split].
  - cbn. rewrite Hframe; assumption.
  - exists rm'. exact Hrep'.
  - exact Hlog.
Qed.

Lemma del_child_absent (n : string) (ch : list (string * FS.node)) :
  FS.child n ch = None -> FS.del_child n ch = ch.
Proof.
  induction ch as [|[k x] ch IH]; simpl; [reflexivity|].
  destruct (String.eqb k n); [discriminate|]. intros H. now rewrite IH.
Qed.

(** A delete event for the name [n] of the source unlinks the name [n]
    of the replica. *)
Lemma apply_remove (w : world) (rch : list (string * FS.node)) (n : string) :
  shape w rch -> files_only rch ->
  plain n = true ->
  Str.size (Path.append src n) < 2 ^ 31 ->
  exists w',
    DirWatcherCallback.report_action DELETE REGULAR (Path.append src n) rep w
    = Return tt w' /\
    shape w' (FS.del_child n rch).
Proof.
  intros Hs Hfo Hn Hlen.
  rewrite (report_action_branches DELETE REGULAR _ rep w Hlen).
  unfold bind.
  match goal with |- context [logf Logger.INFO ?f ?l ?m w] =>
    destruct (logf_shape f l m w rch Hs) as (w1 & -> & Hs1 & Hc1) end.
  unfold replica_location. rewrite PathFacts.final_component_append by exact Hn.
  unfold fs_remove, fs_call, FS.remove.
  rewrite (lookup_in_replica w1 rch n Hs1 Hn).
  destruct (FS.child n rch) as [x|] eqn:Ex.
  - pose proof (Hfo n x Ex) as Hx. destruct x; try discriminate.
    rewrite PathFacts.components_join by exact Hn.
    destruct Hs1 as (Hsrc & (rm & Hrep) & Hlog).
    destruct (Frame.del_below (clock w1) (Path.components rep) n _ rch rm (files w1)
                Hrep Ex) as (root' & -> & Hrep' & Hframe).
    eexists. split; [reflexivity|]. split; [|split].
    + cbn. rewrite Hframe; assumption.
    + eexists. exact Hrep'.
    + exact Hlog.
  - eexists. split; [reflexivity|]. rewrite del_child_absent by exact Ex.
    exact Hs1.
Qed.

Lemma child_in (n : string) (x : FS.node) (ch : list (string * FS.node)) :
  FS.child n ch = Some x -> In (n, x) ch.
Proof.
  induction ch as [|[k y] ch IH]; simpl; [discriminate|].
  destruct (String.eqb k n) eqn:E.
  - apply String.eqb_eq in E. subst k. intros [= ->]. now left.
  - auto.
Qed.

Lemma child_names (n : string) (ch : list (string * FS.node)) :
  FS.child n ch = None <-> ~ In n (FS.names ch).
Proof.
  induction ch as [|[k y] ch IH]; simpl; [tauto|].
  destruct (String.eqb k n) eqn:E.
  - apply String.eqb_eq in E. subst k. split; [discriminate|tauto].
  - apply String.eqb_neq in E. rewrite IH. tauto.
Qed.

Lemma existsb_eqb_in (n : string) (l : list string) :
  existsb (String.eqb n) l = false -> ~ In n l.
Proof.
  induction l as [|k l IH]; simpl; [tauto|].
  intros H. apply orb_false_elim in H. destruct H as [H1 H2].
  apply String.eqb_neq in H1. intros [Hk|Hin]; [congruence|now apply IH].
Qed.

Lemma distinct_split (done rest : list (string * FS.node)) (n : string)
  (x : FS.node) :
  FS.distinct (FS.names (done ++ (n, x) :: rest)) = true ->
  ~ In n (FS.names done) /\ FS.child n (done ++ (n, x) :: rest) = Some x.
Proof.
  induction done as [|[k y] done IH]; simpl.
  - intros _. rewrite String.eqb_refl. tauto.
  - intros H. apply andb_prop in H. destruct H as [H1 H2].
    apply negb_true_iff in H1. apply existsb_eqb_in in H1.
    destruct (IH H2) as [IH1 IH2].
    assert (k <> n).
    { intros ->. apply H1. unfold FS.names. rewrite map_app, in_app_iff.
      right. now left. }
    split; [intros [?|?]; tauto|].
    apply String.eqb_neq in H. now rewrite H.
Qed.

Lemma files_only_set (n c : string) (t : Z) (ch : list (string * FS.node)) :
  files_only ch -> files_only (FS.set_child n (FS.File c t) ch).
Proof.
  intros H m x. rewrite Frame.child_set_child_any.
  destruct (String.eqb n m); [now intros [= <-]|apply H].
Qed.

Lemma files_only_del (n : string) (ch : list (string * FS.node)) :
  files_only ch -> files_only (FS.del_child n ch).
Proof.
  intros H m x. rewrite Frame.child_del_child.
  destruct (String.eqb n m); [discriminate|apply H].
Qed.

Hypothesis Hflat : flat new = true.
Hypothesis Hshort :
  forall n, In n (FS.names new) -> Str.size (Path.append src n) < 2 ^ 31.

Lemma flat_in (n : string) (x : FS.node) :
  In (n, x) new -> plain n = true /\ exists c t, x = FS.File c t.
Proof.
  intros Hin. unfold flat in Hflat. apply andb_prop in Hflat.
  destruct Hflat as [Hall _]. rewrite forallb_forall in Hall.
  specialize (Hall _ Hin). simpl in Hall. apply andb_prop in Hall.
  destruct Hall as [Hp Hf]. split; [exact Hp|].
  destruct x; try discriminate. eauto.
Qed.

Lemma flat_child (n : string) (x : FS.node) :
  FS.child n new = Some x ->
  plain n = true /\ Str.size (Path.append src n) < 2 ^ 31 /\
  exists c t, x = FS.File c t.
Proof.
  intros Hc. pose proof (child_in n x new Hc) as Hin.
  destruct (flat_in n x Hin) as [Hp Hx]. repeat split; try assumption.
  apply Hshort. unfold FS.names. now apply (in_map fst) in Hin.
Qed.

Lemma entries_below_flat :
  entries_below src (FS.Dir new sm) = map (entry_of src) new.
Proof.
  simpl. assert (H : forall n x, In (n, x) new -> exists c t, x = FS.File c t)
    by (intros n x Hin; now destruct (flat_in n x Hin)).
  clear Hflat Hshort. induction new as [|[k y] ch IH]; [reflexivity|].
  destruct (H k y) as (c & t & ->); [now left|].
  cbn. unfold entry_of at 1. cbn. f_equal. apply IH.
  intros n x Hin. apply (H n x). now right.
Qed.

Variable this0 : t.
Variables old rch0 : list (string * FS.node).

Hypothesis Hsrc0 : source this0 = src.
Hypothesis Hknows : snapshot_of this0 old.
Hypothesis Hagree : agree rch0 old.
Hypothesis Hstays : created_or_removed old new.

#[local] Abbreviation walk_inv := (walk_invariant src rep new sm lg this0 rch0).

(** The invariant of the walk after one more child, given what the
    iteration did to the replica and to the sets. *)
Lemma walk_invariant_step (done : list (string * FS.node)) (n c : string)
  (t : Z) (this this' : DirWatcher.t) (w w' : world)
  (rch rch' : list (string * FS.node)) :
  walk_inv done this w rch ->
  ~ In n (FS.names done) ->
  FS.child n new = Some (FS.File c t) ->
  shape w' rch' -> files_only rch' ->
  (forall m, String.eqb n m = false -> FS.child m rch' = FS.child m rch) ->
  option_map FS.erase_times (FS.child n rch') = Some (FS.File c 0) ->
  source this' = src /\ replica this' = rep ->
  garbage this' = [] -> snapshot_in_shadow this' ->
  (forall e, In e (source_content this) -> In e (source_content this')) ->
  (forall e, In e (source_content this') ->
     In e (source_content this) \/
     (path e = Path.append src n /\ cached_type e = FS.regular)) ->
  (exists e, In e (source_content this') /\ path e = Path.append src n) ->
  walk_inv (done ++ [(n, FS.File c t)]) this' w' rch'.
Proof.
  intros (_ & _ & _ & _ & _ & Hdone & Hrest & Hmono & Hnew & Hhas)
         Hn Hc Hs' Hfo' Hother Hat Hr Hg Hinv Hsub Hsup Hthis.
  unfold walk_invariant. unfold FS.names in *. rewrite map_app. simpl.
  split; [exact Hs'|]. split; [exact Hfo'|]. split; [exact Hr|].
  split; [exact Hg|]. split; [exact Hinv|].
  split; [|split; [|split; [|split]]].
  - intros m Hm. apply in_app_iff in Hm. destruct Hm as [Hm|[<-|[]]].
    + rewrite Hother; [now apply Hdone|].
      apply String.eqb_neq. intros ->. contradiction.
    + now rewrite Hat, Hc.
  - intros m Hm. rewrite in_app_iff in Hm. rewrite Hother.
    + apply Hrest. tauto.
    + apply String.eqb_neq. intros ->. apply Hm. right. now left.
  - auto.
  - intros e He. destruct (Hsup e He) as [Hin|(Hp & Ht)].
    + destruct (Hnew e Hin) as [|(m & c' & t' & Hm & Hrest')]; [now left|].
      right. exists m, c', t'. rewrite in_app_iff. tauto.
    + right. exists n, c, t. rewrite in_app_iff. simpl. tauto.
  - intros m Hm. apply in_app_iff in Hm. destruct Hm as [Hm|[<-|[]]].
    + destruct (Hhas m Hm) as (e & He & Hp). exists e. auto.
    + exact Hthis.
Qed.

Lemma same_name (r : directory_entry) (m n : string) :
  path r = Path.append src m -> plain m = true -> plain n = true ->
  same_entry r (entry_of src (n, FS.File "" 0)) = true -> m = n.
Proof.
  intros Hp Hm Hn Hs. unfold same_entry in Hs. rewrite Hp in Hs. cbn in Hs.
  apply equiv_components in Hs.
  rewrite !PathFacts.components_append in Hs by assumption.
  apply app_inv_head in Hs. congruence.
Qed.

Lemma plain_of_done (done rest : list (string * FS.node)) (m : string) :
  new = (done ++ rest)%list -> In m (FS.names done) -> plain m = true.
Proof.
  intros Hnew Hm. unfold FS.names in Hm. apply in_map_iff in Hm.
  destruct Hm as ([k y] & <- & Hin). apply (flat_in k y).
  rewrite Hnew. apply in_app_iff. now left.
Qed.

(** The entry the walk finds in the Snapshot for the child [n] carries
    the path of [n]; it was there at the start of the poll unless the walk
    has handled [n] already. *)
Lemma found_entry (done rest : list (string * FS.node)) (n : string)
  (x : FS.node) (this : DirWatcher.t) (w : world)
  (rch : list (string * FS.node)) (r : directory_entry) :
  new = (done ++ rest)%list ->
  walk_inv done this w rch ->
  plain n = true ->
  EntrySet.find (source_content this) (entry_of src (n, x)) = Some r ->
  In r (source_content this) /\ path r = Path.append src n /\
  (In r (source_content this0) \/ In n (FS.names done)).
Proof.
  intros Hsplit (_ & _ & _ & _ & _ & _ & _ & _ & Hnew & _) Hplain Hfind.
  apply SetFacts.find_some in Hfind. destruct Hfind as [Hin Hsame].
  assert (Hsame' : same_entry r (entry_of src (n, FS.File "" 0)) = true)
    by exact Hsame.
  split; [exact Hin|].
  destruct (Hnew r Hin) as [H0|(m & c' & t' & Hm & Hpm & _)].
  - destruct Hknows as [Hsound _].
    destruct (Hsound r H0) as (n' & c1 & t1 & Hp & Hpl & _).
    rewrite Hsrc0 in Hp.
    assert (n' = n) as -> by (eapply same_name; eassumption). auto.
  - assert (m = n) as <-; [|auto].
    eapply same_name; try eassumption.
    eapply plain_of_done; eassumption.
Qed.

(** A file that the Snapshot knows has the content the replica holds. *)
Lemma known_unchanged (done rest : list (string * FS.node)) (n c : string)
  (t : Z) (this : DirWatcher.t) (w : world) (rch : list (string * FS.node))
  (r : directory_entry) :
  new = (done ++ (n, FS.File c t) :: rest)%list ->
  walk_inv done this w rch ->
  ~ In n (FS.names done) ->
  FS.child n new = Some (FS.File c t) ->
  EntrySet.find (source_content this) (entry_of src (n, FS.File c t)) = Some r ->
  option_map FS.erase_times (FS.child n rch) = Some (FS.File c 0).
Proof.
  intros Hsplit Hinv Hn Hc Hfind.
  pose proof Hinv as (_ & _ & _ & _ & _ & _ & Hrest & _ & _).
  destruct (flat_child n _ Hc) as (Hplain & _ & _).
  destruct (found_entry done _ n (FS.File c t) this w rch r Hsplit Hinv Hplain Hfind)
    as (Hin & Hpr & Horigin).
  destruct Horigin as [H0|Hm]; [|contradiction].
  destruct Hknows as [Hsound _].
  destruct (Hsound r H0) as (n' & c1 & t1 & Hp & Hpl & _ & Hold & _).
  rewrite Hsrc0, Hpr in Hp. apply PathFacts.append_injective in Hp. subst n'.
  rewrite (Hrest n Hn), (Hagree n), Hold. simpl.
  now rewrite (Hstays n c t c1 t1 Hc Hold).
Qed.

(** One iteration of the walk over a flat source directory. *)
Lemma walk_step (done rest : list (string * FS.node)) (n : string)
  (x : FS.node) (this : DirWatcher.t) (w : world)
  (rch : list (string * FS.node)) :
  new = (done ++ (n, x) :: rest)%list ->
  walk_inv done this w rch ->
  exists this' w' rch',
    classify DirWatcherCallback.cb (entry_of src (n, x)) this w
    = Return this' w' /\
    walk_inv (done ++ [(n, x)]) this' w' rch'.
Proof.
  intros Hsplit Hinv.
  assert (Hd : FS.distinct (FS.names new) = true).
  { unfold flat in Hflat. now apply andb_prop in Hflat. }
  rewrite Hsplit in Hd. destruct (distinct_split done rest n x Hd) as [Hn Hc].
  rewrite <- Hsplit in Hc.
  destruct (flat_child n x Hc) as (Hplain & Hlen & c & t & ->).
  pose proof Hinv as (Hs & Hfo & [Hsrc Hr] & Hg & Hsh & _).
  assert (Hcopy : forall action this1,
            action = CREATE \/ action = MODIFY ->
            source this1 = src /\ replica this1 = rep ->
            garbage this1 = [] ->
            snapshot_in_shadow this1 ->
            (forall e, In e (source_content this) -> In e (source_content this1)) ->
            (forall e, In e (source_content this1) ->
               In e (source_content this) \/
               (path e = Path.append src n /\ cached_type e = FS.regular)) ->
            (exists e, In e (source_content this1) /\
                       path e = Path.append src n) ->
            exists this' w' rch',
              report DirWatcherCallback.cb action REGULAR
                (entry_of src (n, FS.File c t)) this1 w = Return this' w' /\
              walk_inv (done ++ [(n, FS.File c t)]) this' w' rch').
  { intros action this1 Ha [Hsrc1 Hr1] Hg1 Hsh1 Hsub Hsup Hthis.
    rewrite report_unfold. cbn [report_action DirWatcherCallback.cb path entry_of fst].
    rewrite Hr1.
    destruct (apply_copy action w rch n c t Ha Hs Hfo Hplain Hlen Hc)
      as (w' & -> & Hs' & _).
    eexists. exists w', (FS.set_child n (FS.File c (clock w)) rch).
    split; [reflexivity|].
    apply (walk_invariant_step done n c t this _ w w' rch); auto.
    - now apply files_only_set.
    - intros m Hm. now rewrite Frame.child_set_child_any, Hm.
    - now rewrite FSFacts.child_set_child. }
  destruct (EntrySet.find (source_content this) (entry_of src (n, FS.File c t)))
    as [r|] eqn:Ef.
  - destruct (found_entry done _ n (FS.File c t) this w rch r Hsplit Hinv Hplain Ef)
      as (Hin & Hpr & _).
    rewrite (classify_known DirWatcherCallback.cb _ r this w Ef).
    unfold fs_exists. cbn [path entry_of fst].
    rewrite (lookup_in_source w rch n Hs Hplain), Hc.
    exists this, w, rch. split; [reflexivity|].
    apply (walk_invariant_step done n c t this this w w rch); eauto.
    eapply known_unchanged; eassumption.
  - unfold classify. rewrite Ef.
    cbn [is_regular_file cached_type entry_of FS.type_of snd].
    apply Hcopy; auto.
    + intros y Hy. cbn in *.
      apply SetFacts.contains_emplace. apply SetFacts.contains_emplace in Hy.
      destruct Hy; auto.
    + intros e He. cbn. now apply SetFacts.emplace_keeps.
    + intros e He. cbn in He.
      destruct (SetFacts.in_emplace _ _ _ He) as [->|]; [|auto].
      right. cbn. repeat split.
    + eexists. split; [cbn; apply SetFacts.emplace_new; exact Ef|reflexivity].
Qed.

(** The walk over a flat source directory. *)
Lemma walk_flat (todo done : list (string * FS.node))
  (this : DirWatcher.t) (w : world) (rch : list (string * FS.node)) :
  new = (done ++ todo)%list ->
  walk_inv done this w rch ->
  exists this1 w1 rch1,
    for_each (map (entry_of src) todo) (classify DirWatcherCallback.cb) this w
    = Return this1 w1 /\
    walk_inv new this1 w1 rch1.
Proof.
  revert done this w rch.
  induction todo as [|[n x] todo IH]; intros done this w rch Hsplit Hinv.
  - rewrite app_nil_r in Hsplit. subst done. exists this, w, rch. auto.
  - destruct (walk_step done todo n x this w rch Hsplit Hinv)
      as (this' & w' & rch' & Hstep & Hinv').
    destruct (IH (done ++ [(n, x)])%list this' w' rch') as (this1 & w1 & rch1 & Hrun & H1).
    + now rewrite <- app_assoc.
    + exact Hinv'.
    + exists this1, w1, rch1. split; [|exact H1].
      cbn [map for_each]. unfold bind. now rewrite Hstep.
Qed.

Variable walked : DirWatcher.t.
Variable rch1 : list (string * FS.node).

Hypothesis Hwalked : exists w1, walk_inv new walked w1 rch1.

#[local] Abbreviation scan_inv := (scan_invariant src rep new sm lg walked rch1).

(** Every entry of the Snapshot after the walk stands for a plain name
    of the source directory and is of regular type. *)
Lemma entry_form (e : directory_entry) :
  In e (source_content walked) ->
  exists m, path e = Path.append src m /\ plain m = true /\
            Str.size (Path.append src m) < 2 ^ 31 /\
            cached_type e = FS.regular /\
            EntrySet.contains (replica_content walked) e = true.
Proof.
  intros Hin.
  destruct Hwalked as (w1 & _ & _ & _ & _ & Hsh & _ & _ & _ & Hnew & _).
  assert (Hc : EntrySet.contains (replica_content walked) e = true).
  { apply Hsh. apply SetFacts.contains_iff. exists e.
    split; [exact Hin|apply same_entry_refl]. }
  destruct (Hnew e Hin) as [H0|(m & c & t & Hm & Hp & Hx & Ht)].
  - destruct Hknows as [Hsound _].
    destruct (Hsound e H0) as (m & c1 & t1 & Hp & Hpl & Hlen & _ & Ht).
    rewrite Hsrc0 in Hp. exists m. rewrite <- Hp. auto.
  - exists m. destruct (flat_child m _ Hx) as (Hpl & Hlen & _). auto.
Qed.

(** One iteration of the delete scan. *)
Lemma scan_step (done : list directory_entry) (e : directory_entry)
  (this : DirWatcher.t) (w : world) (rch : list (string * FS.node)) :
  In e (source_content walked) ->
  scan_inv done this w rch ->
  exists this' w' rch',
    detect_delete DirWatcherCallback.cb e this w = Return this' w' /\
    scan_inv (done ++ [e]) this' w' rch'.
Proof.
  intros Hin (Hs & Hfo & [Hsrc Hr] & Hsc & Hrc & Hkeep & Honly & Hdone & Hgar).
  destruct (entry_form e Hin) as (m & Hp & Hpl & Hlen & Ht & Hc).
  unfold detect_delete. rewrite Hrc, Hc. unfold fs_exists.
  rewrite Hp, (lookup_in_source w rch m Hs Hpl).
  destruct (FS.child m new) as [x|] eqn:Ex; cbn [andb negb].
  - exists this, w, rch. split; [reflexivity|].
    unfold scan_invariant.
    split; [exact Hs|]. split; [exact Hfo|]. split; [auto|].
    split; [exact Hsc|]. split; [exact Hrc|]. split; [exact Hkeep|].
    split; [exact Honly|]. split; [|exact Hgar].
    intros e' m' He' Hp' Hm'. apply in_app_iff in He'.
    destruct He' as [He'|[<-|[]]]; [eauto|].
    rewrite Hp in Hp'. apply PathFacts.append_injective in Hp'. congruence.
  - unfold is_regular_file. rewrite Ht. unfold bind. rewrite report_unfold.
    cbn [report_action DirWatcherCallback.cb]. rewrite Hp, Hr.
    destruct (apply_remove w rch m Hs Hfo Hpl Hlen) as (w' & -> & Hs').
    eexists. exists w', (FS.del_child m rch). split; [reflexivity|].
    unfold scan_invariant. cbn.
    split; [exact Hs'|]. split; [now apply files_only_del|].
    split; [auto|]. split; [exact Hsc|]. split; [exact Hrc|].
    split; [|split; [|split]].
    + intros m' x' Hx'. rewrite Frame.child_del_child.
      destruct (String.eqb m m') eqn:E; [|eauto].
      apply String.eqb_eq in E. congruence.
    + intros m'. rewrite Frame.child_del_child.
      destruct (String.eqb m m'); [now right|apply Honly].
    + intros e' m' He' Hp' Hm'. rewrite Frame.child_del_child, in_app_iff.
      apply in_app_iff in He'. destruct He' as [He'|[<-|[]]].
      * destruct (Hdone e' m' He' Hp' Hm') as [H1 H2].
        split; [|now left]. now destruct (String.eqb m m').
      * rewrite Hp in Hp'. apply PathFacts.append_injective in Hp'. subst m'.
        rewrite String.eqb_refl. split; [reflexivity|]. right. now left.
    + intros g Hg. apply in_app_iff in Hg. destruct Hg as [Hg|[<-|[]]].
      * now apply Hgar.
      * right. exists m. auto.
Qed.

(** The delete scan. *)
Lemma scan_flat (todo done : list directory_entry)
  (this : DirWatcher.t) (w : world) (rch : list (string * FS.node)) :
  (forall e, In e todo -> In e (source_content walked)) ->
  scan_inv done this w rch ->
  exists this2 w2 rch2,
    for_each todo (detect_delete DirWatcherCallback.cb) this w
    = Return this2 w2 /\
    scan_inv (done ++ todo) this2 w2 rch2.
Proof.
  revert done this w rch.
  induction todo as [|e todo IH]; intros done this w rch Hall Hinv.
  - rewrite app_nil_r. exists this, w, rch. auto.
  - destruct (scan_step done e this w rch) as (this' & w' & rch' & Hstep & Hinv');
      [apply Hall; now left|exact Hinv|].
    destruct (IH (done ++ [e])%list this' w' rch') as (this2 & w2 & rch2 & Hrun & H2).
    + intros e' He'. apply Hall. now right.
    + exact Hinv'.
    + exists this2, w2, rch2. rewrite <- app_assoc in H2. split; [|exact H2].
      cbn [for_each]. unfold bind. now rewrite Hstep.
Qed.

End Mirror.

(** Names bound in the replica are files, since the replica agrees with
    the old source and the Snapshot describes the old source. *)
Lemma replica_files_only (this : DirWatcher.t)
  (old rch : list (string * FS.node)) :
  snapshot_of this old -> agree rch old -> files_only rch.
Proof.
  intros [Hsound Hcomplete] Hagree n x Hx.
  pose proof (Hagree n) as Hn. rewrite Hx in Hn.
  destruct (FS.child n old) as [y|] eqn:Ey; [|discriminate].
  destruct (Hcomplete n y Ey) as (e & He & Hp).
  destruct (Hsound e He) as (n' & c1 & t1 & Hp' & _ & _ & Hold & _).
  rewrite Hp in Hp'. apply PathFacts.append_injective in Hp'. subst n'.
  rewrite Ey in Hold. injection Hold as ->.
  simpl in Hn. injection Hn as Hn. destruct x; try discriminate. reflexivity.
Qed.

(** C1, counterexample. First: [Source] and [Replica] start out empty;
    before the second poll a directory [sub] with a file [a.txt] appears in
    [Source]. The second poll copies the directory to [Replica/sub] and the
    file to [Replica/a.txt], so the replica holds a file at its top level
    that the source does not hold. Second: a named pipe in [Source] is
    never brought to the replica. *)
Lemma replica_differs_from_source :
  match DirWatcher.run_internal 3 Examples.nested_file DirWatcherCallback.cb
          Examples.fresh (Examples.world_with Examples.both_empty) with
  | Return (Some this') w' =>
      FS.lookup ["Source"; "sub"; "a.txt"] (files w') = Some (FS.File "hello" 17) /\
      FS.lookup ["Replica"; "sub"; "a.txt"] (files w') = Some (FS.File "hello" 20) /\
      FS.lookup ["Source"; "a.txt"] (files w') = None /\
      FS.lookup ["Replica"; "a.txt"] (files w') = Some (FS.File "hello" 20) /\
      option_map FS.erase_times (FS.lookup ["Replica"] (files w'))
      <> option_map FS.erase_times (FS.lookup ["Source"] (files w'))
  | _ => False
  end /\
  match DirWatcher.poll DirWatcherCallback.cb Examples.fresh
          (Examples.world_with Examples.one_pipe) with
  | Return _ w' =>
      FS.lookup ["Source"; "pipe"] (files w') = Some (FS.Other 3) /\
      FS.lookup ["Replica"; "pipe"] (files w') = None
  | Raise _ _ => False
  end.
Proof. vm_compute. repeat split; try reflexivity. discriminate. Qed.

Lemma contains_erase_all (g : list directory_entry) (s : EntrySet.t)
  (x : directory_entry) :
  EntrySet.contains (fold_left EntrySet.erase g s) x = true ->
  EntrySet.contains s x = true.
Proof.
  rewrite !SetFacts.contains_iff. intros (y & Hy & Hs).
  apply SetFacts.in_erase_all in Hy. exists y. tauto.
Qed.

(** C1, as amended. The source directory holds regular files only,
    directly below the source root, at both polls; the replica directory
    is identical to the source as it was at the first poll; the Snapshot is
    what the first poll left; since then files were created in the source
    and removed from it, and no file that stayed was given another
    content; the log file lies apart from both directories. Then the
    second poll succeeds and leaves a replica directory that holds the
    same names as the source directory with the same contents. The watcher
    is then again in a state to which this applies. *)
Theorem flat_source_is_mirrored
  (this : DirWatcher.t) (w : world) (old new rch : list (string * FS.node))
  (sm rm : Z) :
  DirWatcher.garbage this = [] ->
  snapshot_in_shadow this ->
  snapshot_of this old ->
  apart (Path.components (DirWatcher.source this))
        (Path.components (DirWatcher.replica this)) = true ->
  logger_this_ptr w <> None ->
  off_log w (Path.components (DirWatcher.source this)) = true ->
  off_log w (Path.components (DirWatcher.replica this)) = true ->
  FS.lookup (Path.components (DirWatcher.replica this)) (files w)
  = Some (FS.Dir rch rm) ->
  agree rch old ->
  FS.lookup (Path.components (DirWatcher.source this)) (files w)
  = Some (FS.Dir new sm) ->
  flat new = true ->
  (forall n, In n (FS.names new) ->
             Str.size (Path.append (DirWatcher.source this) n) < 2 ^ 31) ->
  created_or_removed old new ->
  exists this' w' rch' rm',
    DirWatcher.poll DirWatcherCallback.cb this w = Return this' w' /\
    FS.lookup (Path.components (DirWatcher.source this)) (files w')
    = Some (FS.Dir new sm) /\
    FS.lookup (Path.components (DirWatcher.replica this)) (files w')
    = Some (FS.Dir rch' rm') /\
    agree rch' new /\
    DirWatcher.garbage this' = [] /\
    snapshot_in_shadow this' /\
    DirWatcher.source this' = DirWatcher.source this /\
    DirWatcher.replica this' = DirWatcher.replica this /\
    logger_this_ptr w' = logger_this_ptr w /\
    snapshot_of this' new.
Proof.
  intros Hg Hsh Hknows Hapart Hlog Hlsrc Hlrep Hrep Hagree Hsrc Hflat Hshort
         Hstays.
  destruct (logger_this_ptr w) as [lg|] eqn:Elog; [clear Hlog|congruence].
  rewrite (off_log_writes w lg _ Elog) in Hlsrc.
  rewrite (off_log_writes w lg _ Elog) in Hlrep.
  set (src := DirWatcher.source this) in *.
  set (rep := DirWatcher.replica this) in *.
  assert (Hs0 : shape src rep new sm lg w rch).
  { split; [exact Hsrc|]. split; [eauto|exact Elog]. }
  assert (Hinv0 : walk_invariant src rep new sm lg this rch [] this w rch).
  { split; [exact Hs0|]. split; [eapply replica_files_only; eassumption|].
    split; [split; reflexivity|]. split; [exact Hg|]. split; [exact Hsh|].
    split; [intros n []|]. split; [reflexivity|]. split; [auto|].
    split; [auto|intros n []]. }
  destruct (walk_flat src rep Hapart new sm lg Hlsrc Hlrep Hflat Hshort this old rch
              eq_refl Hknows Hagree Hstays new [] this w rch eq_refl Hinv0)
    as (walked & w1 & rch1 & Hwalk & Hinv1).
  assert (Hinv2 : scan_invariant src rep new sm lg walked rch1 [] walked w1 rch1).
  { destruct Hinv1 as (Hs1 & Hfo1 & Hr1 & _).
    split; [exact Hs1|]. split; [exact Hfo1|]. split; [exact Hr1|].
    split; [reflexivity|]. split; [reflexivity|]. split; [reflexivity|].
    split; [now left|]. split; [intros e m []|now left]. }
  destruct (scan_flat src rep Hapart new sm lg Hlsrc Hlrep Hflat Hshort this old rch
              eq_refl Hknows walked rch1 (ex_intro _ w1 Hinv1)
              (DirWatcher.source_content walked) [] walked w1 rch1
              (fun e H => H) Hinv2)
    as (mid & w2 & rch2 & Hscan & Hinv3).
  destruct Hinv3 as ((Hsrc2 & (rm2 & Hrep2) & Hlog2) & _ & [Hsm Hrm] & Hsc & Hrc
                     & Hkeep & Honly & Hdone & Hgar).
  destruct Hinv1 as (_ & _ & _ & Hg1 & Hsh1 & Hall & Hrest & Hmono & Hnew & Hhas).
  cbn [app] in Hdone.
  assert (Hnames : forall e g m n,
            path e = Path.append src n -> plain n = true ->
            path g = Path.append src m -> plain m = true ->
            same_entry e g = true -> n = m).
  { intros e g m n He Hn Hg' Hm Hs. unfold same_entry in Hs.
    rewrite He, Hg' in Hs. apply equiv_components in Hs.
    rewrite !PathFacts.components_append in Hs by assumption.
    apply app_inv_head in Hs. congruence. }
  exists (DirWatcher.collect_garbage mid), w2, rch2, rm2.
  split; [|split; [exact Hsrc2|split; [exact Hrep2|split; [|split; [|split;
    [|split; [|split; [|split]]]]]]]].
  - unfold DirWatcher.poll, bind, recursive_directory_iterator.
    fold src. rewrite Hsrc.
    rewrite (entries_below_flat src new sm Hflat). rewrite Hwalk, Hscan.
    reflexivity.
  - intros n. destruct (FS.child n new) as [x|] eqn:Ex.
    + rewrite (Hkeep n x Ex), <- Ex. apply Hall.
      apply child_in in Ex. unfold FS.names. now apply (in_map fst) in Ex.
    + assert (Hn : ~ In n (FS.names new)) by now apply child_names.
      destruct (Honly n) as [Hsame|Hnone]; [|now rewrite Hnone].
      rewrite Hsame, (Hrest n Hn).
      destruct (FS.child n rch) as [y|] eqn:Ey; [|reflexivity]. exfalso.
      pose proof (Hagree n) as Ha. rewrite Ey in Ha.
      destruct (FS.child n old) as [z|] eqn:Ez; [|discriminate].
      destruct Hknows as [_ Hcomplete].
      destruct (Hcomplete n z Ez) as (e & He & Hp).
      assert (Hgone : FS.child n rch2 = None).
      { apply (Hdone e n); [apply Hmono; exact He|exact Hp|exact Ex]. }
      rewrite Hsame, (Hrest n Hn), Ey in Hgone. discriminate.
  - reflexivity.
  - intros x Hx. cbn in *. rewrite Hrc. apply Hsh1.
    apply contains_erase_all in Hx. now rewrite Hsc in Hx.
  - exact Hsm.
  - exact Hrm.
  - exact Hlog2.
  - destruct Hknows as [Hsound Hcomplete]. split.
    + intros e He. cbn in He. apply SetFacts.in_erase_all in He.
      destruct He as [He Hnot]. rewrite Hsc in He.
      assert (Hkept : forall n, path e = Path.append src n ->
                FS.child n new <> None).
      { intros n Hp Hnone.
        destruct (Hdone e n He Hp Hnone) as [_ Hin].
        pose proof (Hnot e Hin) as Hself.
        rewrite same_entry_refl in Hself. discriminate. }
      cbn [DirWatcher.source DirWatcher.collect_garbage DirWatcher.with_garbage
           DirWatcher.with_sets]. rewrite Hsm.
      destruct (Hnew e He) as [H0|(n & c & t & Hn & Hp & Hx & Ht)].
      * destruct (Hsound e H0) as (n & c1 & t1 & Hp & Hpl & Hlen & Hold & Ht).
        fold src in Hp. pose proof (Hkept n Hp) as Hex.
        destruct (FS.child n new) as [x|] eqn:Ex; [|congruence].
        destruct (flat_child src new Hflat Hshort n x Ex) as (_ & _ & c & t & ->).
        exists n, c, t. repeat split; assumption.
      * destruct (flat_child src new Hflat Hshort n _ Hx) as (Hpl & Hlen & _).
        exists n, c, t. rewrite Hp. repeat split; assumption.
    + intros n x Hx.
      destruct (flat_child src new Hflat Hshort n x Hx) as (Hpl & _).
      assert (Hn : In n (FS.names new)).
      { apply child_in in Hx. unfold FS.names. now apply (in_map fst) in Hx. }
      destruct (Hhas n Hn) as (e & He & Hp).
      exists e. cbn [DirWatcher.source DirWatcher.collect_garbage
                     DirWatcher.with_garbage DirWatcher.with_sets
                     DirWatcher.source_content].
      rewrite Hsm. split; [|exact Hp].
      apply SetFacts.in_erase_all. rewrite Hsc. split; [exact He|].
      intros g Hg'. destruct (same_entry e g) eqn:Es; [exfalso|reflexivity].
      destruct (Hgar g Hg') as [Hbad|(m & Hpg & Hplm & Hnone)].
      * rewrite Hg1 in Hbad. destruct Hbad.
      * assert (n = m) by (eapply Hnames; eassumption). congruence.
Qed.

Lemma flat_source_is_mirrored_witness :
  exists this' w' rch' rm',
    DirWatcher.poll DirWatcherCallback.cb Examples.after_first_poll
      Examples.before_second_poll = Return this' w' /\
    FS.lookup ["Replica"] (files w') = Some (FS.Dir rch' rm') /\
    agree rch' Examples.new_source.
Proof.
  destruct (flat_source_is_mirrored Examples.after_first_poll
              Examples.before_second_poll Examples.old_source
              Examples.new_source Examples.old_replica 17 15)
    as (this' & w' & rch' & rm' & H1 & _ & H3 & H4 & _).
  - reflexivity.
  - intros x Hx. exact Hx.
  - split.
    + intros e [<-|[<-|[]]].
      * exists "a.txt", "hello", 3. repeat split; try reflexivity; discriminate.
      * exists "c.txt", "bye", 2. repeat split; try reflexivity; discriminate.
    + intros n x. unfold Examples.old_source. cbn [FS.child].
      destruct (String.eqb "a.txt" n) eqn:Ea.
      * apply String.eqb_eq in Ea. subst n. intros _.
        exists Examples.a_txt. split; [now left|reflexivity].
      * destruct (String.eqb "c.txt" n) eqn:Ec; [|discriminate].
        apply String.eqb_eq in Ec. subst n. intros _.
        exists Examples.c_txt. split; [right; now left|reflexivity].
  - reflexivity.
  - discriminate.
  - reflexivity.
  - reflexivity.
  - reflexivity.
  - intros n. unfold Examples.old_replica, Examples.old_source.
    cbn [FS.child option_map FS.erase_times].
    destruct (String.eqb "a.txt" n); [reflexivity|].
    destruct (String.eqb "c.txt" n); reflexivity.
  - reflexivity.
  - reflexivity.
  - intros n [<-|[<-|[]]]; reflexivity.
  - intros n c t c1 t1. unfold Examples.new_source, Examples.old_source.
    cbn [FS.child].
    destruct (String.eqb "a.txt" n).
    + intros [= <- _] [= <- _]. reflexivity.
    + destruct (String.eqb "b.txt" n) eqn:Eb; [|discriminate].
      apply String.eqb_eq in Eb. subst n. discriminate.
  - exists this', w', rch', rm'. auto.
Defined.

(* ================================================================== *)
(** * The file name of a path *)

Lemma final_component_split (s : string) :
  Str.last_index "/"%char (Path.final_component s) = None /\
  match Str.last_index "/"%char s with
  | None => Path.final_component s = s
  | Some _ =>
      exists dir,
        s = dir ++ Path.final_component s /\ Str.ends_with_sep dir = true
  end.
Proof.
  unfold Path.final_component.
  induction s as [|a s [IH1 IH2]].
  - simpl. auto.
  - cbn [Str.split_on Str.last_index].
    destruct (Str.last_index "/"%char s) as [i|] eqn:E.
    + destruct (last_index_some_split _ s i E) as (_ & (x & y & ys & Hs) & _).
      destruct IH2 as (dir & Hdir & Hsep).
      assert (Hlast :
        last (if Ascii.eqb a "/"%char
              then EmptyString :: Str.split_on "/"%char s
              else match Str.split_on "/"%char s with
                   | [] => [String a EmptyString]
                   | x :: xs => String a x :: xs
                   end) EmptyString
        = last (Str.split_on "/"%char s) EmptyString).
      { rewrite Hs. destruct (Ascii.eqb a "/"%char); reflexivity. }
      rewrite Hlast. split; [exact IH1|].
      exists (String a dir). split.
      * simpl. now rewrite <- Hdir.
      * destruct dir; [discriminate|]. exact Hsep.
    + rewrite (last_index_none_split _ s E) in *. cbn [last] in *.
      destruct (Ascii.eqb a "/"%char) eqn:Ea.
      * cbn [last]. split; [exact E|].
        apply Ascii.eqb_eq in Ea. subst a. exists "/". split; reflexivity.
      * cbn [last Str.last_index]. rewrite E, Ea. auto.
Qed.

(** X1. For every string shorter than [2^31] characters [get_filename]
    returns, without throwing, the text after the last separator: a suffix
    of its argument that holds no separator and that is preceded by
    nothing or by text ending in a separator. A string without separator
    is returned as it is (the [npos] that [rfind] returns becomes [-1] in
    the [int]). *)
Theorem get_filename_is_last_name (str : string) (w : world) :
  Str.size str < 2 ^ 31 ->
  exists dir name,
    DirWatcherCallback.get_filename str w = Return name w /\
    str = dir ++ name /\
    Str.last_index "/"%char name = None /\
    (dir = "" \/ Str.ends_with_sep dir = true) /\
    (Str.last_index "/"%char str = None -> name = str).
Proof.
  intros Hlen. rewrite (get_filename_final_component str w Hlen).
  destruct (final_component_split str) as [Hnone Hsplit].
  destruct (Str.last_index "/"%char str) as [i|].
  - destruct Hsplit as (dir & Hdir & Hsep).
    exists dir, (Path.final_component str).
    repeat split; auto. discriminate.
  - exists "", (Path.final_component str). rewrite Hsplit in *.
    repeat split; auto.
Qed.

Lemma get_filename_is_last_name_witness :
  exists dir name,
    DirWatcherCallback.get_filename "Source/sub/a.txt"
      (Examples.world_with Examples.one_file)
    = Return name (Examples.world_with Examples.one_file) /\
    "Source/sub/a.txt" = dir ++ name /\
    Str.last_index "/"%char name = None /\
    (dir = "" \/ Str.ends_with_sep dir = true) /\
    (Str.last_index "/"%char "Source/sub/a.txt" = None ->
     name = "Source/sub/a.txt").
Proof.
  apply (get_filename_is_last_name "Source/sub/a.txt"
           (Examples.world_with Examples.one_file)).
  reflexivity.
Defined.

(* ================================================================== *)
(** * The messages of the callback *)

Section Messages.

Import DirWatcherCallbackBase.

(** X2. With a logger in place [DirWatcherCallback::log] never throws,
    although [get_action_str] and [get_file_str] throw on the unexpected
    values: the dispatch keeps them away from those. It makes exactly one
    call of the logger, which writes one record - a warning when the
    action or the file type is the unexpected one and informational
    otherwise - to the console and, as a line, to the log file. *)
Theorem log_writes_one_record
  (action : action_t) (file : file_t) (name : string)
  (lg : Logger.t) (w : world) :
  logger_this_ptr w = Some lg ->
  exists (msg : string) (LINE : Z),
    let severity :=
      if action_eqb UNEXPECTED_ACTION action || file_eqb UNEXPECTED_FILE file
      then Logger.WARNING else Logger.INFO in
    DirWatcherCallback.log action file name w
    = Return tt (logf_internal lg severity __FILE__ LINE msg w) /\
    242 <= LINE <= 248 /\
    log_lines (logf_internal lg severity __FILE__ LINE msg w)
    = (log_lines w
         ++ [{| Logger.severity := severity; Logger.text := msg |}])%list.
Proof.
  intros H.
  destruct action, file;
    cbv [DirWatcherCallback.log action_eqb file_eqb andb orb bind ret
         get_file_str get_action_str];
    rewrite logf_unfold by reflexivity; rewrite H;
    do 2 eexists; (split; [reflexivity|]); (split; [lia|]);
    apply logf_internal_rest.
Qed.

(** X3. [report_action] has no branch for the unexpected action or the
    unexpected file type: such a call returns at once and leaves the
    process as it was - no file operation, no log record, and no exception
    even when no logger exists. *)
Theorem report_action_ignores_unexpected
  (a : action_t) (f : file_t) (p d : string) (w : world) :
  action_eqb a UNEXPECTED_ACTION || file_eqb f UNEXPECTED_FILE = true ->
  DirWatcherCallback.report_action a f p d w = Return tt w.
Proof. destruct a, f; try discriminate; reflexivity. Qed.

Lemma copy_failed_below (now : Z) (name : string) (from a q b : list string)
  (root : FS.node) :
  apart b a = true ->
  FS.lookup b (FS.copy_failed now name from (a ++ q) root) = FS.lookup b root.
Proof.
  intros Hb. unfold FS.copy_failed.
  destruct (FS.lookup from root); [|reflexivity].
  destruct (Path.same from (a ++ q)); [reflexivity|].
  destruct (FS.copy_debris _ _ _ _); [|reflexivity].
  destruct (FS.put now (a ++ q) n0 root) as [root'|] eqn:E; [|reflexivity].
  exact (Apart.put_apart _ _ _ _ _ _ _ E Hb).
Qed.



End Messages.

Lemma log_writes_one_record_witness :
  (exists (msg : string) (LINE : Z),
     DirWatcherCallback.log DirWatcherCallbackBase.UNEXPECTED_ACTION
       DirWatcherCallbackBase.REGULAR "a.txt"
       (Examples.world_with Examples.one_file)
     = Return tt
         (logf_internal Examples.the_logger Logger.WARNING __FILE__ LINE msg
            (Examples.world_with Examples.one_file)) /\
     242 <= LINE <= 248 /\
     log_lines (logf_internal Examples.the_logger Logger.WARNING __FILE__ LINE
                  msg (Examples.world_with Examples.one_file))
     = [{| Logger.severity := Logger.WARNING; Logger.text := msg |}]) /\
  FS.lookup ["log.txt"]
    (files (world_of
              (DirWatcherCallback.log DirWatcherCallbackBase.UNEXPECTED_ACTION
                 DirWatcherCallbackBase.REGULAR "a.txt"
                 (Examples.world_with Examples.one_file))))
  = Some (FS.File
            ("1970/01/01 00:00:10 | WARNING: Unexpected action has been detected for Regular file a.txt (FROM: main.cpp:244)"
               ++ Logger.endl) 10).
Proof.
  split; [|reflexivity].
  exact (log_writes_one_record DirWatcherCallbackBase.UNEXPECTED_ACTION
           DirWatcherCallbackBase.REGULAR "a.txt" Examples.the_logger
           (Examples.world_with Examples.one_file) eq_refl).
Defined.

Lemma report_action_ignores_unexpected_witness :
  DirWatcherCallback.report_action DirWatcherCallbackBase.CREATE
    DirWatcherCallbackBase.UNEXPECTED_FILE "Source/pipe" "Replica"
    (Examples.at_start Examples.one_pipe)
  = Return tt (Examples.at_start Examples.one_pipe).
Proof.
  apply (report_action_ignores_unexpected DirWatcherCallbackBase.CREATE
           DirWatcherCallbackBase.UNEXPECTED_FILE "Source/pipe" "Replica"
           (Examples.at_start Examples.one_pipe)).
  reflexivity.
Defined.

(* ================================================================== *)
(** * Deleting twice *)

Lemma set_files_same (w : world) : set_files (files w) w = w.
Proof. now destruct w. Qed.

Lemma lookup_none_kinds (b : list string) (r r' : FS.node) :
  option_map FS.kind_of (FS.lookup b r') = option_map FS.kind_of (FS.lookup b r) ->
  FS.lookup b r = None -> FS.lookup b r' = None.
Proof.
  intros H E. rewrite E in H. now destruct (FS.lookup b r').
Qed.

Section DeleteTwice.

Import DirWatcherCallbackBase.

(** X5. After a delete event has been applied, the replica location of
    its path does not exist, and applying the same event again succeeds
    and does nothing but write its line to the log: [fs::remove] and
    [fs::remove_all] do not fail on a path that does not exist. Every
    path off the log file denotes what it did, and the tree is exactly as
    it was when the logger has no file open. *)
Theorem delete_again_changes_nothing
  (f : file_t) (p d : string) (w w1 : world) :
  Str.size p < 2 ^ 31 ->
  file_eqb f UNEXPECTED_FILE = false ->
  DirWatcherCallback.report_action DELETE f p d w = Return tt w1 ->
  fs_exists (replica_location d p) w1 = false /\
  exists w2,
    DirWatcherCallback.report_action DELETE f p d w1 = Return tt w2 /\
    log_line DELETE f p w1 = Return tt w2 /\
    (forall b : list string,
        off_log w1 b = true ->
        FS.lookup b (files w2) = FS.lookup b (files w1)) /\
    (log_file w1 = None -> files w2 = files w1).
Proof.
  intros Hlen Hf.
  assert (Hline : forall LINE msg lg v,
            logger_this_ptr v = Some lg ->
            (forall b : list string,
                off_log v b = true ->
                FS.lookup b (files (logf_internal lg Logger.INFO __FILE__ LINE msg v))
                = FS.lookup b (files v)) /\
            (log_file v = None ->
             files (logf_internal lg Logger.INFO __FILE__ LINE msg v) = files v)).
  { intros LINE msg lg v Hv. split.
    - intros b Hb. apply logf_internal_apart.
      now rewrite <- (off_log_writes v lg b Hv).
    - unfold log_file. rewrite Hv. unfold logf_internal, write_stream.
      destruct (Logger.outf lg); [discriminate|reflexivity]. }
  rewrite (report_action_branches DELETE f p d w Hlen),
          (report_action_branches DELETE f p d w1 Hlen).
  destruct f; try discriminate; unfold bind, log_line.
  - (* a directory: remove_all, then logf *)
    unfold fs_remove_all at 1, fs_call.
    destruct (FS.remove_all (clock w) _ (files w)) as [root'|] eqn:E;
      [|discriminate].
    rewrite logf_unfold by reflexivity.
    change (logger_this_ptr (set_files root' w)) with (logger_this_ptr w).
    destruct (logger_this_ptr w) as [lg|] eqn:El; [|discriminate].
    intros Hw1.
    assert (Hgone : FS.lookup (Path.components (replica_location d p)) (files w1)
                    = None).
    { injection Hw1 as <-.
      apply (lookup_none_kinds _ root'); [apply logf_internal_kinds|].
      exact (lookup_remove_all _ _ _ _ E). }
    assert (Hlg : logger_this_ptr w1 = Some lg).
    { injection Hw1 as <-.
      match goal with |- logger_this_ptr (logf_internal ?l ?s ?f ?n ?m ?v) = _ =>
        destruct (logf_internal_rest l s f n m v) as (_ & -> & _) end.
      exact El. }
    clear Hw1. unfold fs_exists. rewrite Hgone. split; [reflexivity|].
    unfold fs_remove_all, fs_call, FS.remove_all. rewrite Hgone.
    rewrite set_files_same, logf_unfold, Hlg by reflexivity.
    eexists. split; [reflexivity|]. split; [reflexivity|]. now apply Hline.
  - (* a regular file: logf, then remove *)
    rewrite logf_unfold by reflexivity.
    destruct (logger_this_ptr w) as [lg|] eqn:El; [|discriminate].
    match goal with |- context [logf_internal lg ?s ?f ?n ?m w] =>
      set (wa := logf_internal lg s f n m w) end.
    assert (Hla : logger_this_ptr wa = Some lg).
    { unfold wa.
      match goal with |- logger_this_ptr (logf_internal ?l ?s ?f ?n ?m ?v) = _ =>
        destruct (logf_internal_rest l s f n m v) as (_ & -> & _) end.
      exact El. }
    unfold fs_remove at 1, fs_call.
    destruct (FS.remove (clock wa) _ (files wa)) as [root'|] eqn:E;
      [|discriminate].
    intros Hw1.
    assert (Hgone : FS.lookup (Path.components (replica_location d p)) (files w1)
                    = None).
    { injection Hw1 as <-. exact (lookup_remove _ _ _ _ E). }
    assert (Hlg : logger_this_ptr w1 = Some lg) by (injection Hw1 as <-; exact Hla).
    clear Hw1. unfold fs_exists. rewrite Hgone. split; [reflexivity|].
    rewrite logf_unfold, Hlg by reflexivity.
    match goal with |- context [logf_internal lg ?s ?f ?n ?m w1] =>
      set (wb := logf_internal lg s f n m w1) end.
    assert (Hgone' : FS.lookup (Path.components (replica_location d p)) (files wb)
                     = None).
    { apply (lookup_none_kinds _ (files w1)); [apply logf_internal_kinds|].
      exact Hgone. }
    unfold fs_remove, fs_call, FS.remove. rewrite Hgone', set_files_same.
    exists wb. split; [reflexivity|]. split; [reflexivity|]. now apply Hline.
Qed.

End DeleteTwice.

Lemma delete_again_changes_nothing_witness :
  match DirWatcherCallback.report_action DirWatcherCallbackBase.DELETE
          DirWatcherCallbackBase.REGULAR "Source/a.txt" "Replica"
          (Examples.world_with Scenes.left_over) with
  | Return _ w1 =>
      fs_exists "Replica/a.txt" w1 = false /\
      exists w2,
        DirWatcherCallback.report_action DirWatcherCallbackBase.DELETE
          DirWatcherCallbackBase.REGULAR "Source/a.txt" "Replica" w1
        = Return tt w2 /\
        FS.lookup ["Replica"] (files w2) = FS.lookup ["Replica"] (files w1) /\
        FS.lookup ["Source"] (files w2) = FS.lookup ["Source"] (files w1)
  | Raise _ _ => False
  end.
Proof.
  destruct (DirWatcherCallback.report_action DirWatcherCallbackBase.DELETE
              DirWatcherCallbackBase.REGULAR "Source/a.txt" "Replica"
              (Examples.world_with Scenes.left_over)) as [[] w1|e w1] eqn:E.
  - destruct (delete_again_changes_nothing DirWatcherCallbackBase.REGULAR
                "Source/a.txt" "Replica" (Examples.world_with Scenes.left_over)
                w1 eq_refl eq_refl E) as (Hgone & w2 & H2 & _ & Hoff & _).
    split; [exact Hgone|]. exists w2. split; [exact H2|].
    assert (Hl : logger_this_ptr w1 = Some Examples.the_logger)
      by (vm_compute in E; injection E as <-; reflexivity).
    split; apply Hoff; unfold off_log, log_file; rewrite Hl; reflexivity.
  - vm_compute in E. discriminate E.
Defined.
(* ================================================================== *)
(** * What the reconciler and the poll cycle leave alone *)

Section Keeping.

Import DirWatcherCallbackBase.
Import DirWatcher.
Local Open Scope prog_scope.

Context {X : Type} (f : world -> X).

Lemma keeps_ret {A : Type} (a : A) : keeps f (ret a).
Proof. intros w. reflexivity. Qed.

Lemma keeps_throw {A : Type} (e : exn) : keeps f (@throw A e).
Proof. intros w. reflexivity. Qed.

Lemma keeps_bind_when {A B : Type} (Q : A -> Prop) (m : M A) (k : A -> M B) :
  keeps f m ->
  (forall w a w', m w = Return a w' -> Q a) ->
  (forall a, Q a -> keeps f (k a)) ->
  keeps f (bind m k).
Proof.
  intros Hm HQ Hk w. unfold bind. specialize (Hm w).
  destruct (m w) as [a w1|e w1] eqn:E; cbn in Hm.
  - rewrite (Hk a (HQ w a w1 E)). exact Hm.
  - exact Hm.
Qed.

Lemma keeps_bind {A B : Type} (m : M A) (k : A -> M B) :
  keeps f m -> (forall a, keeps f (k a)) -> keeps f (bind m k).
Proof. intros Hm Hk. apply (keeps_bind_when (fun _ => True)); auto. Qed.

Lemma keeps_get_filename (p : string) :
  keeps f (DirWatcherCallback.get_filename p).
Proof.
  intros w. unfold DirWatcherCallback.get_filename.
  destruct (Str.substr _ _ _); reflexivity.
Qed.

Lemma keeps_get_file_str (k : file_t) : keeps f (get_file_str k).
Proof. intros w. destruct k; reflexivity. Qed.

Lemma keeps_iterator (p : string) : keeps f (recursive_directory_iterator p).
Proof.
  intros w. unfold recursive_directory_iterator.
  destruct (FS.lookup _ _) as [[]|]; reflexivity.
Qed.

(** A loop keeps what each of its iterations keeps. *)
Lemma keeps_for_each {A S : Type} (J : S -> Prop) (body : A -> S -> M S)
  (xs : list A) :
  (forall x s, J s -> keeps f (body x s)) ->
  (forall x s w s' w', J s -> body x s w = Return s' w' -> J s') ->
  forall s, J s -> keeps f (for_each xs body s).
Proof.
  intros Hkeep Hinv. induction xs as [|x xs IH]; intros s Hs; simpl.
  - apply keeps_ret.
  - apply (keeps_bind_when J); auto.
    intros w a w'. now apply Hinv.
Qed.

Lemma keeps_last_write_time (e : directory_entry) :
  keeps f (last_write_time e).
Proof.
  intros w. unfold last_write_time. destruct (FS.lookup _ _); reflexivity.
Qed.

(** The calls of the logger keep the observation. *)
Hypothesis keeps_logf :
  forall sev FILE LINE msg, keeps f (logf sev FILE LINE msg).

(** The four file operations of the reconciler, aimed at a name of the
    directory [d], keep the observation. *)
Variable d : string.

Hypothesis Hcopy_file :
  forall from name, keeps f (fs_copy_file from (d ++ "/" ++ name)).
Hypothesis Hcopy :
  forall from name, keeps f (fs_copy from (d ++ "/" ++ name)).
Hypothesis Hremove : forall name, keeps f (fs_remove (d ++ "/" ++ name)).
Hypothesis Hremove_all :
  forall name, keeps f (fs_remove_all (d ++ "/" ++ name)).

Ltac kept :=
  repeat first
    [ apply keeps_ret | apply keeps_logf | apply keeps_get_filename
    | apply keeps_get_file_str | apply Hcopy_file | apply Hcopy
    | apply Hremove | apply Hremove_all
    | (apply keeps_bind; [|intros ?]) ].

Lemma keeps_report_action (a : action_t) (k : file_t) (p : string) :
  keeps f (DirWatcherCallback.report_action a k p d).
Proof.
  unfold DirWatcherCallback.report_action.
  destruct (_ && _); [kept|].
  destruct (_ && _); [kept|].
  destruct (_ && _); [kept|].
  destruct (_ && _); kept.
Qed.

Lemma keeps_report (a : action_t) (k : file_t) (entry : directory_entry)
  (this : t) :
  replica this = d -> keeps f (report DirWatcherCallback.cb a k entry this).
Proof.
  intros Hd. unfold report. rewrite Hd. apply keeps_bind.
  - apply keeps_report_action.
  - intros _. apply keeps_ret.
Qed.

Lemma keeps_classify (entry : directory_entry) (this : t) :
  replica this = d -> keeps f (classify DirWatcherCallback.cb entry this).
Proof.
  intros Hd. unfold classify.
  destruct (EntrySet.find _ _).
  - apply keeps_bind; [apply keeps_last_write_time|intros ?].
    apply keeps_bind; [apply keeps_last_write_time|intros ?].
    destruct (_ <? _); [|apply keeps_ret].
    destruct (is_regular_file entry); [now apply keeps_report|].
    destruct (is_directory entry); [now apply keeps_report|apply keeps_ret].
  - destruct (is_regular_file entry); [now apply keeps_report|].
    destruct (is_directory entry); [now apply keeps_report|apply keeps_ret].
Qed.

Lemma keeps_detect_delete (entry : directory_entry) (this : t) :
  replica this = d -> keeps f (detect_delete DirWatcherCallback.cb entry this).
Proof.
  intros Hd w. unfold detect_delete.
  destruct (_ && _); [|reflexivity].
  revert w. apply keeps_bind; [|intros ?; apply keeps_ret].
  destruct (is_regular_file entry); [now apply keeps_report|].
  destruct (is_directory entry); [now apply keeps_report|apply keeps_ret].
Qed.

Lemma keeps_walk (entries : list directory_entry) (this : t) :
  replica this = d ->
  keeps f (for_each entries (classify DirWatcherCallback.cb) this).
Proof.
  apply (keeps_for_each (fun s => replica s = d)).
  - intros x s. apply keeps_classify.
  - intros x s w s' w' Hs Hc.
    destruct (classify_effect _ x s s' w w' Hc) as (_ & _ & Hr & _). congruence.
Qed.

Lemma keeps_scan (entries : list directory_entry) (this : t) :
  replica this = d ->
  keeps f (for_each entries (detect_delete DirWatcherCallback.cb) this).
Proof.
  apply (keeps_for_each (fun s => replica s = d)).
  - intros x s. apply keeps_detect_delete.
  - intros x s w s' w' Hs Hc.
    destruct (detect_delete_effect _ x s s' w w' Hc) as (_ & _ & _ & Hr & _).
    congruence.
Qed.

Lemma keeps_poll (this : t) :
  replica this = d -> keeps f (poll DirWatcherCallback.cb this).
Proof.
  intros Hd. unfold poll.
  apply keeps_bind; [apply keeps_iterator|]. intros entries.
  apply (keeps_bind_when (fun s => replica s = d)).
  - now apply keeps_walk.
  - intros w a w' Hw.
    destruct (walk_effect _ entries this a w w' Hw) as (_ & _ & Hr & _).
    congruence.
  - intros walked Hw. apply keeps_bind; [|intros ?; apply keeps_ret].
    now apply keeps_scan.
Qed.

End Keeping.

(** An observation that depends neither on the log nor on the tree is
    kept by every file operation, hence by a whole poll cycle. *)
Lemma keeps_fs_call {X : Type} (f : world -> X) (what : string)
  (op : Z -> FS.node -> option FS.node) :
  (forall n w, f (set_files n w) = f w) -> keeps f (fs_call what op).
Proof.
  intros Hfiles w. unfold fs_call.
  destruct (op (clock w) (files w)); cbn; auto.
Qed.

Lemma keeps_fs_copy {X : Type} (f : world -> X) (from to : string) :
  (forall n w, f (set_files n w) = f w) -> keeps f (fs_copy from to).
Proof.
  intros Hfiles w. unfold fs_copy.
  destruct (FS.copy _ _ _ _ _); cbn; auto.
Qed.

Lemma keeps_logf_apart_from_tree {X : Type} (f : world -> X)
  (sev : Logger.severity_t) (FILE : string) (LINE : Z) (msg : string) :
  (forall r w, f (add_log r w) = f w) ->
  (forall n w, f (set_files n w) = f w) ->
  keeps f (logf sev FILE LINE msg).
Proof.
  intros Hlog Hfiles w. unfold logf.
  destruct (logger_this_ptr w); [|reflexivity].
  destruct (_ && _); [reflexivity|]. cbn [world_of].
  unfold logf_internal, write_stream.
  destruct (Logger.outf t); [|apply Hlog].
  destruct (FS.lookup _ _) as [[]|]; try apply Hlog.
  destruct (FS.put _ _ _ _); [|apply Hlog].
  now rewrite Hfiles.
Qed.

Lemma keeps_poll_apart_from_tree {X : Type} (f : world -> X) (this : DirWatcher.t) :
  (forall r w, f (add_log r w) = f w) ->
  (forall n w, f (set_files n w) = f w) ->
  keeps f (DirWatcher.poll DirWatcherCallback.cb this).
Proof.
  intros Hlog Hfiles.
  apply (keeps_poll f) with (d := DirWatcher.replica this); try reflexivity;
    intros;
    first [ now apply keeps_logf_apart_from_tree
          | now apply keeps_fs_copy
          | now apply keeps_fs_call ].
Qed.

Section Frames.

Import DirWatcherCallbackBase.

Variable d : string.
Variable b : list string.
Hypothesis Hb : apart b (Path.components d) = true.

Lemma target_components (name : string) :
  Path.components (d ++ "/" ++ name)
  = (Path.components d ++ Path.components name)%list.
Proof.
  change ("/" ++ name) with (String "/"%char name).
  apply PathFacts.components_app.
Qed.

Lemma view_logf (sev : Logger.severity_t) (FILE : string) (LINE : Z)
  (msg : string) :
  keeps (off_log_view b) (logf sev FILE LINE msg).
Proof.
  intros w. unfold off_log_view.
  destruct (logf_rest sev FILE LINE msg w) as (_ & Hl & _).
  rewrite Hl, (off_log_same w _ b Hl). f_equal.
  destruct (off_log w b) eqn:E; [|reflexivity].
  unfold denotes. now apply logf_apart.
Qed.

Lemma view_set_files (root' : FS.node) (w : world) :
  FS.lookup b root' = FS.lookup b (files w) ->
  off_log_view b (set_files root' w) = off_log_view b w.
Proof.
  intros H. unfold off_log_view.
  change (logger_this_ptr (set_files root' w)) with (logger_this_ptr w).
  change (off_log (set_files root' w) b) with (off_log w b).
  unfold denotes. cbn [files set_files]. now rewrite H.
Qed.

Lemma view_fs_call (what : string) (op : Z -> FS.node -> option FS.node) :
  (forall now root root',
      op now root = Some root' -> FS.lookup b root' = FS.lookup b root) ->
  keeps (off_log_view b) (fs_call what op).
Proof.
  intros Hop w. unfold fs_call.
  destruct (op (clock w) (files w)) as [root'|] eqn:E; [|reflexivity].
  cbn [world_of]. apply view_set_files. exact (Hop _ _ _ E).
Qed.

Lemma view_copy_file (from name : string) :
  keeps (off_log_view b) (fs_copy_file from (d ++ "/" ++ name)).
Proof.
  apply view_fs_call. intros now root root'. rewrite target_components.
  intros H. exact (Apart.copy_file_apart _ _ _ _ _ _ _ H Hb).
Qed.

Lemma view_copy (from name : string) :
  keeps (off_log_view b) (fs_copy from (d ++ "/" ++ name)).
Proof.
  intros w. unfold fs_copy. rewrite target_components.
  destruct (FS.copy _ _ _ _ _) as [root'|] eqn:E; cbn [world_of];
    apply view_set_files.
  - exact (Apart.copy_apart _ _ _ _ _ _ _ _ E Hb).
  - now apply copy_failed_below.
Qed.

Lemma view_remove (name : string) :
  keeps (off_log_view b) (fs_remove (d ++ "/" ++ name)).
Proof.
  apply view_fs_call. intros now root root'. rewrite target_components.
  intros H. exact (Apart.remove_apart _ _ _ _ _ _ H Hb).
Qed.

Lemma view_remove_all (name : string) :
  keeps (off_log_view b) (fs_remove_all (d ++ "/" ++ name)).
Proof.
  apply view_fs_call. intros now root root'. rewrite target_components.
  intros H. exact (Apart.remove_all_apart _ _ _ _ _ _ H Hb).
Qed.

Lemma kind_set_files (root' : FS.node) (w : world) :
  FS.lookup b root' = FS.lookup b (files w) ->
  kind_at b (set_files root' w) = kind_at b w.
Proof. intros H. unfold kind_at, denotes. cbn [files set_files]. now rewrite H. Qed.

Lemma kind_logf (sev : Logger.severity_t) (FILE : string) (LINE : Z)
  (msg : string) :
  keeps (kind_at b) (logf sev FILE LINE msg).
Proof. intros w. apply logf_kinds. Qed.

Lemma kind_fs_call (what : string) (op : Z -> FS.node -> option FS.node) :
  (forall now root root',
      op now root = Some root' -> FS.lookup b root' = FS.lookup b root) ->
  keeps (kind_at b) (fs_call what op).
Proof.
  intros Hop w. unfold fs_call.
  destruct (op (clock w) (files w)) as [root'|] eqn:E; [|reflexivity].
  cbn [world_of]. apply kind_set_files. exact (Hop _ _ _ E).
Qed.

Lemma kind_copy_file (from name : string) :
  keeps (kind_at b) (fs_copy_file from (d ++ "/" ++ name)).
Proof.
  apply kind_fs_call. intros now root root'. rewrite target_components.
  intros H. exact (Apart.copy_file_apart _ _ _ _ _ _ _ H Hb).
Qed.

Lemma kind_copy (from name : string) :
  keeps (kind_at b) (fs_copy from (d ++ "/" ++ name)).
Proof.
  intros w. unfold fs_copy. rewrite target_components.
  destruct (FS.copy _ _ _ _ _) as [root'|] eqn:E; cbn [world_of];
    apply kind_set_files.
  - exact (Apart.copy_apart _ _ _ _ _ _ _ _ E Hb).
  - now apply copy_failed_below.
Qed.

Lemma kind_remove (name : string) :
  keeps (kind_at b) (fs_remove (d ++ "/" ++ name)).
Proof.
  apply kind_fs_call. intros now root root'. rewrite target_components.
  intros H. exact (Apart.remove_apart _ _ _ _ _ _ H Hb).
Qed.

Lemma kind_remove_all (name : string) :
  keeps (kind_at b) (fs_remove_all (d ++ "/" ++ name)).
Proof.
  apply kind_fs_call. intros now root root'. rewrite target_components.
  intros H. exact (Apart.remove_all_apart _ _ _ _ _ _ H Hb).
Qed.

(** The kind of what lies apart from the replica is kept by every
    iteration of the two loops: the file operations do not reach it, and
    the logger changes the content of a file at most. *)
Lemma kind_classify (entry : directory_entry) (this : DirWatcher.t) :
  DirWatcher.replica this = d ->
  keeps (kind_at b) (DirWatcher.classify DirWatcherCallback.cb entry this).
Proof.
  apply (keeps_classify (kind_at b)).
  - apply kind_logf.
  - apply kind_copy_file.
  - apply kind_copy.
  - apply kind_remove.
  - apply kind_remove_all.
Qed.

Lemma kind_detect_delete (entry : directory_entry) (this : DirWatcher.t) :
  DirWatcher.replica this = d ->
  keeps (kind_at b) (DirWatcher.detect_delete DirWatcherCallback.cb entry this).
Proof.
  apply (keeps_detect_delete (kind_at b)).
  - apply kind_logf.
  - apply kind_copy_file.
  - apply kind_copy.
  - apply kind_remove.
  - apply kind_remove_all.
Qed.

(** What is kept of the view is kept of the tree, off the log file. *)
Lemma view_denotes {A : Type} (m : M A) (w : world) :
  keeps (off_log_view b) m ->
  off_log w b = true ->
  logger_this_ptr (world_of (m w)) = logger_this_ptr w /\
  FS.lookup b (files (world_of (m w))) = FS.lookup b (files w).
Proof.
  intros Hk Hoff. specialize (Hk w). unfold off_log_view in Hk.
  injection Hk as Hl Hd. split; [exact Hl|].
  rewrite (off_log_same w _ b Hl), Hoff in Hd. exact Hd.
Qed.

Lemma view_poll (this : DirWatcher.t) :
  DirWatcher.replica this = d ->
  keeps (off_log_view b) (DirWatcher.poll DirWatcherCallback.cb this).
Proof.
  apply (keeps_poll (off_log_view b)).
  - apply view_logf.
  - apply view_copy_file.
  - apply view_copy.
  - apply view_remove.
  - apply view_remove_all.
Qed.

(** X6. Whatever the event and whatever the source path, [report_action]
    writes at the replica root or below it, and to the log file: a path
    that parts ways with the replica root and with the log file denotes
    the same node afterwards as before, whether the call returns or
    throws. *)
Theorem report_action_stays_in_replica
  (a : action_t) (f : file_t) (p : string) (w : world) :
  off_log w b = true ->
  FS.lookup b (files (world_of (DirWatcherCallback.report_action a f p d w)))
  = FS.lookup b (files w).
Proof.
  intros Hoff. apply view_denotes; [|exact Hoff].
  apply (keeps_report_action (off_log_view b)).
  - apply view_logf.
  - apply view_copy_file.
  - apply view_copy.
  - apply view_remove.
  - apply view_remove_all.
Qed.

End Frames.

(** X7. A poll cycle of the watcher with the shipped callback changes the
    tree at the replica root and below it, and writes to the log file; it
    changes the tree nowhere else, whether the cycle returns or throws. In
    particular a source directory that lies apart from the replica and
    from the log file is never written to: every path at or below the
    source root denotes after the cycle what it did before. *)
Theorem poll_stays_in_replica (this : DirWatcher.t) (w : world) :
  (forall b,
      apart b (Path.components (DirWatcher.replica this)) = true ->
      off_log w b = true ->
      FS.lookup b (files (world_of (DirWatcher.poll DirWatcherCallback.cb this w)))
      = FS.lookup b (files w)) /\
  (apart (Path.components (DirWatcher.source this))
         (Path.components (DirWatcher.replica this)) = true ->
   off_log w (Path.components (DirWatcher.source this)) = true ->
   forall q,
     FS.lookup (Path.components (DirWatcher.source this) ++ q)%list
       (files (world_of (DirWatcher.poll DirWatcherCallback.cb this w)))
     = FS.lookup (Path.components (DirWatcher.source this) ++ q)%list (files w)).
Proof.
  assert (H : forall b,
      apart b (Path.components (DirWatcher.replica this)) = true ->
      off_log w b = true ->
      FS.lookup b (files (world_of (DirWatcher.poll DirWatcherCallback.cb this w)))
      = FS.lookup b (files w)).
  { intros b Hb Hoff.
    apply (view_denotes b); [|exact Hoff].
    exact (view_poll (DirWatcher.replica this) b Hb this eq_refl). }
  split; [exact H|].
  intros Hapart Hoff q. apply H; [now apply Apart.apart_app|].
  unfold off_log in *. destruct (log_file w); [|reflexivity].
  now apply Apart.apart_app.
Qed.

Lemma report_action_stays_in_replica_witness :
  FS.lookup ["Source"]
    (files (world_of
      (DirWatcherCallback.report_action DirWatcherCallbackBase.CREATE
         DirWatcherCallbackBase.REGULAR "Source/a.txt" "Replica"
         (Examples.world_with Examples.one_file))))
  = Some (FS.Dir [("a.txt", FS.File "hello" 3)] 3).
Proof.
  apply (report_action_stays_in_replica "Replica" ["Source"]).
  - reflexivity.
  - reflexivity.
Defined.

Lemma poll_stays_in_replica_witness :
  FS.lookup ["Source"; "a.txt"]
    (files (world_of (DirWatcher.poll DirWatcherCallback.cb Examples.fresh
                        (Examples.world_with Examples.one_file))))
  = Some (FS.File "hello" 3) /\
  FS.lookup ["log.txt"]
    (files (world_of (DirWatcher.poll DirWatcherCallback.cb Examples.fresh
                        (Examples.world_with Examples.one_file))))
  = Some (FS.File
            ("1970/01/01 00:00:10 | INFO: Regular file a.txt has been created in Replica | Source/a.txt (FROM: main.cpp:216)"
               ++ Logger.endl) 10).
Proof.
  split; [|reflexivity].
  apply (proj1 (poll_stays_in_replica Examples.fresh
                  (Examples.world_with Examples.one_file))
               ["Source"; "a.txt"]).
  - reflexivity.
  - reflexivity.
Defined.
(* ================================================================== *)
(** * The order of the two sets *)

Module Order.

Lemma ascii_compare_trans (x y z : ascii) (c : comparison) :
  Ascii.compare x y = c -> Ascii.compare y z = c -> Ascii.compare x z = c.
Proof.
  unfold Ascii.compare. intros H1 H2. destruct c.
  - apply N.compare_eq_iff in H1. apply N.compare_eq_iff in H2.
    apply N.compare_eq_iff. congruence.
  - apply N.compare_lt_iff in H1. apply N.compare_lt_iff in H2.
    apply N.compare_lt_iff. eapply N.lt_trans; eassumption.
  - apply N.compare_gt_iff in H1. apply N.compare_gt_iff in H2.
    apply N.compare_gt_iff. eapply N.lt_trans; eassumption.
Qed.

Lemma ascii_compare_eq (x y : ascii) : Ascii.compare x y = Eq -> x = y.
Proof.
  unfold Ascii.compare. intros H. apply N.compare_eq_iff in H.
  rewrite <- (ascii_N_embedding x), <- (ascii_N_embedding y). now rewrite H.
Qed.

Lemma string_compare_trans (a b c : string) :
  String.compare a b = Lt -> String.compare b c = Lt -> String.compare a c = Lt.
Proof.
  revert b c. induction a as [|x a IH]; intros [|y b] [|z c]; simpl;
    try discriminate; try reflexivity.
  destruct (Ascii.compare x y) eqn:E1; try discriminate;
    destruct (Ascii.compare y z) eqn:E2; try discriminate.
  - rewrite (ascii_compare_trans x y z Eq E1 E2). apply IH.
  - apply ascii_compare_eq in E1. subst y. now rewrite E2.
  - apply ascii_compare_eq in E2. subst z. now rewrite E1.
  - now rewrite (ascii_compare_trans x y z Lt E1 E2).
Qed.

Lemma compare_components_trans (a b c : list string) :
  Path.compare_components a b = Lt ->
  Path.compare_components b c = Lt ->
  Path.compare_components a c = Lt.
Proof.
  revert b c. induction a as [|x a IH]; intros [|y b] [|z c]; simpl;
    try discriminate; try reflexivity.
  destruct (String.compare x y) eqn:E1; try discriminate;
    destruct (String.compare y z) eqn:E2; try discriminate.
  - apply String.compare_eq_iff in E1. apply String.compare_eq_iff in E2.
    subst y z.
    rewrite string_compare_refl. apply IH.
  - apply String.compare_eq_iff in E1. subst y. now rewrite E2.
  - apply String.compare_eq_iff in E2. subst z. now rewrite E1.
  - now rewrite (string_compare_trans x y z E1 E2).
Qed.

Lemma compare_components_antisym (a b : list string) :
  Path.compare_components a b = CompOpp (Path.compare_components b a).
Proof.
  revert b. induction a as [|x a IH]; intros [|y b]; simpl; try reflexivity.
  rewrite (String.compare_antisym x y).
  destruct (String.compare y x); simpl; auto.
Qed.

Lemma path_lt_trans (x y z : directory_entry) :
  path_lt x y = true -> path_lt y z = true -> path_lt x z = true.
Proof.
  unfold path_lt, Path.compare. intros H1 H2.
  destruct (Path.compare_components (Path.components (path x))
              (Path.components (path y))) eqn:E1; try discriminate.
  destruct (Path.compare_components (Path.components (path y))
              (Path.components (path z))) eqn:E2; try discriminate.
  now rewrite (compare_components_trans _ _ _ E1 E2).
Qed.

Lemma path_lt_apart (x y : directory_entry) :
  path_lt x y = true -> same_entry x y = false /\ same_entry y x = false.
Proof.
  unfold path_lt, same_entry, Path.equiv, Path.same, Path.compare.
  rewrite (compare_components_antisym (Path.components (path y))).
  destruct (Path.compare_components _ _); try discriminate. auto.
Qed.

Lemma ascending_emplace (s : EntrySet.t) (e : directory_entry) :
  ascending s = true -> ascending (EntrySet.emplace s e) = true.
Proof.
  induction s as [|x s IH]; simpl; [reflexivity|].
  intros H. apply andb_prop in H. destruct H as [Hx Hs].
  destruct (Path.compare (path e) (path x)) eqn:E; simpl.
  - now rewrite Hx, Hs.
  - assert (Hex : path_lt e x = true) by (unfold path_lt; now rewrite E).
    rewrite Hex, Hx, Hs. simpl. rewrite andb_true_r.
    apply forallb_forall. intros y Hy.
    apply (path_lt_trans e x y Hex).
    rewrite forallb_forall in Hx. now apply Hx.
  - rewrite (IH Hs), andb_true_r.
    apply forallb_forall. intros y Hy.
    destruct (SetFacts.in_emplace s e y Hy) as [->|Hin].
    + unfold path_lt, Path.compare. unfold Path.compare in E.
      rewrite compare_components_antisym, E. reflexivity.
    + rewrite forallb_forall in Hx. now apply Hx.
Qed.

Lemma ascending_erase (s : EntrySet.t) (e : directory_entry) :
  ascending s = true -> ascending (EntrySet.erase s e) = true.
Proof.
  unfold EntrySet.erase. induction s as [|x s IH]; simpl; [reflexivity|].
  intros H. apply andb_prop in H. destruct H as [Hx Hs].
  assert (Hall : forallb (path_lt x)
                   (filter (fun y => negb (same_entry y e)) s) = true).
  { apply forallb_forall. intros y Hy. apply filter_In in Hy.
    rewrite forallb_forall in Hx. now apply Hx. }
  destruct (negb (same_entry x e)); simpl; [rewrite Hall|]; auto.
Qed.

Lemma ascending_one_per_path (s : EntrySet.t) :
  ascending s = true -> one_per_path s.
Proof.
  induction s as [|z s IH]; simpl; intros H x y; [contradiction|].
  apply andb_prop in H. destruct H as [Hz Hs].
  rewrite forallb_forall in Hz.
  intros [<-|Hx] [<-|Hy] Hsame.
  - reflexivity.
  - destruct (path_lt_apart _ _ (Hz y Hy)). congruence.
  - destruct (path_lt_apart _ _ (Hz x Hx)). congruence.
  - now apply (IH Hs).
Qed.

End Order.

Section Ascending.

Import DirWatcherCallbackBase.
Import DirWatcher.

Variable callback : vtable.
Variable env : surroundings.

Lemma transition_ascending (this this' : t) (w w' : world) :
  transition callback env (this, w) (this', w') ->
  ascending (source_content this) = true /\
  ascending (replica_content this) = true ->
  ascending (source_content this') = true /\
  ascending (replica_content this') = true.
Proof.
  intros Hstep [Hs Hr]. inversion Hstep; subst; clear Hstep.
  - match goal with H : classify _ _ _ _ = _ |- _ =>
      destruct (classify_effect callback _ _ _ _ _ H)
        as (_ & _ & _ & _ & _ & [[-> ->]|(_ & -> & ->)]) end.
    + auto.
    + split; now apply Order.ascending_emplace.
  - match goal with H : detect_delete _ _ _ _ = _ |- _ =>
      destruct (detect_delete_effect callback _ _ _ _ _ H)
        as (-> & -> & _) end.
    auto.
  - cbn. split; [now apply Order.ascending_erase|exact Hr].
  - auto.
  - match goal with H : sleep_for _ _ _ _ = _ |- _ =>
      unfold sleep_for in H;
      destruct (ticks_sets env (Z.to_nat seconds) this w) as [H1 H2];
      destruct (ticks env (Z.to_nat seconds) this w);
      injection H as <- <- end.
    cbn in H1, H2. rewrite H1, H2. auto.
Qed.

(** X8. In every state the watcher goes through, the Snapshot and the
    Shadow Set are in strictly ascending order of their paths, as the
    [std::set] they stand for: [emplace] and [erase] keep that order.
    Hence neither set ever holds two entries for one path, and the delete
    scan visits the Snapshot in ascending path order. *)
Theorem sets_stay_ascending (this : t) (w : world) :
  reachable callback env this w ->
  ascending (source_content this) = true /\
  ascending (replica_content this) = true /\
  one_per_path (source_content this) /\
  one_per_path (replica_content this).
Proof.
  intros Hreach.
  assert (H : ascending (source_content this) = true /\
              ascending (replica_content this) = true).
  { induction Hreach as [| this w this' w' _ IH Hstep].
    - split; reflexivity.
    - exact (transition_ascending this this' w w' Hstep IH). }
  destruct H as [Hs Hr].
  repeat split; auto using Order.ascending_one_per_path.
Qed.

End Ascending.

Lemma sets_stay_ascending_witness :
  match DirWatcher.classify DirWatcherCallback.cb Examples.a_txt
          Examples.fresh (Examples.world_with Examples.one_file) with
  | Return this' _ =>
      ascending (DirWatcher.source_content this') = true /\
      ascending (DirWatcher.replica_content this') = true /\
      one_per_path (DirWatcher.source_content this') /\
      one_per_path (DirWatcher.replica_content this')
  | Raise _ _ => False
  end.
Proof.
  destruct (DirWatcher.classify DirWatcherCallback.cb Examples.a_txt
              Examples.fresh (Examples.world_with Examples.one_file))
    as [this' w'|e w'] eqn:E.
  - apply (sets_stay_ascending DirWatcherCallback.cb Examples.quiet this' w').
    eapply after_transition;
      [apply (at_construction DirWatcherCallback.cb Examples.quiet
                "Source" "Replica" 5 "log.txt"
                (Examples.world_with Examples.one_file))|].
    eapply walk_iteration. exact E.
  - vm_compute in E. discriminate E.
Defined.

(* ================================================================== *)
(** * The worker loop as a whole *)

Section Worker.

Import DirWatcherCallbackBase.
Import DirWatcher.

Variable env : surroundings.

Lemma same_config_refl (this : t) : same_config this this.
Proof. repeat split. Qed.

Lemma same_config_trans (a b c : t) :
  same_config a b -> same_config b c -> same_config a c.
Proof.
  unfold same_config. intros (H1 & H2 & H3 & H4) (K1 & K2 & K3 & K4).
  repeat split; congruence.
Qed.

Lemma ticks_config (n : nat) (this : t) (w : world) :
  same_config (fst (ticks env n this w)) this.
Proof.
  revert this w. induction n as [|n IH]; intros this w.
  - apply same_config_refl.
  - cbn [ticks]. eapply same_config_trans; [apply IH|].
    repeat split.
Qed.

Lemma ticks_keeps {X : Type} (f : world -> X) (n : nat) (this : t)
  (w : world) :
  (forall z v, f (set_clock z v) = f v) ->
  (forall x v, f (set_files x v) = f v) ->
  f (snd (ticks env n this w)) = f w.
Proof.
  intros Hc Hf. revert this w. induction n as [|n IH]; intros this w.
  - reflexivity.
  - cbn [ticks]. now rewrite IH, Hc, Hf.
Qed.

Lemma report_config (callback : vtable) (a : action_t) (k : file_t)
  (entry : directory_entry) (this this' : t) (w w' : world) :
  report callback a k entry this w = Return this' w' -> same_config this' this.
Proof.
  rewrite report_unfold.
  destruct (report_action callback a k (path entry) (replica this) w);
    [|discriminate].
  intros [= <- <-]. repeat split.
Qed.

Lemma classify_config (callback : vtable) (entry : directory_entry)
  (this this' : t) (w w' : world) :
  classify callback entry this w = Return this' w' -> same_config this' this.
Proof.
  assert (Hid : forall s : t, Return s w = Return this' w' ->
                              same_config s this -> same_config this' this).
  { now intros s [= <- <-]. }
  destruct (EntrySet.find (source_content this) entry) as [file_entry|] eqn:Hfind.
  - intros H.
    destruct (classify_effect_known callback entry file_entry this this' w w'
                Hfind H) as [-> _].
    apply same_config_refl.
  - unfold classify. rewrite Hfind.
    assert (Hrep : forall k,
        report callback CREATE k entry
          (with_sets (EntrySet.emplace (source_content this) entry)
                     (EntrySet.emplace (replica_content this) entry) this) w
        = Return this' w' -> same_config this' this).
    { intros k H. apply report_config in H.
      eapply same_config_trans; [exact H|]. repeat split. }
    destruct (is_regular_file entry); [apply Hrep|].
    destruct (is_directory entry); [apply Hrep|].
    intros H. apply (Hid _ H). repeat split.
Qed.

Lemma detect_delete_config (callback : vtable) (entry : directory_entry)
  (this this' : t) (w w' : world) :
  detect_delete callback entry this w = Return this' w' ->
  same_config this' this.
Proof.
  unfold detect_delete. destruct (_ && _).
  - unfold bind.
    destruct (is_regular_file entry); [|destruct (is_directory entry)].
    + destruct (report callback DELETE REGULAR entry this w) as [s v|] eqn:E;
        [|discriminate].
      intros [= <- <-]. apply report_config in E.
      eapply same_config_trans; [|exact E]. repeat split.
    + destruct (report callback DELETE DIRECTORY entry this w) as [s v|] eqn:E;
        [|discriminate].
      intros [= <- <-]. apply report_config in E.
      eapply same_config_trans; [|exact E]. repeat split.
    + intros [= <- <-]. repeat split.
  - intros [= <- <-]. apply same_config_refl.
Qed.

Lemma poll_config (callback : vtable) (this this' : t) (w w' : world) :
  poll callback this w = Return this' w' -> same_config this' this.
Proof.
  intros Hpoll.
  destruct (poll_stages callback this this' w w' Hpoll)
    as (entries & walked & w1 & mid & _ & Hwalk & Hscan & ->).
  assert (H1 : same_config walked this).
  { revert Hwalk.
    apply (for_each_invariant (fun s _ => same_config s this));
      [|apply same_config_refl].
    intros x s v s' v' _ Hs Hc. apply classify_config in Hc.
    eapply same_config_trans; eassumption. }
  assert (H2 : same_config mid this).
  { revert Hscan.
    apply (for_each_invariant (fun s _ => same_config s this)); [|exact H1].
    intros x s v s' v' _ Hs Hc. apply detect_delete_config in Hc.
    eapply same_config_trans; eassumption. }
  eapply same_config_trans; [|exact H2]. repeat split.
Qed.

(** The worker never changes its configuration. *)
Lemma run_internal_config (callback : vtable) (fuel : nat) (this this' : t)
  (w w' : world) :
  run_internal fuel env callback this w = Return (Some this') w' ->
  same_config this' this.
Proof.
  revert this w. induction fuel as [|fuel IH]; intros this w; simpl.
  - discriminate.
  - destruct (stop_flag this); simpl.
    + intros [= <- <-]. apply same_config_refl.
    + unfold bind, sleep_for.
      pose proof (ticks_config
                    (Z.to_nat (chrono_seconds (synch_interval this))) this w) as Hs.
      destruct (ticks env _ this w) as [this1 w1]. cbn [fst] in Hs.
      destruct (poll callback this1 w1) as [this2 w2|] eqn:E2; [|discriminate].
      unfold busy_for.
      pose proof (ticks_config (busy env (clock w2)) this2 w2) as Hb.
      destruct (ticks env _ this2 w2) as [this3 w3]. cbn [fst] in Hb.
      intros Hrun. apply IH in Hrun. apply poll_config in E2.
      eapply same_config_trans; [exact Hrun|].
      eapply same_config_trans; [exact Hb|].
      eapply same_config_trans; eassumption.
Qed.

(** X9. When the worker leaves its loop, the stop flag is set and the
    configuration - source, replica, log file path and interval - is the
    one it started with, whatever the callback does. A worker that finds
    the flag set at its first test runs no cycle at all and changes
    nothing. *)
Theorem worker_leaves_loop_between_cycles
  (callback : vtable) (fuel : nat) (this this' : t) (w w' : world) :
  run_internal fuel env callback this w = Return (Some this') w' ->
  stop_flag this' = true /\
  same_config this' this /\
  (stop_flag this = true -> this' = this /\ w' = w).
Proof.
  intros Hrun. split; [|split].
  - revert this w Hrun. induction fuel as [|fuel IH]; intros this w; simpl.
    + discriminate.
    + destruct (stop_flag this) eqn:Ef; simpl.
      * now intros [= <- <-].
      * unfold bind.
        destruct (sleep_for env _ this w) as [this1 w1|]; [|discriminate].
        destruct (poll callback this1 w1) as [this2 w2|]; [|discriminate].
        destruct (busy_for env this2 w2) as [this3 w3|]; [|discriminate].
        apply IH.
  - exact (run_internal_config callback fuel this this' w w' Hrun).
  - intros Hflag. destruct fuel as [|fuel]; simpl in Hrun; [discriminate|].
    rewrite Hflag in Hrun. simpl in Hrun. now injection Hrun as <- <-.
Qed.

(** A sleep for a duration that is not positive returns at once. *)
Lemma sleep_for_nonpositive (seconds : Z) (this : t) (w : world) :
  seconds <= 0 -> sleep_for env seconds this w = Return this w.
Proof.
  intros H. unfold sleep_for.
  replace (Z.to_nat seconds) with 0%nat by lia. reflexivity.
Qed.

(** What depends neither on the log, nor on the tree, nor on the clock is
    kept by the worker. *)
Lemma keeps_run_internal {X : Type} (f : world -> X) (fuel : nat) (this : t) :
  (forall r v, f (add_log r v) = f v) ->
  (forall x v, f (set_files x v) = f v) ->
  (forall z v, f (set_clock z v) = f v) ->
  keeps f (run_internal fuel env DirWatcherCallback.cb this).
Proof.
  intros Hl Hf Hc. revert this. induction fuel as [|fuel IH]; intros this; simpl.
  - apply keeps_ret.
  - destruct (stop_flag this); simpl; [apply keeps_ret|].
    apply keeps_bind.
    + intros w. unfold sleep_for.
      pose proof (ticks_keeps f
                    (Z.to_nat (chrono_seconds (synch_interval this))) this w
                    Hc Hf) as K.
      destruct (ticks env _ this w). exact K.
    + intros this1. apply keeps_bind; [now apply keeps_poll_apart_from_tree|].
      intros this2. apply keeps_bind; [|exact IH].
      intros w. unfold busy_for.
      pose proof (ticks_keeps f (busy env (clock w)) this2 w Hc Hf) as K.
      destruct (ticks env _ this2 w). exact K.
Qed.

Lemma logs_info_run_internal (fuel : nat) (this : t) :
  logs_info_only (run_internal fuel env DirWatcherCallback.cb this).
Proof.
  revert this. induction fuel as [|fuel IH]; intros this; simpl.
  - apply logs_info_ret.
  - destruct (stop_flag this); simpl; [apply logs_info_ret|].
    apply logs_info_bind.
    + intros w. exists []. rewrite app_nil_r. split; [|constructor].
      unfold sleep_for.
      pose proof (ticks_keeps log_lines
                    (Z.to_nat (chrono_seconds (synch_interval this))) this w
                    (fun _ _ => eq_refl) (fun _ _ => eq_refl)) as K.
      destruct (ticks env _ this w). exact K.
    + intros this1. apply logs_info_bind; [apply logs_info_poll|].
      intros this2. apply logs_info_bind; [|exact IH].
      intros w. exists []. rewrite app_nil_r. split; [|constructor].
      unfold busy_for.
      pose proof (ticks_keeps log_lines (busy env (clock w)) this2 w
                    (fun _ _ => eq_refl) (fun _ _ => eq_refl)) as K.
      destruct (ticks env _ this2 w). exact K.
Qed.

End Worker.

Lemma worker_leaves_loop_between_cycles_witness :
  exists this' w',
    DirWatcher.run_internal 3 Examples.early_interrupt DirWatcherCallback.cb
      Examples.fresh (Examples.world_with Examples.one_file)
    = Return (Some this') w' /\
    DirWatcher.stop_flag this' = true /\
    same_config this' Examples.fresh.
Proof.
  destruct (DirWatcher.run_internal 3 Examples.early_interrupt
              DirWatcherCallback.cb Examples.fresh
              (Examples.world_with Examples.one_file))
    as [[this'|] w'|e w'] eqn:E;
    try (vm_compute in E; discriminate E).
  exists this', w'. split; [reflexivity|].
  destruct (worker_leaves_loop_between_cycles Examples.early_interrupt
              DirWatcherCallback.cb 3
              Examples.fresh this' (Examples.world_with Examples.one_file) w' E)
    as (Hflag & Hcfg & _).
  split; [exact Hflag|exact Hcfg].
Defined.
(* ================================================================== *)
(** * [main] with five and with more arguments *)

Section Startup.

Import Main.

Variable fuel : nat.
Variable env : DirWatcher.surroundings.

(** The world in which the worker starts: the log file is opened, then
    the logger is installed. *)
Lemma main_with_five (argv : list string) (w : world) :
  List.length argv = 5%nat ->
  logger_this_ptr w = None ->
  exists w0 : world,
    clock w0 = clock w /\ log_lines w0 = log_lines w /\ cout w0 = cout w /\
    main fuel env argv w =
    match DirWatcher.run_internal fuel env DirWatcherCallback.cb
            (DirWatcher.make (nth 1 argv "") (nth 2 argv "")
               (Str.to_size_t (atoi (nth 3 argv ""))) (nth 4 argv ""))
            w0 with
    | Return (Some this') w' =>
        {| ended := exited EXIT_SUCCESS; final := w'; watcher := Some this' |}
    | Return None w' =>
        {| ended := running; final := w';
           watcher := Some (DirWatcher.make (nth 1 argv "") (nth 2 argv "")
                              (Str.to_size_t (atoi (nth 3 argv "")))
                              (nth 4 argv "")) |}
    | Raise e w' =>
        {| ended := terminated e; final := w';
           watcher := Some (DirWatcher.make (nth 1 argv "") (nth 2 argv "")
                              (Str.to_size_t (atoi (nth 3 argv "")))
                              (nth 4 argv "")) |}
    end.
Proof.
  intros Hlen Hlog.
  destruct argv as [|a0 [|a1 [|a2 [|a3 [|a4 [|a5 rest]]]]]]; try discriminate.
  unfold main, argv_at. cbn [nth_error nth List.length].
  destruct (opened_rest a4 w) as (Hc & Hl & Hlines & Hcout).
  cbv zeta in Hc, Hl, Hlines, Hcout. rewrite Hl, Hlog.
  eexists. split; [|split; [|split; [|reflexivity]]]; assumption.
Qed.

(** [std::atoi] returns an [int]. *)
Lemma atoi_range (s : string) : - 2 ^ 31 <= atoi s < 2 ^ 31.
Proof.
  unfold atoi, Str.to_int.
  pose proof (Z.mod_pos_bound (strtol s + 2 ^ 31) (2 ^ 32)). lia.
Qed.

(** The watcher that [main] constructs keeps the configuration of the
    command line. *)
Lemma main_watcher_config (argv : list string) (w : world) :
  List.length argv = 5%nat ->
  logger_this_ptr w = None ->
  (ended (main fuel env argv w) = exited EXIT_SUCCESS \/
   ended (main fuel env argv w) = running \/
   exists e, ended (main fuel env argv w) = terminated e) /\
  cout (final (main fuel env argv w)) = cout w /\
  exists this,
    watcher (main fuel env argv w) = Some this /\
    same_config this
      (DirWatcher.make (nth 1 argv "") (nth 2 argv "")
         (Str.to_size_t (atoi (nth 3 argv ""))) (nth 4 argv "")).
Proof.
  intros Hlen Hlog.
  destruct (main_with_five argv w Hlen Hlog) as (w0 & _ & _ & Hw0 & ->).
  set (this := DirWatcher.make _ _ _ _).
  pose proof (keeps_run_internal env cout fuel this
                (fun _ _ => eq_refl) (fun _ _ => eq_refl) (fun _ _ => eq_refl) w0)
    as Hcout.
  destruct (DirWatcher.run_internal fuel env DirWatcherCallback.cb this w0)
    as [[this'|] w'|e w'] eqn:E; cbn [ended final watcher world_of] in *.
  - split; [auto|]. split; [congruence|].
    exists this'. split; [reflexivity|].
    exact (run_internal_config env DirWatcherCallback.cb fuel this this' w0 w' E).
  - split; [auto|]. split; [congruence|].
    exists this. split; [reflexivity|apply same_config_refl].
  - split; [eauto|]. split; [congruence|].
    exists this. split; [reflexivity|apply same_config_refl].
Qed.

(** X10. With exactly four positional arguments and no logger yet, [main]
    prints no usage message and does not exit with failure status,
    whatever the arguments are: the interval argument is not validated
    but handed to [std::atoi], whose result is an [int], and the watcher
    is constructed with the [size_t] that the result converts to. The
    process ends by the interrupt, by an uncaught exception, or not at
    all. *)
Theorem five_arguments_start_the_watcher (argv : list string) (w : world) :
  List.length argv = 5%nat ->
  logger_this_ptr w = None ->
  (ended (main fuel env argv w) = exited EXIT_SUCCESS \/
   ended (main fuel env argv w) = running \/
   exists e, ended (main fuel env argv w) = terminated e) /\
  cout (final (main fuel env argv w)) = cout w /\
  - 2 ^ 31 <= atoi (nth 3 argv "") < 2 ^ 31 /\
  exists this,
    watcher (main fuel env argv w) = Some this /\
    same_config this
      (DirWatcher.make (nth 1 argv "") (nth 2 argv "")
         (Str.to_size_t (atoi (nth 3 argv ""))) (nth 4 argv "")).
Proof.
  intros Hlen Hlog.
  destruct (main_watcher_config argv w Hlen Hlog) as (H1 & H2 & H3).
  split; [exact H1|]. split; [exact H2|]. split; [apply atoi_range|exact H3].
Qed.

(** X11. An interval argument that [std::atoi] reads as zero or as a
    negative number is accepted. A negative number becomes a huge
    [size_t], which [std::chrono::seconds] holds as the same negative
    count again, and [sleep_for] does not wait for a duration that is not
    positive: every sleep of the watcher that [main] constructs returns at
    once, so that the worker polls back to back. *)
Theorem nonpositive_interval_never_sleeps (argv : list string) (w : world) :
  List.length argv = 5%nat ->
  logger_this_ptr w = None ->
  atoi (nth 3 argv "") <= 0 ->
  DirWatcher.chrono_seconds (Str.to_size_t (atoi (nth 3 argv "")))
  = atoi (nth 3 argv "") /\
  exists this,
    watcher (main fuel env argv w) = Some this /\
    DirWatcher.chrono_seconds (DirWatcher.synch_interval this) <= 0 /\
    forall w1 : world,
      DirWatcher.sleep_for env
        (DirWatcher.chrono_seconds (DirWatcher.synch_interval this)) this w1
      = Return this w1.
Proof.
  intros Hlen Hlog Hneg.
  assert (Hsec : DirWatcher.chrono_seconds (Str.to_size_t (atoi (nth 3 argv "")))
                 = atoi (nth 3 argv "")).
  { unfold DirWatcher.chrono_seconds, Str.to_size_t.
    pose proof (atoi_range (nth 3 argv "")) as Hr.
    set (z := atoi (nth 3 argv "")) in *.
    destruct (Z.eq_dec z 0) as [->|Hz]; [reflexivity|].
    replace (z mod 2 ^ 64) with (z + 2 ^ 64).
    - replace ((z + 2 ^ 64 + 2 ^ 63) mod 2 ^ 64) with (z + 2 ^ 63); [lia|].
      apply (Z.mod_unique _ _ 1); lia.
    - apply (Z.mod_unique _ _ (-1)); lia. }
  split; [exact Hsec|].
  destruct (main_watcher_config argv w Hlen Hlog)
    as (_ & _ & this & Hthis & _ & _ & _ & Hi).
  cbn [DirWatcher.synch_interval DirWatcher.make] in Hi.
  exists this. split; [exact Hthis|].
  assert (Hle : DirWatcher.chrono_seconds (DirWatcher.synch_interval this) <= 0)
    by (rewrite Hi, Hsec; exact Hneg).
  split; [exact Hle|]. intros w1. now apply sleep_for_nonpositive.
Qed.

(** X12. The log file is opened for writing by the first statement of
    [main], before the argument count is tested: when [main] is called
    with too many arguments and [argv[4]] names an existing regular file,
    the process prints the usage message and exits with failure status,
    and the file has been emptied all the same. *)
Theorem extra_arguments_truncate_log
  (argv : list string) (w : world) (name content : string) (mtime : Z) :
  (5 < List.length argv)%nat ->
  logger_this_ptr w = None ->
  nth_error argv 4 = Some name ->
  FS.lookup (Path.components name) (files w) = Some (FS.File content mtime) ->
  ended (main fuel env argv w) = exited EXIT_FAILURE /\
  FS.lookup (Path.components name) (files (final (main fuel env argv w)))
  = Some (FS.File "" (clock w)).
Proof.
  intros Hlen Hlog Hname Hfile. unfold main, argv_at. rewrite Hname.
  destruct (opened_rest name w) as (_ & Hl & _). cbv zeta in Hl.
  rewrite Hl, Hlog.
  destruct (Z.eqb_spec (Z.of_nat (List.length argv)) 5); [lia|].
  cbn [negb stopped ended final]. split; [reflexivity|].
  unfold open_ofstream. rewrite Hfile.
  destruct (FSFacts.put_over (clock w) (Path.components name)
              (FS.File "" (clock w)) _ (files w) Hfile) as (root' & Hput & _).
  rewrite Hput. cbn. exact (FSFacts.lookup_put _ _ _ _ _ Hput).
Qed.

(** X13. No run of [main] writes a log record of a severity other than
    informational, however it is called and however it ends: the worker
    reports through [report_action] only, whose records are all
    informational, and nothing in the program calls
    [DirWatcherCallback::log] or logs a failure. *)
Theorem main_logs_info_only (argv : list string) (w : world) :
  exists lines,
    log_lines (final (main fuel env argv w)) = (log_lines w ++ lines)%list /\
    Forall (fun r => Logger.severity r = Logger.INFO) lines.
Proof.
  assert (Hsame : forall v, log_lines v = log_lines w ->
            exists lines,
              log_lines v = (log_lines w ++ lines)%list /\
              Forall (fun r => Logger.severity r = Logger.INFO) lines).
  { intros v Hv. exists []. rewrite app_nil_r. split; [exact Hv|constructor]. }
  unfold main. destruct (argv_at argv 4) as [name| |].
  - destruct (opened_rest name w) as (_ & Hl & Hlines & _).
    cbv zeta in Hl, Hlines.
    destruct (logger_this_ptr _); [now apply Hsame|].
    destruct (negb _); [now apply Hsame|].
    set (this := DirWatcher.make _ _ _ _). set (w0 := set_logger _ _).
    destruct (logs_info_run_internal env fuel this w0) as (lines & Hrun & Hinfo).
    assert (Hw0 : log_lines w0 = log_lines w) by exact Hlines.
    rewrite Hw0 in Hrun. exists lines. split; [|exact Hinfo].
    destruct (DirWatcher.run_internal fuel env DirWatcherCallback.cb this w0)
      as [[this'|] w'|e w']; exact Hrun.
  - destruct (logger_this_ptr w); now apply Hsame.
  - now apply Hsame.
Qed.

End Startup.

Lemma five_arguments_start_the_watcher_witness :
  Main.ended (Main.main 3 Examples.quiet Scenes.wordy_interval
                (Examples.at_start Examples.one_file)) = Main.running /\
  Main.atoi "99999999999" = 1215752191 /\
  (exists this,
     Main.watcher (Main.main 3 Examples.quiet Scenes.wordy_interval
                     (Examples.at_start Examples.one_file)) = Some this /\
     DirWatcher.synch_interval this = 0) /\
  (exists this,
     Main.watcher (Main.main 0 Examples.quiet Scenes.long_interval
                     (Examples.at_start Examples.one_file)) = Some this /\
     DirWatcher.synch_interval this = 1215752191).
Proof.
  split; [reflexivity|]. split; [reflexivity|]. split.
  - destruct (five_arguments_start_the_watcher 3 Examples.quiet
                Scenes.wordy_interval (Examples.at_start Examples.one_file)
                eq_refl eq_refl) as (_ & _ & _ & this & Hthis & _ & _ & _ & Hi).
    exists this. split; [exact Hthis|exact Hi].
  - destruct (five_arguments_start_the_watcher 0 Examples.quiet
                Scenes.long_interval (Examples.at_start Examples.one_file)
                eq_refl eq_refl) as (_ & _ & _ & this & Hthis & _ & _ & _ & Hi).
    exists this. split; [exact Hthis|exact Hi].
Defined.

Lemma nonpositive_interval_never_sleeps_witness :
  Main.atoi "-1" = -1 /\
  Main.atoi "-2147483649" = 2147483647 /\
  Str.to_size_t (Main.atoi "-1") = 2 ^ 64 - 1 /\
  DirWatcher.chrono_seconds (Str.to_size_t (Main.atoi "-1")) = -1.
Proof.
  split; [reflexivity|]. split; [reflexivity|]. split; [reflexivity|].
  apply (nonpositive_interval_never_sleeps 3 Examples.quiet
           Scenes.negative_interval (Examples.at_start Examples.one_file)).
  - reflexivity.
  - reflexivity.
  - vm_compute. discriminate.
Defined.

Lemma extra_arguments_truncate_log_witness :
  Main.ended (Main.main 3 Examples.quiet Scenes.one_too_many
                (Examples.at_start Scenes.with_old_log))
  = Main.exited Main.EXIT_FAILURE /\
  FS.lookup ["log.txt"]
    (files (Main.final (Main.main 3 Examples.quiet Scenes.one_too_many
                          (Examples.at_start Scenes.with_old_log))))
  = Some (FS.File "" 10).
Proof.
  apply (extra_arguments_truncate_log 3 Examples.quiet Scenes.one_too_many
           (Examples.at_start Scenes.with_old_log) "log.txt"
           "records of an earlier run" 1).
  - simpl. lia.
  - reflexivity.
  - reflexivity.
  - reflexivity.
Defined.

(* ================================================================== *)
(** * Entries the Snapshot does not hold yet *)

Lemma find_emplace_new (s : EntrySet.t) (e : directory_entry) :
  EntrySet.find s e = None -> EntrySet.find (EntrySet.emplace s e) e = Some e.
Proof.
  induction s as [|x s IH]; simpl.
  - now rewrite same_entry_refl.
  - destruct (same_entry x e) eqn:Ex; [discriminate|]. intros Hn.
    destruct (Path.compare (path e) (path x)) eqn:E; simpl.
    + exfalso. unfold Path.compare in E. apply compare_components_eq in E.
      assert (H : same_entry x e = true).
      { apply equiv_components. now symmetry. }
      congruence.
    + now rewrite same_entry_refl.
    + rewrite Ex. now apply IH.
Qed.

Lemma create_events_replica (a b : DirWatcher.t) (l : list directory_entry) :
  DirWatcher.replica a = DirWatcher.replica b ->
  create_events a l = create_events b l.
Proof.
  intros H. unfold create_events, events_of, event. now rewrite H.
Qed.

Section NewEntries.

Import DirWatcherCallbackBase.
Import DirWatcher.

Variable callback : vtable.

Lemma classify_new (entry : directory_entry) (this this' : t) (w w' : world) :
  EntrySet.find (source_content this) entry = None ->
  classify callback entry this w = Return this' w' ->
  source_content this' = EntrySet.emplace (source_content this) entry /\
  replica_content this' = EntrySet.emplace (replica_content this) entry /\
  replica this' = replica this /\
  reported this'
  = (reported this ++ events_of CREATE (reported_kind entry) entry this)%list /\
  (reported_kind entry = None -> w' = w).
Proof.
  intros Hnew. unfold classify, reported_kind. rewrite Hnew.
  destruct (is_regular_file entry); [|destruct (is_directory entry)];
    try rewrite report_unfold;
    try match goal with
        | |- context [report_action ?c ?a ?k ?p ?r ?v] =>
            destruct (report_action c a k p r v); [|discriminate]
        end;
    intros [= <- <-]; cbn; repeat split; try discriminate.
  now rewrite app_nil_r.
Qed.

(** X14. An entry whose path the Snapshot does not hold is recorded as
    it was observed - a later lookup of its path yields this very entry,
    with the path and the type the walk saw (an entry holds no last-write
    time) - and its path is in the Shadow Set; it is reported as created
    once if it is a regular file or a directory, and not reported
    otherwise. *)
Theorem classify_records_new_entry
  (entry : directory_entry) (this this' : t) (w w' : world) :
  EntrySet.find (source_content this) entry = None ->
  classify callback entry this w = Return this' w' ->
  EntrySet.find (source_content this') entry = Some entry /\
  EntrySet.contains (replica_content this') entry = true /\
  reported this'
  = (reported this ++ events_of CREATE (reported_kind entry) entry this)%list /\
  (reported_kind entry = None -> w' = w).
Proof.
  intros Hnew Hc.
  destruct (classify_new entry this this' w w' Hnew Hc)
    as (Hs & Hr & _ & He & Hw).
  rewrite Hs, Hr. repeat split; auto.
  - now apply find_emplace_new.
  - apply SetFacts.contains_emplace. left. apply same_entry_refl.
Qed.

Lemma walk_of_new_entries (entries : list directory_entry) :
  forall (this this' : t) (w w' : world),
    (forall e, In e entries -> EntrySet.find (source_content this) e = None) ->
    distinct_paths entries = true ->
    one_per_path (source_content this) ->
    for_each entries (classify callback) this w = Return this' w' ->
    reported this' = (reported this ++ create_events this entries)%list /\
    one_per_path (source_content this') /\
    (forall x, In x (source_content this') <->
               In x (source_content this) \/ In x entries).
Proof.
  induction entries as [|e rest IH]; intros this this' w w' Hnew Hd Hu; simpl.
  - intros [= <- <-]. rewrite app_nil_r. repeat split; tauto.
  - unfold bind.
    destruct (classify callback e this w) as [s1 w1|] eqn:E; [|discriminate].
    intros Hrest.
    destruct (classify_new e this s1 w w1 (Hnew e (or_introl eq_refl)) E)
      as (Hs & _ & Hrep & He & _).
    simpl in Hd. apply andb_prop in Hd. destruct Hd as [Hd1 Hd2].
    apply negb_true_iff in Hd1.
    assert (Hnew1 : forall e', In e' rest ->
                      EntrySet.find (source_content s1) e' = None).
    { intros e' He'. apply SetFacts.find_none. intros x Hx. rewrite Hs in Hx.
      destruct (SetFacts.in_emplace _ _ _ Hx) as [->|Hin].
      - destruct (same_entry e e') eqn:Ee; [|reflexivity].
        assert (existsb (same_entry e) rest = true)
          by (apply existsb_exists; eauto).
        congruence.
      - assert (Hn := Hnew e' (or_intror He')).
        rewrite SetFacts.find_none in Hn. now apply Hn. }
    assert (Hu1 : one_per_path (source_content s1)).
    { rewrite Hs. apply SetFacts.one_per_path_emplace; auto.
      apply Hnew. now left. }
    destruct (IH s1 this' w1 w' Hnew1 Hd2 Hu1 Hrest) as (Hev & Hu' & Hin).
    split; [|split; [exact Hu'|]].
    + rewrite Hev, He, (create_events_replica s1 this rest Hrep).
      unfold create_events. simpl. now rewrite app_assoc.
    + intros x. rewrite Hin, Hs. split.
      * intros [Hx|Hx]; [|tauto].
        destruct (SetFacts.in_emplace _ _ _ Hx); subst; tauto.
      * intros [Hx|[<-|Hx]]; [| |tauto].
        -- left. now apply SetFacts.emplace_keeps.
        -- left. apply SetFacts.emplace_new. apply Hnew. now left.
Qed.

(** X15. A watcher starts with an empty Snapshot, whatever the replica
    holds: its first walk reports every regular file and every directory
    it meets as created, in the order of the walk, and reports nothing for
    other entries; afterwards the Snapshot holds exactly the entries of
    the walk, each as it was observed. So a restarted watcher copies the
    whole source again. *)
Theorem first_walk_reports_creates
  (entries : list directory_entry) (this this' : t) (w w' : world) :
  source_content this = EntrySet.empty ->
  distinct_paths entries = true ->
  for_each entries (classify callback) this w = Return this' w' ->
  reported this' = (reported this ++ create_events this entries)%list /\
  (forall e, In e entries -> EntrySet.find (source_content this') e = Some e) /\
  (forall x, In x (source_content this') -> In x entries).
Proof.
  intros Hempty Hd Hwalk.
  destruct (walk_of_new_entries entries this this' w w') as (Hev & Hu & Hin);
    auto.
  - intros e _. now rewrite Hempty.
  - rewrite Hempty. intros x y [].
  - split; [exact Hev|]. split.
    + intros e He.
      assert (Hine : In e (source_content this')) by (apply Hin; now right).
      destruct (EntrySet.find (source_content this') e) as [r|] eqn:Ef.
      * apply SetFacts.find_some in Ef. destruct Ef as [Hr Hsame].
        f_equal. now apply Hu.
      * rewrite SetFacts.find_none in Ef.
        pose proof (Ef e Hine) as K. rewrite same_entry_refl in K.
        discriminate K.
    + intros x Hx. apply Hin in Hx. rewrite Hempty in Hx.
      destruct Hx as [[]|Hx]. exact Hx.
Qed.

(** X16. When the source path does not denote a directory at the start
    of a poll cycle, [fs::recursive_directory_iterator] throws: the worker
    ends with that exception right after its sleep, having reported no
    event and written nothing. *)
Theorem worker_ends_without_source
  (fuel : nat) (env : surroundings) (this this1 : t) (w w1 : world) :
  stop_flag this = false ->
  sleep_for env (chrono_seconds (synch_interval this)) this w = Return this1 w1 ->
  (forall ch m,
      FS.lookup (Path.components (source this)) (files w1) <> Some (FS.Dir ch m)) ->
  run_internal (S fuel) env callback this w
  = Raise (filesystem_error "recursive_directory_iterator") w1.
Proof.
  intros Hflag Hsleep Hsrc. simpl. rewrite Hflag. cbn [negb]. unfold bind.
  rewrite Hsleep.
  assert (Hs : source this1 = source this).
  { unfold sleep_for in Hsleep.
    pose proof (ticks_config env
                  (Z.to_nat (chrono_seconds (synch_interval this))) this w) as H.
    destruct (ticks env _ this w). injection Hsleep as <- _. apply H. }
  unfold poll, bind, recursive_directory_iterator. rewrite Hs.
  destruct (FS.lookup (Path.components (source this)) (files w1))
    as [[|ch m|]|] eqn:E; try reflexivity.
  now destruct (Hsrc ch m).
Qed.

End NewEntries.

Lemma classify_records_new_entry_witness :
  match DirWatcher.classify DirWatcherCallback.cb Examples.a_txt
          Examples.fresh (Examples.world_with Examples.one_file) with
  | Return this' _ =>
      EntrySet.find (DirWatcher.source_content this') Examples.a_txt
      = Some Examples.a_txt /\
      DirWatcher.reported this'
      = [{| DirWatcher.action := DirWatcherCallbackBase.CREATE;
            DirWatcher.file := DirWatcherCallbackBase.REGULAR;
            DirWatcher.source_path := "Source/a.txt";
            DirWatcher.replica_root := "Replica" |}]
  | Raise _ _ => False
  end.
Proof.
  destruct (DirWatcher.classify DirWatcherCallback.cb Examples.a_txt
              Examples.fresh (Examples.world_with Examples.one_file))
    as [this' w'|e w'] eqn:E.
  - destruct (classify_records_new_entry DirWatcherCallback.cb Examples.a_txt
                Examples.fresh this' (Examples.world_with Examples.one_file) w'
                eq_refl E) as (H1 & _ & H2 & _).
    split; [exact H1|exact H2].
  - vm_compute in E. discriminate E.
Defined.

Lemma first_walk_reports_creates_witness :
  match DirWatcher.for_each [Scenes.sub_dir; Examples.pipe_entry]
          (DirWatcher.classify DirWatcherCallback.cb)
          Examples.fresh (Examples.world_with Examples.nested) with
  | Return this' _ =>
      DirWatcher.reported this'
      = [{| DirWatcher.action := DirWatcherCallbackBase.CREATE;
            DirWatcher.file := DirWatcherCallbackBase.DIRECTORY;
            DirWatcher.source_path := "Source/sub";
            DirWatcher.replica_root := "Replica" |}]
  | Raise _ _ => False
  end.
Proof.
  destruct (DirWatcher.for_each [Scenes.sub_dir; Examples.pipe_entry]
              (DirWatcher.classify DirWatcherCallback.cb)
              Examples.fresh (Examples.world_with Examples.nested))
    as [this' w'|e w'] eqn:E.
  - apply (first_walk_reports_creates DirWatcherCallback.cb
             [Scenes.sub_dir; Examples.pipe_entry] Examples.fresh this'
             (Examples.world_with Examples.nested) w' eq_refl eq_refl E).
  - vm_compute in E. discriminate E.
Defined.

Lemma worker_ends_without_source_witness :
  DirWatcher.run_internal 2 Examples.quiet DirWatcherCallback.cb Examples.fresh
    (Examples.world_with Scenes.no_source)
  = Raise (filesystem_error "recursive_directory_iterator")
      (set_clock 15 (Examples.world_with Scenes.no_source)).
Proof.
  apply (worker_ends_without_source DirWatcherCallback.cb 1 Examples.quiet
           Examples.fresh Examples.fresh (Examples.world_with Scenes.no_source)).
  - reflexivity.
  - reflexivity.
  - intros ch m. vm_compute. discriminate.
Defined.

(* ================================================================== *)
(** * Delete events are for paths that are gone *)

Section Deletes.

Import DirWatcherCallbackBase.
Import DirWatcher.

Lemma classify_events (callback : vtable) (entry : directory_entry)
  (this this' : t) (w w' : world) :
  classify callback entry this w = Return this' w' ->
  exists evs,
    reported this' = (reported this ++ evs)%list /\
    forall ev, In ev evs -> action ev = CREATE \/ action ev = MODIFY.
Proof.
  assert (Hid : forall s : t, reported s = reported this ->
            Return s w = Return this' w' ->
            exists evs,
              reported this' = (reported this ++ evs)%list /\
              forall ev, In ev evs -> action ev = CREATE \/ action ev = MODIFY).
  { intros s Hs [= <- <-]. exists []. rewrite app_nil_r. split; [exact Hs|].
    intros ev []. }
  assert (Hrep : forall a k (s : t), reported s = reported this ->
            a = CREATE \/ a = MODIFY ->
            report callback a k entry s w = Return this' w' ->
            exists evs,
              reported this' = (reported this ++ evs)%list /\
              forall ev, In ev evs -> action ev = CREATE \/ action ev = MODIFY).
  { intros a k s Hs Ha. rewrite report_unfold.
    destruct (report_action callback a k (path entry) (replica s) w);
      [|discriminate].
    intros [= <- <-]. eexists. split; [cbn; rewrite Hs; reflexivity|].
    intros ev [<-|[]]. exact Ha. }
  destruct (EntrySet.find (source_content this) entry) as [file_entry|] eqn:Hfind.
  - intros Hc.
    destruct (classify_effect_known callback entry file_entry this this' w w'
                Hfind Hc) as [-> ->].
    now apply (Hid this).
  - unfold classify. rewrite Hfind.
    destruct (is_regular_file entry); [apply Hrep; auto|].
    destruct (is_directory entry); [apply Hrep; auto|now apply Hid].
Qed.

Lemma detect_delete_missing (callback : vtable) (entry : directory_entry)
  (this this' : t) (w w' : world) :
  detect_delete callback entry this w = Return this' w' ->
  reported this' = reported this \/
  (fs_exists (path entry) w = false /\
   exists k, reported this' = (reported this ++ [event DELETE k entry this])%list).
Proof.
  unfold detect_delete.
  destruct (EntrySet.contains _ _); simpl; [|intros [= <- <-]; now left].
  destruct (fs_exists (path entry) w); simpl; [intros [= <- <-]; now left|].
  unfold bind.
  destruct (is_regular_file entry); [|destruct (is_directory entry)];
    try rewrite report_unfold;
    try match goal with
        | |- context [report_action ?c ?a ?k ?p ?r ?v] =>
            destruct (report_action c a k p r v); [|discriminate]
        end;
    intros [= <- <-]; cbn; eauto.
Qed.

(** X17. Every delete event that a poll cycle of the shipped callback
    reports is for a path that did not exist when the cycle started,
    provided the path parts ways with the replica root (so that nothing
    the cycle itself does can remove it): the watcher never asks for the
    replica copy of a file to be deleted while the file is still in the
    source. The events of the walk are create and modify events only. *)
Theorem delete_only_for_missing (this this' : t) (w w' : world) :
  poll DirWatcherCallback.cb this w = Return this' w' ->
  exists evs,
    reported this' = (reported this ++ evs)%list /\
    forall ev,
      In ev evs -> action ev = DELETE ->
      apart (Path.components (source_path ev))
            (Path.components (replica this)) = true ->
      fs_exists (source_path ev) w = false.
Proof.
  intros Hpoll.
  destruct (poll_stages _ this this' w w' Hpoll)
    as (entries & walked & w1 & mid & _ & Hwalk & Hscan & ->).
  set (rep := Path.components (replica this)).
  set (frame := fun v : world =>
         forall b, apart b rep = true -> kind_at b v = kind_at b w).
  set (fine := fun ev : change_event =>
         action ev = DELETE ->
         apart (Path.components (source_path ev)) rep = true ->
         fs_exists (source_path ev) w = false).
  assert (H1 : replica walked = replica this /\ frame w1 /\
               exists evs, reported walked = (reported this ++ evs)%list /\
                           forall ev, In ev evs -> fine ev).
  { revert Hwalk.
    apply (for_each_invariant
      (fun s v => replica s = replica this /\ frame v /\
                  exists evs, reported s = (reported this ++ evs)%list /\
                              forall ev, In ev evs -> fine ev)).
    - intros x s v s' v' _ (Hr & Hf & evs & He & Hfine) Hc.
      destruct (classify_effect _ x s s' v v' Hc) as (_ & _ & Hr' & _).
      split; [congruence|]. split.
      + intros b Hb. rewrite <- (Hf b Hb).
        pose proof (kind_classify (replica s) b) as K.
        rewrite Hr in K. specialize (K Hb x s Hr v). rewrite Hc in K. exact K.
      + destruct (classify_events _ x s s' v v' Hc) as (evs' & He' & Hnd).
        exists (evs ++ evs')%list. split.
        * now rewrite He', He, app_assoc.
        * intros ev Hin. apply in_app_iff in Hin. destruct Hin as [Hin|Hin];
            [now apply Hfine|].
          intros Ha. destruct (Hnd ev Hin); congruence.
    - split; [reflexivity|]. split; [intros b _; reflexivity|].
      exists []. rewrite app_nil_r. split; [reflexivity|]. intros ev []. }
  assert (H2 : replica mid = replica this /\ frame w' /\
               exists evs, reported mid = (reported this ++ evs)%list /\
                           forall ev, In ev evs -> fine ev).
  { revert Hscan.
    apply (for_each_invariant
      (fun s v => replica s = replica this /\ frame v /\
                  exists evs, reported s = (reported this ++ evs)%list /\
                              forall ev, In ev evs -> fine ev)); [|exact H1].
    intros x s v s' v' _ (Hr & Hf & evs & He & Hfine) Hc.
    destruct (detect_delete_effect _ x s s' v v' Hc) as (_ & _ & _ & Hr' & _).
    split; [congruence|]. split.
    - intros b Hb. rewrite <- (Hf b Hb).
      pose proof (kind_detect_delete (replica s) b) as K.
      rewrite Hr in K. specialize (K Hb x s Hr v). rewrite Hc in K. exact K.
    - destruct (detect_delete_missing _ x s s' v v' Hc)
        as [Hsame|(Hgone & k & He')].
      + exists evs. split; [congruence|exact Hfine].
      + exists (evs ++ [event DELETE k x s])%list. split.
        * now rewrite He', He, app_assoc.
        * intros ev Hin. apply in_app_iff in Hin.
          destruct Hin as [Hin|[<-|[]]]; [now apply Hfine|].
          intros _ Hap. cbn [source_path event] in Hap |- *.
          pose proof (Hf _ Hap) as Hk. unfold kind_at, denotes in Hk.
          unfold fs_exists in *.
          destruct (FS.lookup (Path.components (path x)) (files v));
            [discriminate Hgone|].
          now destruct (FS.lookup (Path.components (path x)) (files w)). }
  destruct H2 as (_ & _ & evs & He & Hfine).
  exists evs. split; [exact He|]. intros ev Hin. exact (Hfine ev Hin).
Qed.

(** X20. Within one poll cycle the events are reported in two runs:
    first the create and modify events of the walk, then the delete events
    of the scan over the Snapshot. No delete event precedes a create or
    modify event of the same cycle. *)
Theorem deletes_come_last (callback : vtable) (this this' : t) (w w' : world) :
  poll callback this w = Return this' w' ->
  exists first last,
    reported this' = (reported this ++ first ++ last)%list /\
    (forall ev, In ev first -> action ev = CREATE \/ action ev = MODIFY) /\
    (forall ev, In ev last -> action ev = DELETE).
Proof.
  intros Hpoll.
  destruct (poll_stages _ this this' w w' Hpoll)
    as (entries & walked & w1 & mid & _ & Hwalk & Hscan & ->).
  assert (H1 : exists first,
             reported walked = (reported this ++ first)%list /\
             forall ev, In ev first -> action ev = CREATE \/ action ev = MODIFY).
  { revert Hwalk.
    apply (for_each_invariant
      (fun s _ => exists first,
         reported s = (reported this ++ first)%list /\
         forall ev, In ev first -> action ev = CREATE \/ action ev = MODIFY)).
    - intros x s v s' v' _ (evs & He & Hall) Hc.
      destruct (classify_events _ x s s' v v' Hc) as (evs' & He' & Hall').
      exists (evs ++ evs')%list. split; [now rewrite He', He, app_assoc|].
      intros ev Hin. apply in_app_iff in Hin. destruct Hin; auto.
    - exists []. rewrite app_nil_r. split; [reflexivity|]. intros ev []. }
  destruct H1 as (first & Hfirst & Hall1).
  assert (H2 : exists last,
             reported mid = (reported walked ++ last)%list /\
             forall ev, In ev last -> action ev = DELETE).
  { revert Hscan.
    apply (for_each_invariant
      (fun s _ => exists last,
         reported s = (reported walked ++ last)%list /\
         forall ev, In ev last -> action ev = DELETE)).
    - intros x s v s' v' _ (evs & He & Hall) Hc.
      destruct (detect_delete_missing _ x s s' v v' Hc)
        as [Hsame|(_ & k & He')].
      + exists evs. split; [congruence|exact Hall].
      + exists (evs ++ [event DELETE k x s])%list. split.
        * now rewrite He', He, app_assoc.
        * intros ev Hin. apply in_app_iff in Hin.
          destruct Hin as [Hin|[<-|[]]]; [now apply Hall|reflexivity].
    - exists []. rewrite app_nil_r. split; [reflexivity|]. intros ev []. }
  destruct H2 as (last & Hlast & Hall2).
  exists first, last. split; [|split; assumption].
  cbn. now rewrite Hlast, Hfirst, app_assoc.
Qed.

End Deletes.

Lemma deletes_come_last_witness :
  match DirWatcher.poll DirWatcherCallback.cb Examples.after_first_poll
          Examples.before_second_poll with
  | Return this' _ =>
      exists first last,
        DirWatcher.reported this' = (first ++ last)%list /\
        (forall ev, In ev first ->
           DirWatcher.action ev = DirWatcherCallbackBase.CREATE \/
           DirWatcher.action ev = DirWatcherCallbackBase.MODIFY) /\
        (forall ev, In ev last ->
           DirWatcher.action ev = DirWatcherCallbackBase.DELETE)
  | Raise _ _ => False
  end.
Proof.
  destruct (DirWatcher.poll DirWatcherCallback.cb Examples.after_first_poll
              Examples.before_second_poll) as [this' w'|e w'] eqn:E.
  - exact (deletes_come_last DirWatcherCallback.cb Examples.after_first_poll
             this' Examples.before_second_poll w' E).
  - vm_compute in E. discriminate E.
Defined.

Lemma delete_only_for_missing_witness :
  match DirWatcher.poll DirWatcherCallback.cb Examples.after_first_poll
          Examples.before_second_poll with
  | Return this' _ =>
      exists evs,
        DirWatcher.reported this' = evs /\
        forall ev,
          In ev evs ->
          DirWatcher.action ev = DirWatcherCallbackBase.DELETE ->
          apart (Path.components (DirWatcher.source_path ev)) ["Replica"] = true ->
          fs_exists (DirWatcher.source_path ev) Examples.before_second_poll = false
  | Raise _ _ => False
  end.
Proof.
  destruct (DirWatcher.poll DirWatcherCallback.cb Examples.after_first_poll
              Examples.before_second_poll) as [this' w'|e w'] eqn:E.
  - exact (delete_only_for_missing Examples.after_first_poll this'
             Examples.before_second_poll w' E).
  - vm_compute in E. discriminate E.
Defined.

(* ================================================================== *)
(** * The Snapshot after a cycle *)

Section AfterCycle.

Import DirWatcherCallbackBase.
Import DirWatcher.

(** Whether a path exists is a matter of the kind of what it denotes. *)
Lemma fs_exists_kind (p : string) (v w : world) :
  kind_at (Path.components p) v = kind_at (Path.components p) w ->
  fs_exists p v = fs_exists p w.
Proof.
  unfold kind_at, denotes, fs_exists.
  destruct (FS.lookup _ (files v)), (FS.lookup _ (files w));
    try discriminate; reflexivity.
Qed.

(** A loop invariant that knows which elements the loop has handled. *)
Lemma for_each_handled {A S : Type} (I : list A -> S -> world -> Prop)
  (body : A -> S -> M S) (xs : list A) :
  (forall done x s w s' w',
      In x xs -> I done s w -> body x s w = Return s' w' ->
      I (done ++ [x])%list s' w') ->
  forall done s w s' w',
    I done s w -> for_each xs body s w = Return s' w' ->
    I (done ++ xs)%list s' w'.
Proof.
  induction xs as [|x xs IH]; intros Hbody done s w s' w' Hs; simpl.
  - intros [= <- <-]. now rewrite app_nil_r.
  - unfold bind. destruct (body x s w) as [s1 w1|] eqn:E; [|discriminate].
    intros Hrest.
    replace (done ++ x :: xs)%list with ((done ++ [x]) ++ xs)%list
      by (now rewrite <- app_assoc).
    eapply IH; [|eapply Hbody; [now left|exact Hs|exact E]|exact Hrest].
    intros done' y t v t' v' Hy. apply Hbody. now right.
Qed.

Lemma detect_delete_kept (callback : vtable) (entry : directory_entry)
  (this this' : t) (w w' : world) :
  detect_delete callback entry this w = Return this' w' ->
  (forall g, In g (garbage this) -> In g (garbage this')) /\
  (EntrySet.contains (replica_content this) entry = true ->
   fs_exists (path entry) w = true \/ In entry (garbage this')).
Proof.
  intros Hd.
  destruct (detect_delete_effect callback entry this this' w w' Hd)
    as (_ & _ & _ & _ & _ & Hg).
  split.
  - intros g Hin. destruct Hg as [[-> _]|[-> _]]; [exact Hin|].
    apply in_app_iff. now left.
  - intros Hc. unfold detect_delete in Hd. rewrite Hc in Hd.
    destruct (fs_exists (path entry) w); [now left|]. right. simpl in Hd.
    unfold bind in Hd.
    destruct (if is_regular_file entry
              then report callback DELETE REGULAR entry this
              else if is_directory entry
                   then report callback DELETE DIRECTORY entry this
                   else ret this) as [s v|]; [|discriminate].
    injection Hd as <- _. cbn. apply in_app_iff. right. now left.
Qed.

(** X19. After a completed poll cycle of a watcher whose Snapshot is
    included in its Shadow Set (as it is in every state the watcher goes
    through), every entry of the Snapshot stands for a path that exists:
    the delete scan visits every entry, and those whose path is gone are
    erased at the end of the cycle. The path is taken to part ways with
    the replica root, so that the cycle itself cannot remove it. *)
Theorem snapshot_holds_existing_paths (this this' : t) (w w' : world) :
  poll DirWatcherCallback.cb this w = Return this' w' ->
  snapshot_in_shadow this ->
  forall x,
    In x (source_content this') ->
    apart (Path.components (path x)) (Path.components (replica this)) = true ->
    fs_exists (path x) w' = true.
Proof.
  intros Hpoll Hshadow.
  destruct (poll_stages _ this this' w w' Hpoll)
    as (entries & walked & w1 & mid & _ & Hwalk & Hscan & ->).
  set (rep := Path.components (replica this)).
  set (frame := fun v : world =>
         forall b, apart b rep = true -> kind_at b v = kind_at b w).
  assert (H1 : replica walked = replica this /\ frame w1 /\
               snapshot_in_shadow walked).
  { revert Hwalk.
    apply (for_each_invariant
      (fun s v => replica s = replica this /\ frame v /\ snapshot_in_shadow s)).
    - intros x s v s' v' _ (Hr & Hf & Hs) Hc.
      destruct (classify_effect _ x s s' v v' Hc)
        as (_ & _ & Hr' & _ & _ & Hsets).
      split; [congruence|]. split.
      + intros b Hb. rewrite <- (Hf b Hb).
        pose proof (kind_classify (replica s) b) as K.
        rewrite Hr in K. specialize (K Hb x s Hr v). rewrite Hc in K. exact K.
      + unfold snapshot_in_shadow.
        destruct Hsets as [[-> ->]|(_ & -> & ->)]; [exact Hs|].
        intros y Hy. apply SetFacts.contains_emplace.
        apply SetFacts.contains_emplace in Hy. destruct Hy; auto.
    - split; [reflexivity|]. split; [intros b _; reflexivity|exact Hshadow]. }
  destruct H1 as (Hrep1 & Hframe1 & Hshadow1).
  assert (H2 : replica mid = replica this /\ frame w' /\
               source_content mid = source_content walked /\
               forall x, In x (source_content walked) ->
                 (apart (Path.components (path x)) rep = true ->
                  fs_exists (path x) w = true) \/ In x (garbage mid)).
  { assert (H0 : replica mid = replica this /\ frame w' /\
                 source_content mid = source_content walked /\
                 replica_content mid = replica_content walked /\
                 forall x, In x ([] ++ source_content walked)%list ->
                   (apart (Path.components (path x)) rep = true ->
                    fs_exists (path x) w = true) \/ In x (garbage mid)).
    { revert Hscan.
      apply (for_each_handled
        (fun done s v =>
           replica s = replica this /\ frame v /\
           source_content s = source_content walked /\
           replica_content s = replica_content walked /\
           forall x, In x done ->
             (apart (Path.components (path x)) rep = true ->
              fs_exists (path x) w = true) \/ In x (garbage s))).
      - intros done x s v s' v' Hx (Hr & Hf & Hsc & Hrc & Hdone) Hd.
        destruct (detect_delete_effect _ x s s' v v' Hd)
          as (Hsc' & Hrc' & _ & Hr' & _).
        destruct (detect_delete_kept _ x s s' v v' Hd) as (Hkeep & Hcase).
        split; [congruence|]. split; [|split; [congruence|split; [congruence|]]].
        + intros b Hb. rewrite <- (Hf b Hb).
          pose proof (kind_detect_delete (replica s) b) as K.
          rewrite Hr in K. specialize (K Hb x s Hr v). rewrite Hd in K. exact K.
        + intros y Hy. apply in_app_iff in Hy. destruct Hy as [Hy|[<-|[]]].
          * destruct (Hdone y Hy) as [H|H]; [now left|right; now apply Hkeep].
          * assert (Hc : EntrySet.contains (replica_content s) x = true).
            { rewrite Hrc. apply Hshadow1. apply SetFacts.contains_iff.
              exists x. split; [exact Hx|apply same_entry_refl]. }
            destruct (Hcase Hc) as [Hex|Hg]; [left|now right].
            intros Hap. rewrite <- (fs_exists_kind _ v w (Hf _ Hap)).
            exact Hex.
      - split; [exact Hrep1|]. split; [exact Hframe1|].
        repeat split. intros x []. }
    destruct H0 as (Ha & Hb & Hc & _ & Hd). repeat split; auto. }
  destruct H2 as (_ & Hframe2 & Hsc & Hall).
  intros x Hx Hap. unfold collect_garbage in Hx. cbn in Hx.
  apply SetFacts.in_erase_all in Hx. destruct Hx as [Hin Hnot].
  rewrite Hsc in Hin. destruct (Hall x Hin) as [Hex|Hg].
  - rewrite (fs_exists_kind _ w' w (Hframe2 _ Hap)). now apply Hex.
  - pose proof (same_entry_refl x) as K.
    rewrite (Hnot x Hg) in K. discriminate K.
Qed.

End AfterCycle.

Lemma snapshot_holds_existing_paths_witness :
  match DirWatcher.poll DirWatcherCallback.cb Examples.after_first_poll
          Examples.before_second_poll with
  | Return this' w' =>
      In Examples.a_txt (DirWatcher.source_content this') /\
      fs_exists "Source/a.txt" w' = true
  | Raise _ _ => False
  end.
Proof.
  destruct (DirWatcher.poll DirWatcherCallback.cb Examples.after_first_poll
              Examples.before_second_poll) as [this' w'|e w'] eqn:E.
  - assert (Hin : In Examples.a_txt (DirWatcher.source_content this')).
    { vm_compute in E. injection E as <- _. left. reflexivity. }
    split; [exact Hin|].
    assert (Hs : snapshot_in_shadow Examples.after_first_poll)
      by (intros x Hx; exact Hx).
    exact (snapshot_holds_existing_paths Examples.after_first_poll this'
             Examples.before_second_poll w' E Hs Examples.a_txt Hin
             eq_refl).
  - vm_compute in E. discriminate E.
Defined.

